(** * SEO keyword research tool: the state controller, the generation client
      and the saved-keyword persistence, embedded from the TypeScript sources

    - [src/types.ts]                 the [KeywordData] interface
    - [services/geminiService.ts]    [generateKeywordsAndMetrics]
    - [components/KeywordInput.tsx]  the count input and [handleSubmit]
    - [src/App.tsx]                  the handlers of the [App] component

    JavaScript strings are sequences of UTF-16 code units; a code unit is a
    natural number.  The host functions the sources call ([JSON.parse],
    [JSON.stringify], [parseInt], [String.prototype.includes], [trim],
    [localStorage], [crypto.randomUUID]) are modelled after ECMAScript. *)

From Stdlib Require Import ZArith NArith String Ascii DecimalString.
From stdpp Require Import base tactics option list gmap.

Local Open Scope N_scope.

(** ** JavaScript strings *)

Module JsString.

Abbreviation jsstring := (list N).

(** A source literal as a sequence of code units. *)
Definition js (s : string) : jsstring :=
  N_of_ascii <$> list_ascii_of_string s.
Arguments js s%_string.

(** [p] is a prefix of [s], compared code unit by code unit. *)
Fixpoint startsWith (s p : jsstring) {struct p} : bool :=
  match p with
  | [] => true
  | a :: p' =>
      match s with
      | [] => false
      | b :: s' => (a =? b) && startsWith s' p'
      end
  end.

(** [String.prototype.includes]: [sub] occurs somewhere in [s]. *)
Fixpoint includes (s sub : jsstring) : bool :=
  startsWith s sub ||
  match s with
  | [] => false
  | _ :: s' => includes s' sub
  end.

(** WhiteSpace and LineTerminator code points, the set that [trim] and
    [parseInt] strip. *)
Definition isWhiteSpace (c : N) : bool :=
  (9 <=? c) && (c <=? 13)
  || (c =? 32) || (c =? 160) || (c =? 5760)
  || (8192 <=? c) && (c <=? 8202)
  || (c =? 8232) || (c =? 8233) || (c =? 8239) || (c =? 8287)
  || (c =? 12288) || (c =? 65279).

Fixpoint trimStart (s : jsstring) : jsstring :=
  match s with
  | c :: s' => if isWhiteSpace c then trimStart s' else s
  | [] => []
  end.

Definition trimEnd (s : jsstring) : jsstring := rev (trimStart (rev s)).

Definition trim (s : jsstring) : jsstring := trimEnd (trimStart s).

(** ToBoolean on a string: only the empty string is falsy. *)
Definition truthy (s : jsstring) : bool :=
  match s with [] => false | _ :: _ => true end.

Definition isDigit (c : N) : bool := (48 <=? c) && (c <=? 57).

(** Decimal numeral of a natural number, as in ToString of an index. *)
Definition decimal (n : N) : jsstring :=
  js (DecimalString.NilZero.string_of_uint (N.to_uint n)).

End JsString.
Export JsString.

(** ** JSON values, [JSON.stringify] and [JSON.parse] *)

(** Code units that the grammar names, in decimal:
    9 tab, 10 line feed, 13 carriage return, 32 space,
    34 double quote, 43 plus, 44 comma, 45 minus, 46 full stop, 47 slash,
    48 to 57 the digits, 58 colon, 69 E, 91 and 93 square brackets,
    92 backslash, 98 b, 101 e, 102 f, 110 n, 114 r, 116 t, 117 u,
    123 and 125 braces; 55296 to 57343 are the surrogates. *)

Module JSON.

(** A value as [JSON.parse] builds it.  A number is kept as its literal:
    no arithmetic is done on numbers anywhere in the sources.  An object
    is its list of own properties in enumeration order. *)
#[local] Unset Elimination Schemes.
Inductive Json : Type :=
| JNull
| JBool (b : bool)
| JNum (literal : jsstring)
| JStr (s : jsstring)
| JArr (items : list Json)
| JObj (props : list (jsstring * Json)).
#[local] Set Elimination Schemes.

(** *** Property order of ordinary objects *)

(** A canonical array index: a decimal numeral without leading zero whose
    value is below 2^32 - 1. *)
Definition digitsValue (k : jsstring) : N :=
  foldl (fun acc c => 10 * acc + (c - 48)) 0 k.

Definition arrayIndex (k : jsstring) : option N :=
  match k with
  | [] => None
  | c :: rest =>
      if forallb isDigit k
         && ((c =? 48) && bool_decide (rest = []) || negb (c =? 48))
         && (length k <=? 10)%nat
         && (digitsValue k <? 4294967295)
      then Some (digitsValue k) else None
  end.

(** Own property keys enumerate array indices first, in ascending order,
    then the other keys in creation order. *)
Definition enumeratesBefore (k k' : jsstring) : bool :=
  match arrayIndex k, arrayIndex k' with
  | Some i, Some j => i <? j
  | Some _, None => true
  | None, _ => false
  end.

(** CreateDataProperty on an ordinary object: an existing key keeps its
    place and takes the new value, a new key goes to its place in the
    enumeration order. *)
Fixpoint defineProperty (k : jsstring) (v : Json)
    (ps : list (jsstring * Json)) : list (jsstring * Json) :=
  match ps with
  | [] => [(k, v)]
  | (k', v') :: rest =>
      if bool_decide (k = k') then (k, v) :: rest
      else if enumeratesBefore k k' then (k, v) :: ps
      else (k', v') :: defineProperty k v rest
  end.

Definition defineAll (target ps : list (jsstring * Json))
    : list (jsstring * Json) :=
  foldl (fun acc p => defineProperty p.1 p.2 acc) target ps.

(** [o.k] on an object's own properties; [None] is [undefined]. *)
Fixpoint lookupProp (k : jsstring) (ps : list (jsstring * Json))
    : option Json :=
  match ps with
  | [] => None
  | (k', v) :: rest => if bool_decide (k = k') then Some v else lookupProp k rest
  end.

Definition getProp (o : Json) (k : jsstring) : option Json :=
  match o with
  | JObj ps => lookupProp k ps
  | _ => None
  end.

(** The own enumerable properties that an object spread copies: those of
    an object, the elements of an array and the code units of a string
    under their indices, none for null, booleans and numbers. *)
Definition ownProperties (v : Json) : list (jsstring * Json) :=
  match v with
  | JObj ps => ps
  | JArr items => imap (fun i x => (decimal (N.of_nat i), x)) items
  | JStr s => imap (fun i c => (decimal (N.of_nat i), JStr [c])) s
  | JNull | JBool _ | JNum _ => []
  end.

(** *** JSON.stringify *)

Definition hexDigit (n : N) : N := if n <? 10 then 48 + n else 87 + n.

(** The escape [\uXXXX] of a code unit, in lower-case hexadecimal. *)
Definition unicodeEscape (c : N) : jsstring :=
  [92; 117; hexDigit (c / 4096 mod 16); hexDigit (c / 256 mod 16);
   hexDigit (c / 16 mod 16); hexDigit (c mod 16)].

Definition isHighSurrogate (c : N) : bool := (55296 <=? c) && (c <=? 56319).
Definition isLowSurrogate (c : N) : bool := (56320 <=? c) && (c <=? 57343).

(** QuoteJSONString without the enclosing quotes: the short escapes, [\u]
    escapes for the other control characters and for lone surrogates,
    every other code unit as it is. *)
Fixpoint quoteChars (s : jsstring) : jsstring :=
  match s with
  | [] => []
  | c :: t =>
      if c =? 8 then 92 :: 98 :: quoteChars t
      else if c =? 9 then 92 :: 116 :: quoteChars t
      else if c =? 10 then 92 :: 110 :: quoteChars t
      else if c =? 12 then 92 :: 102 :: quoteChars t
      else if c =? 13 then 92 :: 114 :: quoteChars t
      else if c =? 34 then 92 :: 34 :: quoteChars t
      else if c =? 92 then 92 :: 92 :: quoteChars t
      else if c <? 32 then unicodeEscape c ++ quoteChars t
      else if isHighSurrogate c then
        match t with
        | d :: t' =>
            if isLowSurrogate d then c :: d :: quoteChars t'
            else unicodeEscape c ++ quoteChars t
        | [] => unicodeEscape c
        end
      else if isLowSurrogate c then unicodeEscape c ++ quoteChars t
      else c :: quoteChars t
  end.

Definition quote (s : jsstring) : jsstring := 34 :: quoteChars s ++ [34].

(** Texts separated by commas. *)
Fixpoint commaSeparated (parts : list jsstring) : jsstring :=
  match parts with
  | [] => []
  | [x] => x
  | x :: rest => x ++ 44 :: commaSeparated rest
  end.

(** [JSON.stringify(v)] for a JSON value, without indentation.  The text
    of a number is taken to be its literal. *)
Fixpoint stringify (v : Json) : jsstring :=
  match v with
  | JNull => js "null"
  | JBool true => js "true"
  | JBool false => js "false"
  | JNum literal => literal
  | JStr s => quote s
  | JArr items => 91 :: commaSeparated (map stringify items) ++ [93]
  | JObj props =>
      123 :: commaSeparated
               (map (fun p => match p with
                              | (k, x) => quote k ++ 58 :: stringify x
                              end) props) ++ [125]
  end.

(** *** JSON.parse *)

Definition isJsonWs (c : N) : bool :=
  (c =? 32) || (c =? 9) || (c =? 10) || (c =? 13).

Fixpoint skipWs (s : jsstring) : jsstring :=
  match s with
  | c :: t => if isJsonWs c then skipWs t else s
  | [] => []
  end.

Definition hexValue (c : N) : option N :=
  if isDigit c then Some (c - 48)
  else if (97 <=? c) && (c <=? 102) then Some (c - 87)
  else if (65 <=? c) && (c <=? 70) then Some (c - 55)
  else None.

(** The character a one-letter escape stands for. *)
Definition unescape (e : N) : option N :=
  if e =? 34 then Some 34
  else if e =? 92 then Some 92
  else if e =? 47 then Some 47
  else if e =? 98 then Some 8
  else if e =? 102 then Some 12
  else if e =? 110 then Some 10
  else if e =? 114 then Some 13
  else if e =? 116 then Some 9
  else None.

Definition consChar (c : N) (r : option (jsstring * jsstring))
    : option (jsstring * jsstring) :=
  match r with
  | Some (s, rest) => Some (c :: s, rest)
  | None => None
  end.

(** The characters of a string literal after its opening quote, up to and
    including the closing quote. *)
Fixpoint parseStringBody (s : jsstring) : option (jsstring * jsstring) :=
  match s with
  | [] => None
  | c :: t =>
      if c =? 34 then Some ([], t)
      else if c =? 92 then
        match t with
        | [] => None
        | e :: t1 =>
            if e =? 117 then
              match t1 with
              | h1 :: h2 :: h3 :: h4 :: t2 =>
                  match hexValue h1, hexValue h2, hexValue h3, hexValue h4 with
                  | Some a, Some b, Some c', Some d =>
                      consChar (((a * 16 + b) * 16 + c') * 16 + d)
                               (parseStringBody t2)
                  | _, _, _, _ => None
                  end
              | _ => None
              end
            else
              match unescape e with
              | Some x => consChar x (parseStringBody t1)
              | None => None
              end
        end
      else if c <? 32 then None
      else consChar c (parseStringBody t)
  end.

Fixpoint takeDigits (s : jsstring) : jsstring * jsstring :=
  match s with
  | c :: t =>
      if isDigit c then
        match takeDigits t with (d, r) => (c :: d, r) end
      else ([], s)
  | [] => ([], [])
  end.

Definition parseIntPart (s : jsstring) : option (jsstring * jsstring) :=
  match s with
  | c :: t =>
      if c =? 48 then Some ([48], t)
      else if isDigit c then
        match takeDigits t with (d, r) => Some (c :: d, r) end
      else None
  | [] => None
  end.

Definition parseFraction (s : jsstring) : option (jsstring * jsstring) :=
  match s with
  | c :: t =>
      if c =? 46 then
        match takeDigits t with
        | ([], _) => None
        | (d, r) => Some (c :: d, r)
        end
      else Some ([], s)
  | [] => Some ([], s)
  end.

Definition parseExponent (s : jsstring) : option (jsstring * jsstring) :=
  match s with
  | c :: t =>
      if (c =? 101) || (c =? 69) then
        let '(sign, t') :=
          match t with
          | x :: t1 => if (x =? 43) || (x =? 45) then ([x], t1) else ([], t)
          | [] => ([], t)
          end in
        match takeDigits t' with
        | ([], _) => None
        | (d, r) => Some (c :: sign ++ d, r)
        end
      else Some ([], s)
  | [] => Some ([], s)
  end.

(** A number literal: optional minus, integer part, optional fraction,
    optional exponent. *)
Definition parseNumber (s : jsstring) : option (jsstring * jsstring) :=
  let '(sign, s1) :=
    match s with
    | c :: t => if c =? 45 then ([c], t) else ([], s)
    | [] => ([], s)
    end in
  match parseIntPart s1 with
  | Some (i, s2) =>
      match parseFraction s2 with
      | Some (f, s3) =>
          match parseExponent s3 with
          | Some (e, s4) => Some (sign ++ i ++ f ++ e, s4)
          | None => None
          end
      | None => None
      end
  | None => None
  end.

(** Recursive descent over the JSON grammar.  [fuel] bounds the number of
    nested calls; [JSON_parse] below supplies enough of it. *)
Fixpoint parseValue (fuel : nat) (s : jsstring) {struct fuel}
    : option (Json * jsstring) :=
  match fuel with
  | O => None
  | S fuel' =>
      match skipWs s with
      | [] => None
      | c :: t =>
          if c =? 123 then
            match skipWs t with
            | [] => None
            | d :: r =>
                if d =? 125 then Some (JObj [], r)
                else parseMembers fuel' [] t
            end
          else if c =? 91 then
            match skipWs t with
            | [] => None
            | d :: r =>
                if d =? 93 then Some (JArr [], r)
                else
                  match parseElements fuel' t with
                  | Some (items, r') => Some (JArr items, r')
                  | None => None
                  end
            end
          else if c =? 34 then
            match parseStringBody t with
            | Some (x, r) => Some (JStr x, r)
            | None => None
            end
          else if startsWith (c :: t) (js "true") then
            Some (JBool true, drop 4 (c :: t))
          else if startsWith (c :: t) (js "false") then
            Some (JBool false, drop 5 (c :: t))
          else if startsWith (c :: t) (js "null") then
            Some (JNull, drop 4 (c :: t))
          else
            match parseNumber (c :: t) with
            | Some (literal, r) => Some (JNum literal, r)
            | None => None
            end
      end
  end
with parseElements (fuel : nat) (s : jsstring) {struct fuel}
    : option (list Json * jsstring) :=
  match fuel with
  | O => None
  | S fuel' =>
      match parseValue fuel' s with
      | Some (v, r) =>
          match skipWs r with
          | [] => None
          | c :: r' =>
              if c =? 44 then
                match parseElements fuel' r' with
                | Some (vs, r'') => Some (v :: vs, r'')
                | None => None
                end
              else if c =? 93 then Some ([v], r')
              else None
          end
      | None => None
      end
  end
with parseMembers (fuel : nat) (acc : list (jsstring * Json)) (s : jsstring)
    {struct fuel} : option (Json * jsstring) :=
  match fuel with
  | O => None
  | S fuel' =>
      match skipWs s with
      | [] => None
      | q :: t =>
          if q =? 34 then
            match parseStringBody t with
            | Some (k, r) =>
                match skipWs r with
                | [] => None
                | c :: r1 =>
                    if c =? 58 then
                      match parseValue fuel' r1 with
                      | Some (v, r2) =>
                          match skipWs r2 with
                          | [] => None
                          | d :: r3 =>
                              if d =? 44 then
                                parseMembers fuel' (defineProperty k v acc) r3
                              else if d =? 125 then
                                Some (JObj (defineProperty k v acc), r3)
                              else None
                          end
                      | None => None
                      end
                    else None
                end
            | None => None
            end
          else None
      end
  end.

(** [JSON.parse(text)]: [None] stands for the SyntaxError it throws. *)
Definition JSON_parse (text : jsstring) : option Json :=
  match parseValue (2 * length text + 2) text with
  | Some (v, r) => if bool_decide (skipWs r = []) then Some v else None
  | None => None
  end.

(** *** Values that survive a store *)

(** [k] may be created after the keys [seen] without moving ahead of any
    of them and without overwriting one. *)
Definition appendable (k : jsstring) (seen : list jsstring) : bool :=
  forallb (fun k' => negb (bool_decide (k = k')) && negb (enumeratesBefore k k'))
          seen.

Fixpoint canonicalKeys (seen ks : list jsstring) : bool :=
  match ks with
  | [] => true
  | k :: rest => appendable k seen && canonicalKeys (seen ++ [k]) rest
  end.

(** Values built from null, booleans, strings, arrays and objects whose
    keys are in enumeration order.  Numbers are left out: their text is
    decided by floating-point formatting, which is not modelled. *)
Fixpoint storable (v : Json) : bool :=
  match v with
  | JNull | JBool _ | JStr _ => true
  | JNum _ => false
  | JArr items => forallb storable items
  | JObj props =>
      canonicalKeys [] (map fst props)
      && forallb (fun p => match p with (_, x) => storable x end) props
  end.

(** The first character of a literal word, a quote or an opening bracket:
    what the text of a storable value starts with. *)
Definition startsValue (c : N) : bool :=
  (c =? 110) || (c =? 116) || (c =? 102) || (c =? 34) || (c =? 91)
  || (c =? 123).

(** Fuel that [parseValue] needs to read back the text of [v]. *)
Fixpoint need (v : Json) : nat :=
  match v with
  | JArr items => S (foldr (fun x n => S (need x + n)) O items)
  | JObj props =>
      S (foldr (fun p n => match p with (_, x) => S (need x + n) end) O props)
  | _ => 1%nat
  end.

(** What reading back a value's text is expected to give, whatever text
    follows it. *)
Definition readsBack (v : Json) : Prop :=
  storable v = true ->
  forall (fuel : nat) (rest : jsstring),
    (need v <= fuel)%nat ->
    parseValue fuel (stringify v ++ rest) = Some (v, rest).

Section JsonInduction.
Variable P : Json -> Prop.
Hypothesis Hnull : P JNull.
Hypothesis Hbool : forall b, P (JBool b).
Hypothesis Hnum : forall l, P (JNum l).
Hypothesis Hstr : forall s, P (JStr s).
Hypothesis Harr : forall items, Forall P items -> P (JArr items).
Hypothesis Hobj : forall props, Forall (fun p => P p.2) props -> P (JObj props).

Fixpoint Json_ind (v : Json) : P v :=
  match v with
  | JNull => Hnull
  | JBool b => Hbool b
  | JNum l => Hnum l
  | JStr s => Hstr s
  | JArr items =>
      Harr items
        ((fix go (l : list Json) : Forall P l :=
            match l with
            | [] => @List.Forall_nil _ P
            | x :: l' => @List.Forall_cons _ P x l' (Json_ind x) (go l')
            end) items)
  | JObj props =>
      Hobj props
        ((fix go (l : list (jsstring * Json)) : Forall (fun p => P p.2) l :=
            match l with
            | [] => @List.Forall_nil _ _
            | (k, x) :: l' =>
                @List.Forall_cons _ (fun p => P p.2) (k, x) l' (Json_ind x) (go l')
            end) props)
  end.
End JsonInduction.

End JSON.
Export JSON.

(** ** src/types.ts *)

Module Types.

(** ['Low' | 'Medium' | 'High' | 'Very High'] *)
Inductive DifficultyLevel : Type := Low | Medium | High | VeryHigh.

(** ['0-10' | '10-100' | '100-1K' | '1K-10K' | '10K-100K' | '100K+'] *)
Inductive SearchVolumeRange : Type :=
| Vol_0_10 | Vol_10_100 | Vol_100_1K | Vol_1K_10K | Vol_10K_100K | Vol_100K_up.

(** [KeywordData['competitionLevel']] is the same union of literals as
    [KeywordData['difficulty']]. *)
Definition CompetitionLevel : Type := DifficultyLevel.

Record KeywordData : Type := mkKeywordData {
  id : jsstring;
  keyword : jsstring;
  difficulty : DifficultyLevel;
  searchVolume : SearchVolumeRange;
  competitionLevel : CompetitionLevel;
  estimatedCpc : jsstring;
  contentIdeas : list jsstring;
  serpFeatures : list jsstring
}.

#[global] Instance DifficultyLevel_eq_dec : EqDecision DifficultyLevel.
Proof. solve_decision. Defined.

#[global] Instance SearchVolumeRange_eq_dec : EqDecision SearchVolumeRange.
Proof. solve_decision. Defined.

#[global] Instance KeywordData_eq_dec : EqDecision KeywordData.
Proof. solve_decision. Defined.

(** The string each literal is at run time. *)
Definition difficultyText (d : DifficultyLevel) : jsstring :=
  match d with
  | Low => js "Low"
  | Medium => js "Medium"
  | High => js "High"
  | VeryHigh => js "Very High"
  end.

Definition volumeText (v : SearchVolumeRange) : jsstring :=
  match v with
  | Vol_0_10 => js "0-10"
  | Vol_10_100 => js "10-100"
  | Vol_100_1K => js "100-1K"
  | Vol_1K_10K => js "1K-10K"
  | Vol_10K_100K => js "10K-100K"
  | Vol_100K_up => js "100K+"
  end.

(** The declared value sets, as [responseSchema] lists them. *)
Definition difficultyTexts : list jsstring :=
  [js "Low"; js "Medium"; js "High"; js "Very High"].

Definition volumeTexts : list jsstring :=
  [js "0-10"; js "10-100"; js "100-1K"; js "1K-10K"; js "10K-100K";
   js "100K+"].

(** The object a typed record is at run time: the seven properties of the
    reply in the order of [responseSchema], then the [id] that the client
    adds. *)
Definition toJson (kw : KeywordData) : Json :=
  JObj [ (js "keyword", JStr (keyword kw));
         (js "difficulty", JStr (difficultyText (difficulty kw)));
         (js "searchVolume", JStr (volumeText (searchVolume kw)));
         (js "competitionLevel", JStr (difficultyText (competitionLevel kw)));
         (js "estimatedCpc", JStr (estimatedCpc kw));
         (js "contentIdeas", JArr (JStr <$> contentIdeas kw));
         (js "serpFeatures", JArr (JStr <$> serpFeatures kw));
         (js "id", JStr (id kw)) ].

(** The array a [KeywordData[]] is at run time. *)
Definition toJsonArray (kws : list KeywordData) : Json :=
  JArr (toJson <$> kws).

(** A filter selection: [T | 'All']. *)
Inductive OrAll (T : Type) : Type :=
| All
| Only (value : T).
Arguments All {T}.
Arguments Only {T} value.

(** Run-time checks against the interface, for values whose type is only
    asserted. *)
Definition isStringValue (v : option Json) : bool :=
  match v with
  | Some (JStr _) => true
  | _ => false
  end.

Definition isOneOf (texts : list jsstring) (v : option Json) : bool :=
  match v with
  | Some (JStr s) => bool_decide (s ∈ texts)
  | _ => false
  end.

Definition isStringArray (v : option Json) : bool :=
  match v with
  | Some (JArr items) =>
      forallb (fun x => match x with JStr _ => true | _ => false end) items
  | _ => false
  end.

(** The seven fields that [Omit<KeywordData, 'id'>] declares are present
    with their declared types, the three enumerated ones within their
    value sets. *)
Definition hasDeclaredFields (o : Json) : bool :=
  isStringValue (getProp o (js "keyword"))
  && isOneOf difficultyTexts (getProp o (js "difficulty"))
  && isOneOf volumeTexts (getProp o (js "searchVolume"))
  && isOneOf difficultyTexts (getProp o (js "competitionLevel"))
  && isStringValue (getProp o (js "estimatedCpc"))
  && isStringArray (getProp o (js "contentIdeas"))
  && isStringArray (getProp o (js "serpFeatures")).

End Types.
Export Types.

(** ** Effects: exceptions over a threaded state *)

Module Effects.

(** A thrown value: an [Error] instance with its [message], or anything
    else. *)
Inductive Thrown : Type :=
| ErrorObject (message : jsstring)
| NonError.

Inductive Completion (A : Type) : Type :=
| Normal (value : A)
| Abrupt (thrown : Thrown).
Arguments Normal {A} value.
Arguments Abrupt {A} thrown.

Definition M (S A : Type) : Type := S -> Completion A * S.

Definition ret {S A : Type} (a : A) : M S A := fun s => (Normal a, s).

Definition bind {S A B : Type} (m : M S A) (k : A -> M S B) : M S B :=
  fun s =>
    match m s with
    | (Normal a, s') => k a s'
    | (Abrupt e, s') => (Abrupt e, s')
    end.

Definition throw {S A : Type} (e : Thrown) : M S A := fun s => (Abrupt e, s).

(** [try { body } catch (e) { handler e }] *)
Definition tryCatch {S A : Type} (body : M S A) (handler : Thrown -> M S A)
    : M S A :=
  fun s =>
    match body s with
    | (Normal a, s') => (Normal a, s')
    | (Abrupt e, s') => handler e s'
    end.

(** [try { body } finally { final }]: [final] runs on every exit of
    [body], and the completion of [body] stands unless [final] throws. *)
Definition tryFinally {S A : Type} (body : M S A) (final : M S unit)
    : M S A :=
  fun s =>
    match body s with
    | (c, s') =>
        match final s' with
        | (Normal _, s'') => (c, s'')
        | (Abrupt e, s'') => (Abrupt e, s'')
        end
    end.

Definition gets {S A : Type} (f : S -> A) : M S A := fun s => (Normal (f s), s).

Definition modify {S : Type} (f : S -> S) : M S unit :=
  fun s => (Normal tt, f s).

(** Runs an action on a component of the state. *)
Definition zoom {S T A : Type} (proj : S -> T) (inj : T -> S -> S)
    (m : M T A) : M S A :=
  fun s =>
    match m (proj s) with
    | (c, t') => (c, inj t' s)
    end.

(** The completion of an action run from a state, and the state it
    leaves. *)
Definition completionOf {S A : Type} (m : M S A) (s : S) : Completion A :=
  (m s).1.

Definition stateAfter {S A : Type} (m : M S A) (s : S) : S := (m s).2.

Fixpoint mapM {S A B : Type} (f : A -> M S B) (l : list A) : M S (list B) :=
  match l with
  | [] => ret []
  | x :: rest =>
      bind (f x) (fun y => bind (mapM f rest) (fun ys => ret (y :: ys)))
  end.

End Effects.
Export Effects.

Notation "'let*' x ':=' m 'in' k" := (bind m (fun x => k))
  (at level 10, x name, m at level 100, k at level 200).

(** ** The host: storage, console, UUID source and the generation service *)

Module Host.

(** How one call of the generation service ends: it fails with a thrown
    value, or it answers with a response whose [text] may be undefined. *)
Inductive ServiceOutcome : Type :=
| Rejects (e : Thrown)
| Responds (text : option jsstring).

(** Errors the engine raises by itself.  Their messages are the engine's
    wording, which the sources do not fix. *)
Inductive EngineFault : Type :=
| TextIsUndefined
| InvalidJson (text : jsstring)
| MapIsNotAFunction (parsed : Json)
| WriteRefused (key value : jsstring)
| MessageOfNonError.

Record World : Type := mkWorld {
  (** [window.localStorage] *)
  localStorage : gmap jsstring jsstring;
  (** whether [setItem key value] succeeds; reads never fail *)
  storageAccepts : jsstring -> jsstring -> bool;
  (** what [console.error] has printed, oldest first *)
  console : list (jsstring * Thrown);
  (** the values [crypto.randomUUID] returns, and how many were drawn *)
  uuids : nat -> jsstring;
  uuidsDrawn : nat;
  (** the outcome of the n-th request to the service *)
  service : nat -> jsstring -> Z -> ServiceOutcome;
  (** the requests made so far, oldest first *)
  serviceCalls : list (jsstring * Z);
  engineMessage : EngineFault -> jsstring
}.

Definition engineThrow {A : Type} (fault : EngineFault) : M World A :=
  fun w => (Abrupt (ErrorObject (engineMessage w fault)), w).

(** [localStorage.getItem(key)]; [None] is [null]. *)
Definition getItem (key : jsstring) : M World (option jsstring) :=
  gets (fun w => localStorage w !! key).

(** [localStorage.setItem(key, value)] *)
Definition setItem (key value : jsstring) : M World unit :=
  fun w =>
    if storageAccepts w key value then
      (Normal tt,
       mkWorld (<[key := value]> (localStorage w)) (storageAccepts w)
               (console w) (uuids w) (uuidsDrawn w) (service w)
               (serviceCalls w) (engineMessage w))
    else engineThrow (WriteRefused key value) w.

(** [console.error(label, e)] *)
Definition consoleError (label : jsstring) (e : Thrown) : M World unit :=
  modify (fun w =>
    mkWorld (localStorage w) (storageAccepts w) (console w ++ [(label, e)])
            (uuids w) (uuidsDrawn w) (service w) (serviceCalls w)
            (engineMessage w)).

(** [crypto.randomUUID()] *)
Definition randomUUID : M World jsstring :=
  fun w =>
    (Normal (uuids w (uuidsDrawn w)),
     mkWorld (localStorage w) (storageAccepts w) (console w) (uuids w)
             (S (uuidsDrawn w)) (service w) (serviceCalls w)
             (engineMessage w)).

(** [await ai.models.generateContent(...)] for the prompt built from
    [seedKeyword] and [numKeywords], followed by [response.text].  Creating
    the client instance is part of the call: its failure is a rejection. *)
Definition generateContent (seedKeyword : jsstring) (numKeywords : Z)
    : M World (option jsstring) :=
  fun w =>
    let w' :=
      mkWorld (localStorage w) (storageAccepts w) (console w) (uuids w)
              (uuidsDrawn w) (service w)
              (serviceCalls w ++ [(seedKeyword, numKeywords)])
              (engineMessage w) in
    match service w (length (serviceCalls w)) seedKeyword numKeywords with
    | Rejects e => (Abrupt e, w')
    | Responds text => (Normal text, w')
    end.

(** [JSON.parse(text)], throwing its SyntaxError. *)
Definition parseJson (text : jsstring) : M World Json :=
  match JSON_parse text with
  | Some v => ret v
  | None => engineThrow (InvalidJson text)
  end.

End Host.
Export Host.

(** ** services/geminiService.ts *)

Module GeminiService.

(** The properties of [{...kw}]: the own properties of [kw], created in
    their order on a fresh object. *)
Definition spreadProps (kw : Json) : list (jsstring * Json) :=
  defineAll [] (ownProperties kw).

(** The object [{...kw, id: uuid}]. *)
Definition withId (kw : Json) (uuid : jsstring) : Json :=
  JObj (defineProperty (js "id") (JStr uuid) (spreadProps kw)).

(** The ids of a batch, as [r.id] reads them. *)
Definition batchIds (batch : list Json) : list (option Json) :=
  (fun r => getProp r (js "id")) <$> batch.

Definition generateKeywordsAndMetrics (seedKeyword : jsstring)
    (numKeywords : Z) : M World (list Json) :=
  tryCatch
    (let* text := generateContent seedKeyword numKeywords in
     let* jsonStr := match text with
                     | Some t => ret (trim t)
                     | None => engineThrow TextIsUndefined
                     end in
     let* parsedKeywords := parseJson jsonStr in
     match parsedKeywords with
     | JArr items =>
         (* Assign a unique ID to each keyword *)
         mapM (fun kw => let* uuid := randomUUID in ret (withId kw uuid))
              items
     | other => engineThrow (MapIsNotAFunction other)
     end)
    (fun error =>
       let* _ := consoleError (js "Error generating keywords:") error in
       match error with
       | ErrorObject message =>
           if includes message (js "Requested entity was not found.") then
             throw (ErrorObject (js "API Key issue or model not found. Please ensure a valid API key is selected."))
           else
             throw (ErrorObject (js "Failed to fetch keyword data. Please try again."))
       | NonError =>
           throw (ErrorObject (js "Failed to fetch keyword data. Please try again."))
       end).

(** The spec's failure signature of a rejected credential: an [Error]
    whose message contains the service's "entity not found" sentence. *)
Definition matchesSignature (e : Thrown) : bool :=
  match e with
  | ErrorObject message =>
      includes message (js "Requested entity was not found.")
  | NonError => false
  end.

End GeminiService.
Export GeminiService.

(** ** components/KeywordInput.tsx *)

Module KeywordInput.




Record InputState : Type := mkInputState {
  seedKeyword : jsstring;
  numKeywords : Z;
  error : option jsstring
}.





(** [handleSubmit]: the state after it, and the arguments of the
    [onSubmit] call when it makes one. *)
Definition handleSubmit (st : InputState)
    : InputState * option (jsstring * Z) :=
  let st := mkInputState (seedKeyword st) (numKeywords st) None in
  if negb (truthy (trim (seedKeyword st))) then
    (mkInputState (seedKeyword st) (numKeywords st)
       (Some (js "Please enter a seed keyword.")), None)
  else if (numKeywords st <? 1)%Z || (20 <? numKeywords st)%Z then
    (mkInputState (seedKeyword st) (numKeywords st)
       (Some (js "Number of keywords must be between 1 and 20.")), None)
  else (st, Some (seedKeyword st, numKeywords st)).




End KeywordInput.

(** ** src/App.tsx *)

Module App.

Definition LOCAL_STORAGE_KEY : jsstring := js "seoKeywords_saved".

(** The state variables of the [App] component.  [keywords] holds the
    objects the client returned, whose type is only asserted there;
    [savedKeywords] holds records of the declared type. *)
Record AppState : Type := mkAppState {
  keywords : list Json;
  savedKeywords : list KeywordData;
  isLoading : bool;
  error : option jsstring;
  hasApiKey : bool;
  selectedDifficultyFilter : OrAll DifficultyLevel;
  selectedVolumeFilter : OrAll SearchVolumeRange;
  selectedCompetitionFilter : OrAll CompetitionLevel
}.

(** The initial values given to [useState]. *)
Definition initialApp : AppState :=
  mkAppState [] [] false None false All All All.

(** The component's state together with the host it runs in. *)
Record Machine : Type := mkMachine {
  component : AppState;
  world : World
}.

Definition inWorld {A : Type} (m : M World A) : M Machine A :=
  zoom world (fun w s => mkMachine (component s) w) m.

Definition setApp (f : AppState -> AppState) : M Machine unit :=
  modify (fun s => mkMachine (f (component s)) (world s)).

Definition setKeywords (v : list Json) : M Machine unit :=
  setApp (fun a =>
    mkAppState v (savedKeywords a) (isLoading a) (error a) (hasApiKey a)
      (selectedDifficultyFilter a) (selectedVolumeFilter a)
      (selectedCompetitionFilter a)).

Definition setSavedKeywords (v : list KeywordData) : M Machine unit :=
  setApp (fun a =>
    mkAppState (keywords a) v (isLoading a) (error a) (hasApiKey a)
      (selectedDifficultyFilter a) (selectedVolumeFilter a)
      (selectedCompetitionFilter a)).

Definition setIsLoading (v : bool) : M Machine unit :=
  setApp (fun a =>
    mkAppState (keywords a) (savedKeywords a) v (error a) (hasApiKey a)
      (selectedDifficultyFilter a) (selectedVolumeFilter a)
      (selectedCompetitionFilter a)).

Definition setError (v : option jsstring) : M Machine unit :=
  setApp (fun a =>
    mkAppState (keywords a) (savedKeywords a) (isLoading a) v (hasApiKey a)
      (selectedDifficultyFilter a) (selectedVolumeFilter a)
      (selectedCompetitionFilter a)).

Definition setHasApiKey (v : bool) : M Machine unit :=
  setApp (fun a =>
    mkAppState (keywords a) (savedKeywords a) (isLoading a) (error a) v
      (selectedDifficultyFilter a) (selectedVolumeFilter a)
      (selectedCompetitionFilter a)).

Definition setSelectedDifficultyFilter (v : OrAll DifficultyLevel)
    : M Machine unit :=
  setApp (fun a =>
    mkAppState (keywords a) (savedKeywords a) (isLoading a) (error a)
      (hasApiKey a) v (selectedVolumeFilter a)
      (selectedCompetitionFilter a)).

Definition setSelectedVolumeFilter (v : OrAll SearchVolumeRange)
    : M Machine unit :=
  setApp (fun a =>
    mkAppState (keywords a) (savedKeywords a) (isLoading a) (error a)
      (hasApiKey a) (selectedDifficultyFilter a) v
      (selectedCompetitionFilter a)).

Definition setSelectedCompetitionFilter (v : OrAll CompetitionLevel)
    : M Machine unit :=
  setApp (fun a =>
    mkAppState (keywords a) (savedKeywords a) (isLoading a) (error a)
      (hasApiKey a) (selectedDifficultyFilter a) (selectedVolumeFilter a)
      v).

(** [loadSavedKeywords]: the result is the argument of the
    [setSavedKeywords] call it makes, [None] when it makes none.  The
    argument is what [JSON.parse] returned, a value of type [any]. *)
Definition loadSavedKeywords : M World (option Json) :=
  tryCatch
    (let* storedKeywords := getItem LOCAL_STORAGE_KEY in
     match storedKeywords with
     | Some text =>
         if truthy text then
           let* parsed := parseJson text in ret (Some parsed)
         else ret None
     | None => ret None
     end)
    (fun e =>
       let* _ := consoleError
             (js "Failed to load saved keywords from local storage:") e in
       (* Reset if there's an issue *)
       ret (Some (JArr []))).

(** [saveKeywordsToLocalStorage] *)
Definition saveKeywordsToLocalStorage (keywordsToSave : list KeywordData)
    : M World unit :=
  tryCatch
    (setItem LOCAL_STORAGE_KEY (stringify (toJsonArray keywordsToSave)))
    (fun e =>
       consoleError (js "Failed to save keywords to local storage:") e).

(** [handleGenerateKeywords] *)
Definition handleGenerateKeywords (seedKeyword : jsstring) (numKeywords : Z)
    : M Machine unit :=
  (* the value of hasApiKey that the callback closed over *)
  let* hasKey := gets (fun s => hasApiKey (component s)) in
  let* _ := setIsLoading true in
  let* _ := setError None in
  let* _ := setKeywords [] in (* Clear previous results *)
  tryFinally
    (tryCatch
       (if negb hasKey then
          let* _ := setError
                (Some (js "API Key not selected. Please select your API key to proceed.")) in
          setIsLoading false
        else
          let* generatedKeywords :=
            inWorld (generateKeywordsAndMetrics seedKeyword numKeywords) in
          setKeywords generatedKeywords)
       (fun err =>
          let* _ := inWorld (consoleError (js "Failed to generate keywords:") err) in
          match err with
          | ErrorObject message =>
              if includes message (js "Requested entity was not found.") then
                let* _ := setHasApiKey false in (* Prompt user to re-select key *)
                setError
                  (Some (js "API Key invalid or expired, or model not found. Please select your API key again."))
              else
                setError
                  (Some (if truthy message then message
                         else js "An unexpected error occurred. Please try again."))
          | NonError => inWorld (engineThrow MessageOfNonError)
          end))
    (setIsLoading false).

(** [handleSaveKeyword] *)
Definition handleSaveKeyword (keywordToSave : KeywordData) : M Machine unit :=
  let* prevSaved := gets (fun s => savedKeywords (component s)) in
  (* Check if keyword is already saved to prevent duplicates based on ID *)
  if existsb (fun kw => bool_decide (id kw = id keywordToSave)) prevSaved then
    setSavedKeywords prevSaved
  else
    let newSaved := prevSaved ++ [keywordToSave] in
    let* _ := inWorld (saveKeywordsToLocalStorage newSaved) in
    setSavedKeywords newSaved.

(** [isKeywordSaved] *)
Definition isKeywordSaved (st : AppState) (keyword : KeywordData) : bool :=
  existsb (fun sk => bool_decide (id sk = id keyword)) (savedKeywords st).

(** [handleClearAllSavedKeywords] *)
Definition handleClearAllSavedKeywords : M Machine unit :=
  let* _ := setSavedKeywords [] in
  let* _ := inWorld (saveKeywordsToLocalStorage []) in
  let* _ := setSelectedDifficultyFilter All in (* Reset filters when clearing all *)
  let* _ := setSelectedVolumeFilter All in
  setSelectedCompetitionFilter All.

(** [selected === 'All' || field === selected] *)
Definition matchesFilter {T : Type} `{EqDecision T} (selected : OrAll T)
    (field : T) : bool :=
  match selected with
  | All => true
  | Only value => bool_decide (field = value)
  end.

(** The spec's words for one axis of the filter: no constraint, or an
    exact match to the selected value. *)
Definition axisAdmits {T : Type} (selected : OrAll T) (field : T) : Prop :=
  selected = All \/ selected = Only field.

(** The spec's words for the whole filter: the three axes combined by
    AND. *)
Definition filterAdmits (st : AppState) (kw : KeywordData) : Prop :=
  axisAdmits (selectedDifficultyFilter st) (difficulty kw)
  /\ axisAdmits (selectedVolumeFilter st) (searchVolume kw)
  /\ axisAdmits (selectedCompetitionFilter st) (competitionLevel kw).

(** [filteredSavedKeywords] *)
Definition filteredSavedKeywords (st : AppState) : list KeywordData :=
  List.filter
    (fun kw =>
       let matchesDifficulty :=
         matchesFilter (selectedDifficultyFilter st) (difficulty kw) in
       let matchesVolume :=
         matchesFilter (selectedVolumeFilter st) (searchVolume kw) in
       let matchesCompetition :=
         matchesFilter (selectedCompetitionFilter st) (competitionLevel kw) in
       matchesDifficulty && matchesVolume && matchesCompetition)
    (savedKeywords st).

End App.

(** ** Sample data for the instances *)

Module Samples.
Import App.

(** A host with an empty store that accepts writes, whose UUID source
    counts in decimal and whose service gives [outcome] to every request. *)
Definition hostWith (outcome : ServiceOutcome) : World :=
  mkWorld ∅ (fun _ _ => true) [] (fun n => decimal (N.of_nat n)) 0
          (fun _ _ _ => outcome) [] (fun _ => js "engine error").

(** The same host with a store that refuses every write. *)
Definition hostRefusingWrites : World :=
  mkWorld ∅ (fun _ _ => false) [] (fun n => decimal (N.of_nat n)) 0
          (fun _ _ _ => Responds None) [] (fun _ => js "quota exceeded").

Definition recordA : KeywordData :=
  mkKeywordData (js "a-1") (js "green tea benefits") Low Vol_1K_10K Medium
    (js "$0.50 - $1.50") [js "Ten benefits"; js "Brewing guide"]
    [js "Featured Snippet"].

Definition recordB : KeywordData :=
  mkKeywordData (js "b-2") (js "matcha latte recipe") VeryHigh Vol_100K_up
    High (js "N/A") [js "Step by step"] [js "Videos"; js "Recipes"].

(** A component that holds a batch and has no key selected. *)
Definition appWithBatchNoKey : AppState :=
  mkAppState [toJson recordA] [recordB] false None false (Only High) All All.

(** A host whose store holds [text] under the key of the saved
    collection. *)
Definition hostStoring (text : jsstring) : World :=
  mkWorld {[LOCAL_STORAGE_KEY := text]} (fun _ _ => true) []
          (fun n => decimal (N.of_nat n)) 0 (fun _ _ _ => Responds None) []
          (fun _ => js "engine error").

(** A component with two saved records and no filter selected. *)
Definition appWithSaved : AppState :=
  mkAppState [] [recordA; recordB] false None true All All All.

(** A component with a key selected. *)
Definition appWithKey : AppState :=
  mkAppState [] [] false None true All All All.

End Samples.

(** ** src/App.tsx: key selection, event dispatch and the rendered panels *)

Module Session.
Import App.

(** [window.aistudio]: each of its two functions may be missing ([None]);
    a call ends with the promise's value or with its rejection. *)
Record AiStudio : Type := mkAiStudio {
  hasSelectedApiKey : option (Completion bool);
  openSelectKey : option (Completion unit)
}.

(** What the key handlers read from the page: [window.aistudio], which
    may be undefined, and the evaluation of [process.env.API_KEY], which
    yields a string or undefined, or throws. *)
Record KeyHost : Type := mkKeyHost {
  aistudio : option AiStudio;
  envApiKey : Completion (option jsstring)
}.

(** The settled value of an awaited promise, or of an expression that may
    throw. *)
Definition settle {S A : Type} (c : Completion A) : M S A := fun s => (c, s).

(** [checkApiKey] *)
Definition checkApiKey (host : KeyHost) : M Machine unit :=
  let fallback : M Machine unit :=
    (* Assume API_KEY is present from process.env for development *)
    let* key := settle (envApiKey host) in
    setHasApiKey (match key with
                  | Some k => truthy k
                  | None => false
                  end) in
  tryCatch
    (match aistudio host with
     | Some studio =>
         match hasSelectedApiKey studio with
         | Some answer =>
             let* keySelected := settle answer in
             setHasApiKey keySelected
         | None => fallback
         end
     | None => fallback
     end)
    (fun e =>
       let* _ := inWorld
                   (consoleError (js "Error checking API key availability:") e) in
       setHasApiKey false).

(** The component's machine together with what [console.warn] printed. *)
Record Page : Type := mkPage {
  machine : Machine;
  warnings : list jsstring
}.

Definition inMachine {A : Type} (m : M Machine A) : M Page A :=
  zoom machine (fun mc p => mkPage mc (warnings p)) m.

(** [console.warn(message)] *)
Definition consoleWarn (message : jsstring) : M Page unit :=
  modify (fun p => mkPage (machine p) (warnings p ++ [message])).

(** [selectApiKey] *)
Definition selectApiKey (host : KeyHost) : M Page unit :=
  let unavailable : M Page unit :=
    let* _ := consoleWarn
                (js "window.aistudio.openSelectKey is not available.") in
    inMachine
      (setError
         (Some (js "API Key selection is not available in this environment. Please ensure process.env.API_KEY is set."))) in
  tryCatch
    (match aistudio host with
     | Some studio =>
         match openSelectKey studio with
         | Some outcome =>
             let* _ := settle outcome in
             (* Assuming key selection was successful to avoid race condition *)
             inMachine (setHasApiKey true)
         | None => unavailable
         end
     | None => unavailable
     end)
    (fun e =>
       let* _ := inMachine
                   (inWorld
                      (consoleError (js "Error opening API key selection:") e)) in
       inMachine
         (setError
            (Some (js "Failed to open API key selection. Please try again.")))).

(** What the user can do to the component once it is mounted: submit the
    form ([onSubmit={handleGenerateKeywords}]), press a card's save button
    ([onSave={handleSaveKeyword}]), press Clear All, or change one of the
    three filter selects. *)
Inductive AppEvent : Type :=
| GenerateSubmitted (seedKeyword : jsstring) (numKeywords : Z)
| SaveClicked (keywordToSave : KeywordData)
| ClearAllClicked
| DifficultySelected (value : OrAll DifficultyLevel)
| VolumeSelected (value : OrAll SearchVolumeRange)
| CompetitionSelected (value : OrAll CompetitionLevel).

Definition handleEvent (ev : AppEvent) : M Machine unit :=
  match ev with
  | GenerateSubmitted seedKeyword numKeywords =>
      handleGenerateKeywords seedKeyword numKeywords
  | SaveClicked keywordToSave => handleSaveKeyword keywordToSave
  | ClearAllClicked => handleClearAllSavedKeywords
  | DifficultySelected value => setSelectedDifficultyFilter value
  | VolumeSelected value => setSelectedVolumeFilter value
  | CompetitionSelected value => setSelectedCompetitionFilter value
  end.

(** The machine after a sequence of events, each handled to completion. *)
Definition runEvents (events : list AppEvent) (m : Machine) : Machine :=
  foldl (fun s ev => stateAfter (handleEvent ev) s) m events.

(** The internal failure of one client call, decided by how the service
    call ends: [None] when the reply, trimmed, parses as an array. *)
Definition replyFault (w : World) (outcome : ServiceOutcome) : option Thrown :=
  match outcome with
  | Rejects e => Some e
  | Responds None => Some (ErrorObject (engineMessage w TextIsUndefined))
  | Responds (Some text) =>
      match JSON_parse (trim text) with
      | None => Some (ErrorObject (engineMessage w (InvalidJson (trim text))))
      | Some (JArr _) => None
      | Some other =>
          Some (ErrorObject (engineMessage w (MapIsNotAFunction other)))
      end
  end.

(** The message the client throws for an internal failure. *)
Definition clientMessage (fault : Thrown) : jsstring :=
  if matchesSignature fault
  then js "API Key issue or model not found. Please ensure a valid API key is selected."
  else js "Failed to fetch keyword data. Please try again.".

(** The store holds the text of the saved collection, or holds nothing
    while the collection is empty. *)
Definition storeMirrorsSaved (m : Machine) : Prop :=
  match localStorage (world m) !! LOCAL_STORAGE_KEY with
  | Some text =>
      text = stringify (toJsonArray (savedKeywords (component m)))
  | None => savedKeywords (component m) = []
  end.

(** ToBoolean of the error slot: [null] and the empty string are falsy. *)
Definition errorShown (st : AppState) : bool :=
  match error st with
  | Some message => truthy message
  | None => false
  end.

(** The conditional blocks of the [App] component's JSX, each with the
    condition under which it is rendered. *)
Record Panels : Type := mkPanels {
  errorBanner : bool;
  loadingSpinner : bool;
  generatedSection : bool;
  startHint : bool;
  savedSection : bool;
  savedCards : bool;
  noMatchMessage : bool;
  nothingSavedHint : bool
}.

Definition renderPanels (st : AppState) : Panels :=
  let noKeywords := bool_decide (length (keywords st) = 0%nat) in
  let noSaved := bool_decide (length (savedKeywords st) = 0%nat) in
  let someFiltered := negb (bool_decide (length (filteredSavedKeywords st) = 0%nat)) in
  mkPanels
    (errorShown st)
    (isLoading st)
    (negb noKeywords)
    (negb (isLoading st) && noKeywords && noSaved && negb (errorShown st))
    (negb noSaved)
    (negb noSaved && someFiltered)
    (negb noSaved && negb someFiltered)
    (negb (isLoading st) && negb noKeywords && noSaved && negb (errorShown st)).

(** The condition under which the page offers the control behind an
    event.  The form is rendered only with a key, and its inputs and its
    button are disabled while loading; a card's save button is disabled
    when the card is shown as saved ([isSaved={isKeywordSaved(kw)}] in the
    generated section, [isSaved={true}] in the saved section, whose
    records are all saved); the three selects and Clear All are inside
    the saved section, rendered when [savedKeywords.length > 0].  Which
    records have a card is not part of the condition. *)
Definition offered (st : AppState) (ev : AppEvent) : bool :=
  match ev with
  | GenerateSubmitted _ _ => hasApiKey st && negb (isLoading st)
  | SaveClicked keywordToSave => negb (isKeywordSaved st keywordToSave)
  | ClearAllClicked | DifficultySelected _ | VolumeSelected _
  | CompetitionSelected _ =>
      negb (bool_decide (length (savedKeywords st) = 0%nat))
  end.

(** Every event of the sequence is offered in the state it is handled
    in. *)
Fixpoint allOffered (events : list AppEvent) (m : Machine) : bool :=
  match events with
  | [] => true
  | ev :: rest =>
      offered (component m) ev
      && allOffered rest (stateAfter (handleEvent ev) m)
  end.

(** A submit of the form inside the page: [KeywordInput]'s
    [handleSubmit] validates, and its [onSubmit] is the component's
    [handleGenerateKeywords]. *)
Definition submitForm (input : KeywordInput.InputState) (m : Machine)
    : KeywordInput.InputState * Machine :=
  match KeywordInput.handleSubmit input with
  | (input', Some (seedKeyword, numKeywords)) =>
      (input', stateAfter (handleGenerateKeywords seedKeyword numKeywords) m)
  | (input', None) => (input', m)
  end.

End Session.

(** ** components/KeywordCard.tsx: the badge colours *)

Module KeywordCard.

(** [getDifficultyColor]: a [switch] on the string. *)
Definition getDifficultyColor (difficulty : jsstring) : jsstring :=
  if bool_decide (difficulty = js "Low") then js "bg-green-100 text-green-800"
  else if bool_decide (difficulty = js "Medium") then
    js "bg-yellow-100 text-yellow-800"
  else if bool_decide (difficulty = js "High") then
    js "bg-orange-100 text-orange-800"
  else if bool_decide (difficulty = js "Very High") then
    js "bg-red-100 text-red-800"
  else js "bg-gray-100 text-gray-800".

(** [getCompetitionColor] *)
Definition getCompetitionColor (competition : jsstring) : jsstring :=
  if bool_decide (competition = js "Low") then js "bg-teal-100 text-teal-800"
  else if bool_decide (competition = js "Medium") then
    js "bg-amber-100 text-amber-800"
  else if bool_decide (competition = js "High") then
    js "bg-rose-100 text-rose-800"
  else if bool_decide (competition = js "Very High") then
    js "bg-purple-100 text-purple-800"
  else js "bg-gray-100 text-gray-800".

(** [getVolumeColor]: a chain of [if] statements. *)
Definition getVolumeColor (volume : jsstring) : jsstring :=
  if bool_decide (volume = js "100K+") || bool_decide (volume = js "10K-100K")
  then js "bg-indigo-100 text-indigo-800"
  else if bool_decide (volume = js "1K-10K") then
    js "bg-blue-100 text-blue-800"
  else if bool_decide (volume = js "100-1K") then js "bg-sky-100 text-sky-800"
  else js "bg-gray-100 text-gray-800".

End KeywordCard.

(** * Facts about the host functions *)

Section JsonFacts.

(** The parser meets the character [c], which is no white space, where it
    tests for [c]. *)
Ltac meet c :=
  cbn [skipWs app]; change (isJsonWs c) with false; cbv iota;
  change (c =? c) with true; cbv iota.

Lemma hexValue_hexDigit (n : N) : n < 16 -> hexValue (hexDigit n) = Some n.
Proof.
  intros Hn. unfold hexValue, hexDigit, isDigit.
  destruct (N.ltb_spec n 10).
  - replace (48 <=? 48 + n) with true by (symmetry; apply N.leb_le; lia).
    replace (48 + n <=? 57) with true by (symmetry; apply N.leb_le; lia).
    simpl. f_equal. lia.
  - replace (87 + n <=? 57) with false by (symmetry; apply N.leb_gt; lia).
    rewrite andb_false_r.
    replace (97 <=? 87 + n) with true by (symmetry; apply N.leb_le; lia).
    replace (87 + n <=? 102) with true by (symmetry; apply N.leb_le; lia).
    simpl. f_equal. lia.
Qed.

Lemma hex_recompose (c : N) :
  c < 65536 ->
  ((c / 4096 mod 16 * 16 + c / 256 mod 16) * 16 + c / 16 mod 16) * 16
  + c mod 16 = c.
Proof.
  intros Hc. zify. Z.to_euclidean_division_equations. lia.
Qed.

Lemma parseStringBody_unicodeEscape (c : N) (t : jsstring) :
  c < 65536 ->
  parseStringBody (unicodeEscape c ++ t) = consChar c (parseStringBody t).
Proof.
  intros Hc. unfold unicodeEscape. cbn [app parseStringBody].
  change (92 =? 34) with false. change (92 =? 92) with true.
  change (117 =? 117) with true. cbv iota.
  rewrite !hexValue_hexDigit by (apply N.mod_lt; lia).
  by rewrite hex_recompose.
Qed.

Lemma parseStringBody_plain (c : N) (t : jsstring) :
  c <> 34 -> c <> 92 -> 32 <= c ->
  parseStringBody (c :: t) = consChar c (parseStringBody t).
Proof.
  intros H34 H92 H32. cbn [parseStringBody].
  rewrite (proj2 (N.eqb_neq c 34) H34), (proj2 (N.eqb_neq c 92) H92).
  by rewrite (proj2 (N.ltb_ge c 32) H32).
Qed.

(** Reading back a quoted string gives the string and stops after the
    closing quote. *)
Lemma parseStringBody_quoteChars (s rest : jsstring) :
  parseStringBody (quoteChars s ++ 34 :: rest) = Some (s, rest).
Proof.
  remember (length s) as n eqn:Hn. revert s Hn.
  induction n as [n IH] using lt_wf_ind. intros s Hn.
  destruct s as [|c t]; [reflexivity|].
  assert (IHt : parseStringBody (quoteChars t ++ 34 :: rest) = Some (t, rest)).
  { apply (IH (length t)); [subst n; simpl; lia | reflexivity]. }
  cbn [quoteChars].
  destruct (N.eqb_spec c 8) as [->|?]; [cbn; by rewrite IHt|].
  destruct (N.eqb_spec c 9) as [->|?]; [cbn; by rewrite IHt|].
  destruct (N.eqb_spec c 10) as [->|?]; [cbn; by rewrite IHt|].
  destruct (N.eqb_spec c 12) as [->|?]; [cbn; by rewrite IHt|].
  destruct (N.eqb_spec c 13) as [->|?]; [cbn; by rewrite IHt|].
  destruct (N.eqb_spec c 34) as [->|?]; [cbn; by rewrite IHt|].
  destruct (N.eqb_spec c 92) as [->|?]; [cbn; by rewrite IHt|].
  destruct (N.ltb_spec c 32).
  { rewrite <- app_assoc, parseStringBody_unicodeEscape, IHt by lia. done. }
  unfold isHighSurrogate, isLowSurrogate.
  destruct (N.leb_spec 55296 c); destruct (N.leb_spec c 56319); cbn [andb].
  - destruct t as [|d t'].
    + cbn [app]. rewrite <- (app_nil_r (unicodeEscape c)), <- app_assoc.
      rewrite parseStringBody_unicodeEscape by lia. done.
    + destruct (N.leb_spec 56320 d); destruct (N.leb_spec d 57343); cbn [andb].
      * cbn [app]. rewrite (parseStringBody_plain c) by lia.
        rewrite (parseStringBody_plain d) by lia.
        rewrite (IH (length t')); [done | subst n; simpl; lia | done].
      * rewrite <- app_assoc, parseStringBody_unicodeEscape, IHt by lia. done.
      * rewrite <- app_assoc, parseStringBody_unicodeEscape, IHt by lia. done.
      * rewrite <- app_assoc, parseStringBody_unicodeEscape, IHt by lia. done.
  - destruct (N.leb_spec 56320 c); destruct (N.leb_spec c 57343); cbn [andb];
      try lia.
    + rewrite <- app_assoc, parseStringBody_unicodeEscape, IHt by lia. done.
    + cbn [app]. rewrite parseStringBody_plain, IHt by lia. done.
  - rewrite (proj2 (N.leb_gt 56320 c)) by lia. cbn [andb app].
    rewrite parseStringBody_plain, IHt by lia. done.
  - lia.
Qed.

Lemma parseElements_S (f : nat) (s : jsstring) :
  parseElements (S f) s =
  match parseValue f s with
  | Some (v, r) =>
      match skipWs r with
      | [] => None
      | c :: r' =>
          if c =? 44 then
            match parseElements f r' with
            | Some (vs, r'') => Some (v :: vs, r'')
            | None => None
            end
          else if c =? 93 then Some ([v], r')
          else None
      end
  | None => None
  end.
Proof. reflexivity. Qed.

Lemma parseMembers_S (f : nat) (acc : list (jsstring * Json)) (s : jsstring) :
  parseMembers (S f) acc s =
  match skipWs s with
  | [] => None
  | q :: t =>
      if q =? 34 then
        match parseStringBody t with
        | Some (k, r) =>
            match skipWs r with
            | [] => None
            | c :: r1 =>
                if c =? 58 then
                  match parseValue f r1 with
                  | Some (v, r2) =>
                      match skipWs r2 with
                      | [] => None
                      | d :: r3 =>
                          if d =? 44 then
                            parseMembers f (defineProperty k v acc) r3
                          else if d =? 125 then
                            Some (JObj (defineProperty k v acc), r3)
                          else None
                      end
                  | None => None
                  end
                else None
            end
        | None => None
        end
      else None
  end.
Proof. reflexivity. Qed.

Lemma stringify_head (v : Json) :
  storable v = true ->
  exists c t, stringify v = c :: t /\ startsValue c = true.
Proof.
  destruct v as [|[]| | | |]; simpl; intros Hs; try discriminate;
    eexists _, _; (split; [reflexivity|reflexivity]).
Qed.

Lemma startsValue_skipWs (c : N) (t : jsstring) :
  startsValue c = true -> skipWs (c :: t) = c :: t.
Proof.
  unfold startsValue. intros H. cbn [skipWs].
  replace (isJsonWs c) with false; [done|].
  unfold isJsonWs.
  repeat match type of H with
         | _ || _ = true => apply orb_true_iff in H as [H|H]
         end; apply N.eqb_eq in H; subst c; reflexivity.
Qed.

Lemma startsValue_eqb (c d : N) :
  startsValue c = true -> startsValue d = false -> (c =? d) = false.
Proof.
  intros Hc Hd. apply N.eqb_neq. intros ->. congruence.
Qed.

Lemma parseElements_items (items : list Json) :
  Forall readsBack items ->
  forallb storable items = true ->
  items <> [] ->
  forall (fuel : nat) (rest : jsstring),
    (foldr (fun x n => S (need x + n)) O items <= fuel)%nat ->
    parseElements fuel (commaSeparated (map stringify items) ++ 93 :: rest)
    = Some (items, rest).
Proof.
  induction 1 as [|x items Hx Hitems IH]; [done|].
  intros Hst _ fuel rest Hfuel.
  cbn [forallb] in Hst. apply andb_true_iff in Hst as [Hsx Hsi].
  cbn [foldr] in Hfuel.
  destruct fuel as [|f]; [lia|]. rewrite parseElements_S.
  destruct items as [|y items].
  - cbn [map commaSeparated].
    rewrite (Hx Hsx f (93 :: rest)) by lia. reflexivity.
  - change (commaSeparated (map stringify (x :: y :: items)))
      with (stringify x ++ 44 :: commaSeparated (map stringify (y :: items))).
    rewrite <- app_assoc. cbn [app].
    rewrite (Hx Hsx f) by lia.
    meet 44. rewrite IH; [done|done|done|lia].
Qed.

Lemma defineProperty_appendable (k : jsstring) (v : Json)
    (acc : list (jsstring * Json)) :
  appendable k (map fst acc) = true ->
  defineProperty k v acc = acc ++ [(k, v)].
Proof.
  induction acc as [|[k' v'] acc IH]; [done|].
  cbn [map fst appendable forallb defineProperty].
  intros H. apply andb_true_iff in H as [H1 H2].
  apply andb_true_iff in H1 as [Hne Hord].
  apply negb_true_iff in Hne, Hord. rewrite Hne, Hord.
  cbn [app]. f_equal. by apply IH.
Qed.

Lemma parseMembers_props (props : list (jsstring * Json)) :
  Forall (fun p => readsBack p.2) props ->
  forallb (fun p => match p with (_, x) => storable x end) props = true ->
  props <> [] ->
  forall (fuel : nat) (acc : list (jsstring * Json)) (rest : jsstring),
    canonicalKeys (map fst acc) (map fst props) = true ->
    (foldr (fun p n => match p with (_, x) => S (need x + n) end) O props
     <= fuel)%nat ->
    parseMembers fuel acc
      (commaSeparated
         (map (fun p => match p with
                        | (k, x) => quote k ++ 58 :: stringify x
                        end) props) ++ 125 :: rest)
    = Some (JObj (acc ++ props), rest).
Proof.
  induction 1 as [|[k x] props Hx Hprops IH]; [done|].
  intros Hst _ fuel acc rest Hcan Hfuel.
  cbn [forallb] in Hst. apply andb_true_iff in Hst as [Hsx Hsp].
  cbn [map fst canonicalKeys] in Hcan.
  apply andb_true_iff in Hcan as [Hk Hcan].
  cbn [foldr] in Hfuel. cbn [snd] in Hx.
  destruct fuel as [|f]; [lia|]. rewrite parseMembers_S.
  assert (Hmember : forall tail : jsstring,
    (quote k ++ 58 :: stringify x) ++ tail
    = 34 :: (quoteChars k ++ 34 :: 58 :: (stringify x ++ tail))).
  { intros tail. unfold quote. cbn [app].
    by rewrite <- !app_assoc. }
  destruct props as [|q props].
  - cbn [map commaSeparated]. rewrite Hmember.
    meet 34. rewrite parseStringBody_quoteChars.
    meet 58. rewrite (Hx Hsx f) by lia.
    change (125 =? 44) with false. meet 125.
    by rewrite defineProperty_appendable.
  - set (member := fun p : jsstring * Json =>
                     match p with (k0, x0) => quote k0 ++ 58 :: stringify x0 end)
      in *.
    change (commaSeparated (map member ((k, x) :: q :: props)))
      with (member (k, x) ++ 44 :: commaSeparated (map member (q :: props))).
    rewrite <- app_assoc. unfold member at 1. rewrite Hmember.
    meet 34. rewrite parseStringBody_quoteChars.
    meet 58. rewrite (Hx Hsx f) by lia.
    meet 44. rewrite defineProperty_appendable by done.
    rewrite IH; [by rewrite <- app_assoc|done|done| |lia].
    by rewrite map_app.
Qed.

Lemma parseValue_S_head (f : nat) (c : N) (t : jsstring) :
  startsValue c = true ->
  parseValue (S f) (c :: t) =
  if c =? 123 then
    match skipWs t with
    | [] => None
    | d :: r => if d =? 125 then Some (JObj [], r) else parseMembers f [] t
    end
  else if c =? 91 then
    match skipWs t with
    | [] => None
    | d :: r =>
        if d =? 93 then Some (JArr [], r)
        else match parseElements f t with
             | Some (items, r') => Some (JArr items, r')
             | None => None
             end
    end
  else if c =? 34 then
    match parseStringBody t with
    | Some (x, r) => Some (JStr x, r)
    | None => None
    end
  else if startsWith (c :: t) (js "true") then
    Some (JBool true, drop 4 (c :: t))
  else if startsWith (c :: t) (js "false") then
    Some (JBool false, drop 5 (c :: t))
  else if startsWith (c :: t) (js "null") then Some (JNull, drop 4 (c :: t))
  else match parseNumber (c :: t) with
       | Some (literal, r) => Some (JNum literal, r)
       | None => None
       end.
Proof.
  intros Hc. cbn [parseValue]. by rewrite (startsValue_skipWs c t Hc).
Qed.

(** Every storable value is read back from its text. *)
Lemma parseValue_stringify (v : Json) : readsBack v.
Proof.
  induction v as [|b|l|s|items IH|props IH] using Json_ind;
    intros Hst fuel rest Hfuel; cbn [need] in Hfuel;
    (destruct fuel as [|f]; [lia|]).
  - vm_compute. reflexivity.
  - destruct b; vm_compute; reflexivity.
  - discriminate.
  - cbn [stringify]. unfold quote. cbn [app].
    rewrite parseValue_S_head by done.
    change (34 =? 123) with false. change (34 =? 91) with false.
    change (34 =? 34) with true. cbv iota.
    rewrite <- app_assoc. cbn [app]. by rewrite parseStringBody_quoteChars.
  - cbn [stringify storable] in *. cbn [app].
    rewrite parseValue_S_head by done.
    change (91 =? 123) with false. change (91 =? 91) with true. cbv iota.
    rewrite <- app_assoc. cbn [app].
    destruct items as [|x items]; [reflexivity|].
    pose proof Hst as Hsx. cbn [forallb] in Hsx.
    apply andb_true_iff in Hsx as [Hsx _].
    destruct (stringify_head x Hsx) as (c & t & Hxt & Hc).
    assert (Hskip : exists tail,
      commaSeparated (map stringify (x :: items)) ++ 93 :: rest = c :: tail).
    { destruct items; cbn [map commaSeparated]; rewrite Hxt; eauto. }
    destruct Hskip as [tail Htail].
    rewrite parseElements_items; [|done|done|done|lia].
    rewrite Htail, startsValue_skipWs by done.
    by rewrite (startsValue_eqb c 93).
  - cbn [stringify storable] in *. cbn [app].
    apply andb_true_iff in Hst as [Hcan Hst].
    rewrite parseValue_S_head by done.
    change (123 =? 123) with true. cbv iota.
    rewrite <- app_assoc. cbn [app].
    destruct props as [|[k x] props]; [reflexivity|].
    rewrite (parseMembers_props ((k, x) :: props) IH Hst) with (acc := []);
      [|done|done|lia].
    cbn [map commaSeparated]. unfold quote at 1.
    destruct props; cbn [app skipWs]; reflexivity.
Qed.

Lemma need_bound_items (items : list Json) :
  Forall (fun x => need x <= 2 * length (stringify x))%nat items ->
  (foldr (fun x n => S (need x + n)) O items
   <= 2 * length (commaSeparated (map stringify items)) + 1)%nat.
Proof.
  induction 1 as [|x items Hx _ IH]; [simpl; lia|].
  cbn [foldr]. destruct items as [|y items].
  - cbn [map commaSeparated foldr]. lia.
  - change (commaSeparated (map stringify (x :: y :: items)))
      with (stringify x ++ 44 :: commaSeparated (map stringify (y :: items))).
    rewrite length_app. cbn [length]. lia.
Qed.

Lemma need_bound_props (props : list (jsstring * Json)) :
  Forall (fun p => need p.2 <= 2 * length (stringify p.2))%nat props ->
  (foldr (fun p n => match p with (_, x) => S (need x + n) end) O props
   <= 2 * length (commaSeparated
                    (map (fun p => match p with
                                   | (k, x) => quote k ++ 58%N :: stringify x
                                   end) props)) + 1)%nat.
Proof.
  induction 1 as [|[k x] props Hx _ IH]; [simpl; lia|].
  cbn [foldr]. cbn [snd] in Hx. destruct props as [|q props].
  - cbn [map commaSeparated foldr]. rewrite length_app. cbn [length]. lia.
  - set (member := fun p : jsstring * Json =>
                     match p with (k0, x0) => quote k0 ++ 58 :: stringify x0 end)
      in *.
    change (commaSeparated (map member ((k, x) :: q :: props)))
      with (member (k, x) ++ 44 :: commaSeparated (map member (q :: props))).
    unfold member at 1. rewrite !length_app. cbn [length]. lia.
Qed.

(** The fuel [JSON_parse] supplies is enough for any text that
    [stringify] produces. *)
Lemma need_bound (v : Json) :
  storable v = true -> (need v <= 2 * length (stringify v))%nat.
Proof.
  induction v as [|b|l|s|items IH|props IH] using Json_ind; intros Hst.
  - simpl. lia.
  - destruct b; simpl; lia.
  - discriminate.
  - cbn [need stringify]. unfold quote. cbn [length]. lia.
  - cbn [need stringify storable] in *. cbn [length].
    rewrite length_app. cbn [length].
    assert (H : Forall (fun x => need x <= 2 * length (stringify x))%nat items).
    { apply Forall_forall. intros x Hx.
      rewrite Forall_forall in IH. apply IH; [done|].
      rewrite forallb_forall in Hst. apply Hst. by apply list_elem_of_In. }
    pose proof (need_bound_items items H). lia.
  - cbn [need stringify storable] in *. cbn [length].
    rewrite length_app. cbn [length].
    apply andb_true_iff in Hst as [_ Hst].
    assert (H : Forall (fun p => need p.2 <= 2 * length (stringify p.2))%nat
                       props).
    { apply Forall_forall. intros [k x] Hx.
      rewrite Forall_forall in IH. apply (IH _ Hx).
      rewrite forallb_forall in Hst.
      apply (Hst (k, x)). by apply list_elem_of_In. }
    pose proof (need_bound_props props H). lia.
Qed.

(** [JSON.parse(JSON.stringify(v))] gives [v] back for storable [v]. *)
Lemma JSON_parse_stringify (v : Json) :
  storable v = true -> JSON_parse (stringify v) = Some v.
Proof.
  intros Hst. unfold JSON_parse.
  rewrite <- (app_nil_r (stringify v)) at 2.
  rewrite (parseValue_stringify v Hst); [done|].
  pose proof (need_bound v Hst). lia.
Qed.

(** *** The fuel never runs out *)

Lemma parseValue_S (f : nat) (s : jsstring) :
  parseValue (S f) s =
  match skipWs s with
  | [] => None
  | c :: t =>
      if c =? 123 then
        match skipWs t with
        | [] => None
        | d :: r => if d =? 125 then Some (JObj [], r) else parseMembers f [] t
        end
      else if c =? 91 then
        match skipWs t with
        | [] => None
        | d :: r =>
            if d =? 93 then Some (JArr [], r)
            else match parseElements f t with
                 | Some (items, r') => Some (JArr items, r')
                 | None => None
                 end
        end
      else if c =? 34 then
        match parseStringBody t with
        | Some (x, r) => Some (JStr x, r)
        | None => None
        end
      else if startsWith (c :: t) (js "true") then
        Some (JBool true, drop 4 (c :: t))
      else if startsWith (c :: t) (js "false") then
        Some (JBool false, drop 5 (c :: t))
      else if startsWith (c :: t) (js "null") then
        Some (JNull, drop 4 (c :: t))
      else match parseNumber (c :: t) with
           | Some (literal, r) => Some (JNum literal, r)
           | None => None
           end
  end.
Proof. reflexivity. Qed.

Lemma skipWs_length (s : jsstring) : (length (skipWs s) <= length s)%nat.
Proof.
  induction s as [|c s IH]; cbn [skipWs length]; [lia|].
  destruct (isJsonWs c); cbn [length]; lia.
Qed.

Lemma skipWs_cons_length (s t : jsstring) (c : N) :
  skipWs s = c :: t -> (S (length t) <= length s)%nat.
Proof.
  intros H. pose proof (skipWs_length s) as Hl. rewrite H in Hl.
  exact Hl.
Qed.

Lemma consChar_shorter (c : N) (res : option (jsstring * jsstring))
    (k r : jsstring) (bound : nat) :
  (forall k' r', res = Some (k', r') -> (length r' < bound)%nat) ->
  consChar c res = Some (k, r) -> (length r < bound)%nat.
Proof.
  intros H. destruct res as [[k' r']|]; [|discriminate].
  intros [= _ <-]. by eapply H.
Qed.

Lemma parseStringBody_shorter (s k r : jsstring) :
  parseStringBody s = Some (k, r) -> (length r < length s)%nat.
Proof.
  remember (length s) as n eqn:Hn. revert s k r Hn.
  induction n as [n IH] using lt_wf_ind. intros s k r Hn.
  destruct s as [|c t]; [discriminate|]. cbn [parseStringBody].
  cbn [length] in Hn.
  destruct (c =? 34); [intros [= _ <-]; lia|].
  destruct (c =? 92).
  - destruct t as [|e t1]; [discriminate|]. cbn [length] in Hn.
    destruct (e =? 117).
    + destruct t1 as [|h1 [|h2 [|h3 [|h4 t2]]]]; try discriminate.
      cbn [length] in Hn.
      destruct (hexValue h1), (hexValue h2), (hexValue h3), (hexValue h4);
        try discriminate.
      apply consChar_shorter. intros k' r' Hrec.
      pose proof (IH (length t2) ltac:(lia) t2 k' r' eq_refl Hrec). lia.
    + destruct (unescape e); [|discriminate].
      apply consChar_shorter. intros k' r' Hrec.
      pose proof (IH (length t1) ltac:(lia) t1 k' r' eq_refl Hrec). lia.
  - destruct (c <? 32); [discriminate|].
    apply consChar_shorter. intros k' r' Hrec.
    pose proof (IH (length t) ltac:(lia) t k' r' eq_refl Hrec). lia.
Qed.

Lemma takeDigits_length (s d r : jsstring) :
  takeDigits s = (d, r) -> (length r <= length s)%nat.
Proof.
  revert d r. induction s as [|c s IH]; intros d r; cbn [takeDigits].
  - intros [= _ <-]. done.
  - destruct (isDigit c).
    + destruct (takeDigits s) as [d' r'] eqn:Ht. intros [= _ <-].
      pose proof (IH d' r' eq_refl). cbn [length]. lia.
    + intros [= _ <-]. done.
Qed.

Lemma parseNumber_shorter (s literal r : jsstring) :
  parseNumber s = Some (literal, r) -> (length r < length s)%nat.
Proof.
  unfold parseNumber.
  set (signed := match s with
                 | c :: t => if c =? 45 then ([c], t) else ([], s)
                 | [] => ([], s)
                 end).
  assert (Hsigned : (length signed.2 <= length s)%nat).
  { subst signed. destruct s as [|c t]; [done|].
    destruct (c =? 45); cbn [snd length]; lia. }
  destruct signed as [sign s1]. cbn [snd] in Hsigned.
  destruct (parseIntPart s1) as [[i s2]|] eqn:Hint; [|discriminate].
  assert (H2 : (length s2 < length s1)%nat).
  { unfold parseIntPart in Hint. destruct s1 as [|c t]; [discriminate|].
    destruct (c =? 48); [injection Hint as _ <-; cbn [length]; lia|].
    destruct (isDigit c); [|discriminate].
    destruct (takeDigits t) as [d r0] eqn:Ht.
    injection Hint as _ <-.
    pose proof (takeDigits_length t d r0 Ht). cbn [length]. lia. }
  destruct (parseFraction s2) as [[f s3]|] eqn:Hfrac; [|discriminate].
  assert (H3 : (length s3 <= length s2)%nat).
  { unfold parseFraction in Hfrac. destruct s2 as [|c t].
    - by injection Hfrac as _ <-.
    - destruct (c =? 46).
      + destruct (takeDigits t) as [[|d0 d] r0] eqn:Ht; [discriminate|].
        injection Hfrac as _ <-.
        pose proof (takeDigits_length t _ r0 Ht). cbn [length]. lia.
      + by injection Hfrac as _ <-. }
  destruct (parseExponent s3) as [[e s4]|] eqn:Hexp; [|discriminate].
  assert (H4 : (length s4 <= length s3)%nat).
  { unfold parseExponent in Hexp. destruct s3 as [|c t].
    - by injection Hexp as _ <-.
    - destruct ((c =? 101) || (c =? 69)).
      + set (signedExp := match t with
                          | x :: t1 =>
                              if (x =? 43) || (x =? 45) then ([x], t1)
                              else ([], t)
                          | [] => ([], t)
                          end) in Hexp.
        assert (Hse : (length signedExp.2 <= length t)%nat).
        { subst signedExp. destruct t as [|x t1]; [done|].
          destruct ((x =? 43) || (x =? 45)); cbn [snd length]; lia. }
        destruct signedExp as [sg t']. cbn [snd] in Hse.
        destruct (takeDigits t') as [[|d0 d] r0] eqn:Ht; [discriminate|].
        injection Hexp as _ <-.
        pose proof (takeDigits_length t' _ r0 Ht). cbn [length]. lia.
      + by injection Hexp as _ <-. }
  intros [= _ <-]. lia.
Qed.

(** Whatever is read, at least one character is consumed. *)
Lemma parse_shorter (fuel : nat) :
  (forall s v r, parseValue fuel s = Some (v, r) ->
     (length r < length s)%nat)
  /\ (forall s vs r, parseElements fuel s = Some (vs, r) ->
        (length r < length s)%nat)
  /\ (forall acc s v r, parseMembers fuel acc s = Some (v, r) ->
        (length r < length s)%nat).
Proof.
  induction fuel as [|f (IHv & IHe & IHm)]; [repeat split; discriminate|].
  split; [|split].
  - intros s v r. rewrite parseValue_S.
    destruct (skipWs s) as [|c t] eqn:Hs; [discriminate|].
    apply skipWs_cons_length in Hs.
    destruct (c =? 123).
    { destruct (skipWs t) as [|d r0] eqn:Ht; [discriminate|].
      apply skipWs_cons_length in Ht.
      destruct (d =? 125); [intros [= _ <-]; lia|].
      intros H. apply IHm in H. lia. }
    destruct (c =? 91).
    { destruct (skipWs t) as [|d r0] eqn:Ht; [discriminate|].
      apply skipWs_cons_length in Ht.
      destruct (d =? 93); [intros [= _ <-]; lia|].
      destruct (parseElements f t) as [[items r']|] eqn:He; [|discriminate].
      intros [= _ <-]. apply IHe in He. lia. }
    destruct (c =? 34).
    { destruct (parseStringBody t) as [[x r0]|] eqn:Hb; [|discriminate].
      intros [= _ <-]. apply parseStringBody_shorter in Hb. lia. }
    destruct (startsWith (c :: t) (js "true")).
    { intros [= _ <-]. rewrite length_drop. lia. }
    destruct (startsWith (c :: t) (js "false")).
    { intros [= _ <-]. rewrite length_drop. lia. }
    destruct (startsWith (c :: t) (js "null")).
    { intros [= _ <-]. rewrite length_drop. lia. }
    destruct (parseNumber (c :: t)) as [[literal r0]|] eqn:Hn; [|discriminate].
    intros [= _ <-]. apply parseNumber_shorter in Hn. cbn [length] in Hn. lia.
  - intros s vs r. rewrite parseElements_S.
    destruct (parseValue f s) as [[v r0]|] eqn:Hv; [|discriminate].
    apply IHv in Hv.
    destruct (skipWs r0) as [|c r'] eqn:Hr; [discriminate|].
    apply skipWs_cons_length in Hr.
    destruct (c =? 44).
    { destruct (parseElements f r') as [[vs' r'']|] eqn:He; [|discriminate].
      intros [= _ <-]. apply IHe in He. lia. }
    destruct (c =? 93); [|discriminate].
    intros [= _ <-]. lia.
  - intros acc s v r. rewrite parseMembers_S.
    destruct (skipWs s) as [|q t] eqn:Hs; [discriminate|].
    apply skipWs_cons_length in Hs.
    destruct (q =? 34); [|discriminate].
    destruct (parseStringBody t) as [[k r0]|] eqn:Hb; [|discriminate].
    apply parseStringBody_shorter in Hb.
    destruct (skipWs r0) as [|c r1] eqn:Hr0; [discriminate|].
    apply skipWs_cons_length in Hr0.
    destruct (c =? 58); [|discriminate].
    destruct (parseValue f r1) as [[x r2]|] eqn:Hv; [|discriminate].
    apply IHv in Hv.
    destruct (skipWs r2) as [|d r3] eqn:Hr2; [discriminate|].
    apply skipWs_cons_length in Hr2.
    destruct (d =? 44); [intros H; apply IHm in H; lia|].
    destruct (d =? 125); [|discriminate].
    intros [= _ <-]. lia.
Qed.

(** One more unit of fuel changes nothing once the fuel is twice the
    length of the text. *)
Lemma parse_fuel_step (fuel : nat) :
  (forall s, (2 * length s + 2 <= fuel)%nat ->
     parseValue (S fuel) s = parseValue fuel s)
  /\ (forall s, (2 * length s + 3 <= fuel)%nat ->
        parseElements (S fuel) s = parseElements fuel s)
  /\ (forall acc s, (2 * length s + 3 <= fuel)%nat ->
        parseMembers (S fuel) acc s = parseMembers fuel acc s).
Proof.
  induction fuel as [|f (IHv & IHe & IHm)]; [repeat split; intros; lia|].
  destruct (parse_shorter f) as (Shv & She & Shm).
  split; [|split].
  - intros s Hf. rewrite (parseValue_S (S f)), (parseValue_S f).
    destruct (skipWs s) as [|c t] eqn:Hs; [done|].
    apply skipWs_cons_length in Hs.
    rewrite (IHm [] t) by lia. rewrite (IHe t) by lia. reflexivity.
  - intros s Hf. rewrite (parseElements_S (S f)), (parseElements_S f).
    rewrite (IHv s) by lia.
    destruct (parseValue f s) as [[v r0]|] eqn:Hv; [|done].
    apply Shv in Hv.
    destruct (skipWs r0) as [|c r'] eqn:Hr; [done|].
    apply skipWs_cons_length in Hr.
    rewrite (IHe r') by lia. reflexivity.
  - intros acc s Hf. rewrite (parseMembers_S (S f)), (parseMembers_S f).
    destruct (skipWs s) as [|q t] eqn:Hs; [done|].
    apply skipWs_cons_length in Hs.
    destruct (q =? 34); [|done].
    destruct (parseStringBody t) as [[k r0]|] eqn:Hb; [|done].
    apply parseStringBody_shorter in Hb.
    destruct (skipWs r0) as [|c r1] eqn:Hr0; [done|].
    apply skipWs_cons_length in Hr0.
    destruct (c =? 58); [|done].
    rewrite (IHv r1) by lia.
    destruct (parseValue f r1) as [[x r2]|] eqn:Hv; [|done].
    apply Shv in Hv.
    destruct (skipWs r2) as [|d r3] eqn:Hr2; [done|].
    apply skipWs_cons_length in Hr2.
    rewrite (IHm (defineProperty k x acc) r3) by lia. reflexivity.
Qed.

(** [JSON_parse] gives to [parseValue] all the fuel it can use: with any
    larger amount the result is the same, so a [None] of [JSON_parse] is
    a syntax error and never a shortage of fuel. *)
Lemma JSON_parse_fuel_enough (text : jsstring) (fuel : nat) :
  (2 * length text + 2 <= fuel)%nat ->
  parseValue fuel text = parseValue (2 * length text + 2) text.
Proof.
  intros Hf. induction Hf as [|f Hle IH]; [reflexivity|].
  rewrite <- IH. by apply (parse_fuel_step f).
Qed.

End JsonFacts.

(** * The count input of the form *)

Section CountInput.
Import KeywordInput.






End CountInput.

(** * The saved collection *)

Section SavedKeywords.
Import App.

Lemma saveKeywordsToLocalStorage_normal (l : list KeywordData) (w : World) :
  completionOf (saveKeywordsToLocalStorage l) w = Normal tt.
Proof.
  unfold completionOf, saveKeywordsToLocalStorage, tryCatch, setItem.
  destruct (storageAccepts w _ _); reflexivity.
Qed.

(** A record whose id is already saved: nothing changes, the store is not
    written. *)
Lemma handleSaveKeyword_known (r : KeywordData) (m : Machine) :
  existsb (fun kw => bool_decide (id kw = id r)) (savedKeywords (component m)) = true ->
  handleSaveKeyword r m = (Normal tt, m).
Proof.
  intros Hdup. unfold handleSaveKeyword, bind, gets. rewrite Hdup.
  by destruct m as [[] w].
Qed.

(** A record whose id is new: it is appended, and the longer collection is
    handed to the store. *)
Lemma handleSaveKeyword_new (r : KeywordData) (m : Machine) :
  existsb (fun kw => bool_decide (id kw = id r)) (savedKeywords (component m)) = false ->
  handleSaveKeyword r m =
  (Normal tt,
   mkMachine
     (mkAppState (keywords (component m)) (savedKeywords (component m) ++ [r])
        (isLoading (component m)) (error (component m)) (hasApiKey (component m))
        (selectedDifficultyFilter (component m)) (selectedVolumeFilter (component m))
        (selectedCompetitionFilter (component m)))
     (stateAfter (saveKeywordsToLocalStorage (savedKeywords (component m) ++ [r]))
                 (world m))).
Proof.
  intros Hnew. unfold handleSaveKeyword, bind, gets. rewrite Hnew.
  unfold inWorld, zoom, stateAfter.
  pose proof (saveKeywordsToLocalStorage_normal
                (savedKeywords (component m) ++ [r]) (world m)) as Hn.
  unfold completionOf in Hn.
  destruct (saveKeywordsToLocalStorage _ (world m)) as [c w'].
  cbn [fst snd] in *. subst c. reflexivity.
Qed.

Lemma existsb_id_elem (r : KeywordData) (l : list KeywordData) :
  existsb (fun kw => bool_decide (id kw = id r)) l = true
  <-> exists kw, kw ∈ l /\ id kw = id r.
Proof.
  rewrite existsb_exists. split.
  - intros (kw & Hin & Hid). exists kw. split; [by apply list_elem_of_In|].
    by apply bool_decide_eq_true in Hid.
  - intros (kw & Hin & Hid). exists kw. split; [by apply list_elem_of_In|].
    by apply bool_decide_eq_true.
Qed.

Lemma handleSaveKeyword_then_known (r : KeywordData) (m : Machine) :
  existsb (fun kw => bool_decide (id kw = id r))
          (savedKeywords (component (stateAfter (handleSaveKeyword r) m))) = true.
Proof.
  unfold stateAfter.
  destruct (existsb (fun kw => bool_decide (id kw = id r))
                    (savedKeywords (component m))) eqn:Hdup.
  - by rewrite handleSaveKeyword_known.
  - rewrite handleSaveKeyword_new by done. cbn [snd component savedKeywords].
    rewrite existsb_app. cbn [existsb].
    rewrite bool_decide_eq_true_2 by done. by rewrite orb_true_r.
Qed.

(** C3: saving is idempotent on the id.  Saving a record a second time
    changes nothing at all (the component's state and the store included),
    so the saved collection is no larger than after the first save; a save
    of a record whose id is already saved leaves everything unchanged; and
    from an empty saved collection, save A, save A, save B with distinct
    ids yields exactly [A; B]. *)
Theorem C3_saveRecord_idempotent :
  (forall r m,
     stateAfter (handleSaveKeyword r) (stateAfter (handleSaveKeyword r) m)
     = stateAfter (handleSaveKeyword r) m)
  /\ (forall r m,
        (length (savedKeywords (component
           (stateAfter (handleSaveKeyword r)
              (stateAfter (handleSaveKeyword r) m))))
         <= length (savedKeywords (component (stateAfter (handleSaveKeyword r) m))))%nat)
  /\ (forall r m,
        (exists kw, kw ∈ savedKeywords (component m) /\ id kw = id r) ->
        stateAfter (handleSaveKeyword r) m = m)
  /\ (forall A B m,
        savedKeywords (component m) = [] -> id A <> id B ->
        savedKeywords (component
          (stateAfter (handleSaveKeyword B)
             (stateAfter (handleSaveKeyword A)
                (stateAfter (handleSaveKeyword A) m))))
        = [A; B]).
Proof.
  assert (Hidem : forall r m,
     stateAfter (handleSaveKeyword r) (stateAfter (handleSaveKeyword r) m)
     = stateAfter (handleSaveKeyword r) m).
  { intros r m. unfold stateAfter at 1.
    rewrite handleSaveKeyword_known; [done|].
    apply handleSaveKeyword_then_known. }
  split; [exact Hidem|].
  split; [intros r m; by rewrite Hidem|].
  split.
  { intros r m Hex. unfold stateAfter.
    rewrite handleSaveKeyword_known; [done|]. by apply existsb_id_elem. }
  intros A B m Hempty Hne. rewrite Hidem.
  unfold stateAfter at 2. rewrite (handleSaveKeyword_new A m).
  2:{ by rewrite Hempty. }
  unfold stateAfter at 1. rewrite handleSaveKeyword_new.
  - cbn [snd component savedKeywords]. by rewrite Hempty.
  - cbn [snd component savedKeywords]. rewrite Hempty. cbn [Datatypes.app existsb].
    rewrite bool_decide_eq_false_2; [done|]. done.
Qed.

Lemma handleClearAllSavedKeywords_run (m : Machine) :
  handleClearAllSavedKeywords m =
  (Normal tt,
   mkMachine
     (mkAppState (keywords (component m)) [] (isLoading (component m))
        (error (component m)) (hasApiKey (component m)) All All All)
     (stateAfter (saveKeywordsToLocalStorage []) (world m))).
Proof.
  unfold handleClearAllSavedKeywords, bind, inWorld, zoom, stateAfter.
  cbn [setSavedKeywords setApp modify component world].
  pose proof (saveKeywordsToLocalStorage_normal [] (world m)) as Hn.
  unfold completionOf in Hn.
  destruct (saveKeywordsToLocalStorage [] (world m)) as [c w'].
  cbn [fst snd] in *. subst c. reflexivity.
Qed.

Lemma saveKeywordsToLocalStorage_accepted (l : list KeywordData) (w : World) :
  storageAccepts w LOCAL_STORAGE_KEY (stringify (toJsonArray l)) = true ->
  stateAfter (saveKeywordsToLocalStorage l) w =
  mkWorld (<[LOCAL_STORAGE_KEY := stringify (toJsonArray l)]> (localStorage w))
          (storageAccepts w) (console w) (uuids w) (uuidsDrawn w) (service w)
          (serviceCalls w) (engineMessage w).
Proof.
  intros Hacc.
  unfold stateAfter, saveKeywordsToLocalStorage, tryCatch, setItem.
  by rewrite Hacc.
Qed.

Lemma saveKeywordsToLocalStorage_refused (l : list KeywordData) (w : World) :
  storageAccepts w LOCAL_STORAGE_KEY (stringify (toJsonArray l)) = false ->
  stateAfter (saveKeywordsToLocalStorage l) w =
  mkWorld (localStorage w) (storageAccepts w)
          (console w ++
           [(js "Failed to save keywords to local storage:",
             ErrorObject
               (engineMessage w
                  (WriteRefused LOCAL_STORAGE_KEY
                     (stringify (toJsonArray l)))))])
          (uuids w) (uuidsDrawn w) (service w) (serviceCalls w)
          (engineMessage w).
Proof.
  intros Hacc.
  unfold stateAfter, saveKeywordsToLocalStorage, tryCatch, setItem.
  by rewrite Hacc.
Qed.

Lemma loadSavedKeywords_parsed (w : World) (text : jsstring) (v : Json) :
  localStorage w !! LOCAL_STORAGE_KEY = Some text ->
  JSON_parse text = Some v ->
  loadSavedKeywords w = (Normal (Some v), w).
Proof.
  intros Hget Hparse.
  unfold loadSavedKeywords, tryCatch, bind, getItem, gets. rewrite Hget.
  destruct text as [|c text]; [discriminate|].
  cbn [truthy]. unfold parseJson. by rewrite Hparse.
Qed.

(** C4: whatever the saved collection and the filter selection were,
    clearing empties the saved collection, hands the empty collection to
    the store (which then holds the text of the empty array, from which a
    later load gives the empty collection), and sets the three filters to
    'All'; the filtered view is then empty.  The other state variables are
    left as they were. *)
Theorem C4_clearSaved_empties_and_resets (m : Machine) :
  let m' := stateAfter handleClearAllSavedKeywords m in
  completionOf handleClearAllSavedKeywords m = Normal tt
  /\ savedKeywords (component m') = []
  /\ world m' = stateAfter (saveKeywordsToLocalStorage []) (world m)
  /\ stringify (toJsonArray []) = js "[]"
  /\ (storageAccepts (world m) LOCAL_STORAGE_KEY (js "[]") = true ->
      localStorage (world m') !! LOCAL_STORAGE_KEY = Some (js "[]")
      /\ completionOf loadSavedKeywords (world m') = Normal (Some (JArr [])))
  /\ selectedDifficultyFilter (component m') = All
  /\ selectedVolumeFilter (component m') = All
  /\ selectedCompetitionFilter (component m') = All
  /\ filteredSavedKeywords (component m') = []
  /\ keywords (component m') = keywords (component m)
  /\ isLoading (component m') = isLoading (component m)
  /\ error (component m') = error (component m)
  /\ hasApiKey (component m') = hasApiKey (component m).
Proof.
  intros m'.
  assert (Hm' : m' =
    mkMachine
      (mkAppState (keywords (component m)) [] (isLoading (component m))
         (error (component m)) (hasApiKey (component m)) All All All)
      (stateAfter (saveKeywordsToLocalStorage []) (world m))).
  { subst m'. unfold stateAfter at 1.
    by rewrite handleClearAllSavedKeywords_run. }
  clearbody m'. subst m'. unfold completionOf at 1.
  rewrite handleClearAllSavedKeywords_run. cbn [fst snd component world].
  split; [reflexivity|]. split; [reflexivity|]. split; [reflexivity|].
  split; [reflexivity|].
  split; [|repeat split; reflexivity].
  intros Hacc.
  rewrite (saveKeywordsToLocalStorage_accepted [] (world m) Hacc).
  split.
  - cbn [localStorage]. apply lookup_insert_eq.
  - unfold completionOf.
    erewrite loadSavedKeywords_parsed; [reflexivity| |].
    + cbn [localStorage]. apply lookup_insert_eq.
    + vm_compute. reflexivity.
Qed.

Lemma matchesFilter_axisAdmits {T : Type} `{EqDecision T}
    (selected : OrAll T) (field : T) :
  matchesFilter selected field = true <-> axisAdmits selected field.
Proof.
  unfold matchesFilter, axisAdmits. destruct selected as [|value].
  - split; [by left | done].
  - rewrite bool_decide_eq_true. split.
    + intros ->. by right.
    + intros [|[= ->]]; done.
Qed.

Lemma filter_sublist {A : Type} (p : A -> bool) (l : list A) :
  sublist (List.filter p l) l.
Proof.
  induction l as [|x l IH]; cbn [List.filter]; [constructor|].
  destruct (p x); by constructor.
Qed.

Lemma filter_greatest {A : Type} (p : A -> bool) (l k : list A) :
  sublist k l -> Forall (fun x => p x = true) k -> sublist k (List.filter p l).
Proof.
  induction 1 as [|x k l _ IH|x k l _ IH]; intros Hall; cbn [List.filter].
  - constructor.
  - apply Forall_cons in Hall as [Hx Hall]. rewrite Hx.
    constructor. by apply IH.
  - destruct (p x); [constructor|]; by apply IH.
Qed.

(** C5: the filtered view is a function of the saved collection and the
    three selections only.  It holds exactly the saved records that the
    filter admits on all three axes (each axis: 'All', or equal to the
    selected value), in the order of the saved collection: it is a
    subsequence of it, and every subsequence whose records are all
    admitted is a subsequence of the view.  With the three selections at
    'All' it is the saved collection itself. *)
Theorem C5_visibleSaved_is_filtered_view :
  (forall st st',
     savedKeywords st = savedKeywords st' ->
     selectedDifficultyFilter st = selectedDifficultyFilter st' ->
     selectedVolumeFilter st = selectedVolumeFilter st' ->
     selectedCompetitionFilter st = selectedCompetitionFilter st' ->
     filteredSavedKeywords st = filteredSavedKeywords st')
  /\ (forall st kw,
        kw ∈ filteredSavedKeywords st
        <-> kw ∈ savedKeywords st /\ filterAdmits st kw)
  /\ (forall st, sublist (filteredSavedKeywords st) (savedKeywords st))
  /\ (forall st k,
        sublist k (savedKeywords st) -> Forall (filterAdmits st) k ->
        sublist k (filteredSavedKeywords st))
  /\ (forall st,
        selectedDifficultyFilter st = All ->
        selectedVolumeFilter st = All ->
        selectedCompetitionFilter st = All ->
        filteredSavedKeywords st = savedKeywords st).
Proof.
  assert (Hadm : forall st kw,
    matchesFilter (selectedDifficultyFilter st) (difficulty kw)
    && matchesFilter (selectedVolumeFilter st) (searchVolume kw)
    && matchesFilter (selectedCompetitionFilter st) (competitionLevel kw)
    = true <-> filterAdmits st kw).
  { intros st kw. unfold filterAdmits.
    rewrite !andb_true_iff, !matchesFilter_axisAdmits. tauto. }
  split.
  { intros st st' Hs Hd Hv Hc. unfold filteredSavedKeywords.
    by rewrite Hs, Hd, Hv, Hc. }
  split.
  { intros st kw. unfold filteredSavedKeywords.
    rewrite !list_elem_of_In, filter_In. cbv zeta. by rewrite Hadm. }
  split.
  { intros st. apply filter_sublist. }
  split.
  { intros st k Hsub Hall. apply filter_greatest; [done|].
    eapply Forall_impl; [exact Hall|]. intros kw Hkw. cbv zeta.
    by apply Hadm. }
  intros st Hd Hv Hc. unfold filteredSavedKeywords. rewrite Hd, Hv, Hc.
  cbn [matchesFilter andb]. induction (savedKeywords st) as [|x l IH];
    [done|]. cbn [List.filter]. by rewrite IH.
Qed.

Lemma handleSaveKeyword_component (r : KeywordData) (a : AppState)
    (w : World) :
  component (stateAfter (handleSaveKeyword r) (mkMachine a w)) =
  if existsb (fun kw => bool_decide (id kw = id r)) (savedKeywords a) then a
  else mkAppState (keywords a) (savedKeywords a ++ [r]) (isLoading a)
         (error a) (hasApiKey a) (selectedDifficultyFilter a)
         (selectedVolumeFilter a) (selectedCompetitionFilter a).
Proof.
  unfold stateAfter.
  destruct (existsb _ (savedKeywords a)) eqn:Hdup.
  - by rewrite handleSaveKeyword_known.
  - by rewrite handleSaveKeyword_new.
Qed.

Lemma handleSaveKeyword_normal (r : KeywordData) (m : Machine) :
  completionOf (handleSaveKeyword r) m = Normal tt.
Proof.
  unfold completionOf.
  destruct (existsb (fun kw => bool_decide (id kw = id r))
                    (savedKeywords (component m))) eqn:Hdup.
  - by rewrite handleSaveKeyword_known.
  - by rewrite handleSaveKeyword_new.
Qed.

(** C8: a store that refuses the write neither stops nor undoes a save or
    a clear.  Whatever the store does, both operations complete normally
    (nothing is thrown to the caller) and leave the component's state that
    they leave with any other store, one that accepts the write included.
    When the write of the new collection is refused, the saved collection
    still has its new value, the store's content is what it was, and the
    refusal is reported on the console. *)
Theorem C8_persistence_failure_contained
    (a : AppState) (w w' : World) (r : KeywordData) :
  let saved := stateAfter (handleSaveKeyword r) (mkMachine a w) in
  let cleared := stateAfter handleClearAllSavedKeywords (mkMachine a w) in
  completionOf (handleSaveKeyword r) (mkMachine a w) = Normal tt
  /\ completionOf handleClearAllSavedKeywords (mkMachine a w) = Normal tt
  /\ component saved
     = component (stateAfter (handleSaveKeyword r) (mkMachine a w'))
  /\ component cleared
     = component (stateAfter handleClearAllSavedKeywords (mkMachine a w'))
  /\ (existsb (fun kw => bool_decide (id kw = id r)) (savedKeywords a) = false ->
      storageAccepts w LOCAL_STORAGE_KEY
        (stringify (toJsonArray (savedKeywords a ++ [r]))) = false ->
      savedKeywords (component saved) = savedKeywords a ++ [r]
      /\ localStorage (world saved) = localStorage w
      /\ console (world saved)
         = console w ++
           [(js "Failed to save keywords to local storage:",
             ErrorObject
               (engineMessage w
                  (WriteRefused LOCAL_STORAGE_KEY
                     (stringify (toJsonArray (savedKeywords a ++ [r]))))))])
  /\ (storageAccepts w LOCAL_STORAGE_KEY (js "[]") = false ->
      savedKeywords (component cleared) = []
      /\ localStorage (world cleared) = localStorage w
      /\ console (world cleared)
         = console w ++
           [(js "Failed to save keywords to local storage:",
             ErrorObject
               (engineMessage w (WriteRefused LOCAL_STORAGE_KEY (js "[]"))))]).
Proof.
  intros saved cleared.
  assert (Hcleared : cleared =
    mkMachine
      (mkAppState (keywords a) [] (isLoading a) (error a) (hasApiKey a)
         All All All)
      (stateAfter (saveKeywordsToLocalStorage []) w)).
  { subst cleared. unfold stateAfter at 1.
    by rewrite handleClearAllSavedKeywords_run. }
  clearbody cleared. subst cleared.
  split; [apply handleSaveKeyword_normal|].
  split; [unfold completionOf; by rewrite handleClearAllSavedKeywords_run|].
  split; [subst saved; by rewrite !handleSaveKeyword_component|].
  split.
  { unfold stateAfter at 2. by rewrite handleClearAllSavedKeywords_run. }
  split.
  { intros Hnew Hrefused. subst saved. unfold stateAfter at 1 2 3.
    rewrite handleSaveKeyword_new by done.
    cbn [snd component world savedKeywords]. split; [reflexivity|].
    by rewrite saveKeywordsToLocalStorage_refused. }
  intros Hrefused. cbn [world component savedKeywords].
  rewrite (saveKeywordsToLocalStorage_refused [] w Hrefused).
  repeat split; reflexivity.
Qed.

(** An instance of C3: the scenario with two sample records. *)
Lemma C3_saveRecord_idempotent_witness :
  savedKeywords (component
    (stateAfter (handleSaveKeyword Samples.recordB)
       (stateAfter (handleSaveKeyword Samples.recordA)
          (stateAfter (handleSaveKeyword Samples.recordA)
             (mkMachine initialApp (Samples.hostWith (Responds None)))))))
  = [Samples.recordA; Samples.recordB].
Proof.
  destruct C3_saveRecord_idempotent as (_ & _ & _ & Hscenario).
  apply Hscenario; [reflexivity | vm_compute; discriminate].
Defined.

(** An instance of C4: clearing a component that holds two saved records
    and an active filter, over a store that accepts the write. *)
Lemma C4_clearSaved_empties_and_resets_witness :
  localStorage (world
    (stateAfter handleClearAllSavedKeywords
       (mkMachine Samples.appWithBatchNoKey (Samples.hostWith (Responds None)))))
  !! LOCAL_STORAGE_KEY = Some (js "[]")
  /\ filteredSavedKeywords (component
       (stateAfter handleClearAllSavedKeywords
          (mkMachine Samples.appWithBatchNoKey
             (Samples.hostWith (Responds None))))) = [].
Proof.
  pose proof (C4_clearSaved_empties_and_resets
                (mkMachine Samples.appWithBatchNoKey
                   (Samples.hostWith (Responds None))))
    as (_ & _ & _ & _ & Hstore & _ & _ & _ & Hview & _).
  split; [apply Hstore; reflexivity | exact Hview].
Defined.

(** An instance of C5: with no filter selected the view is the saved
    collection. *)
Lemma C5_visibleSaved_is_filtered_view_witness :
  filteredSavedKeywords Samples.appWithSaved
  = [Samples.recordA; Samples.recordB].
Proof.
  destruct C5_visibleSaved_is_filtered_view as (_ & _ & _ & _ & Hall).
  apply (Hall Samples.appWithSaved); reflexivity.
Defined.

(** An instance of C8: saving a first record over a store that refuses
    every write. *)
Lemma C8_persistence_failure_contained_witness :
  completionOf (handleSaveKeyword Samples.recordA)
    (mkMachine initialApp Samples.hostRefusingWrites) = Normal tt
  /\ component
       (stateAfter (handleSaveKeyword Samples.recordA)
          (mkMachine initialApp Samples.hostRefusingWrites))
     = component
         (stateAfter (handleSaveKeyword Samples.recordA)
            (mkMachine initialApp (Samples.hostWith (Responds None))))
  /\ savedKeywords (component
       (stateAfter (handleSaveKeyword Samples.recordA)
          (mkMachine initialApp Samples.hostRefusingWrites)))
     = [Samples.recordA].
Proof.
  pose proof (C8_persistence_failure_contained initialApp
                Samples.hostRefusingWrites (Samples.hostWith (Responds None))
                Samples.recordA)
    as (Hnormal & _ & Hsame & _ & Hrefused & _).
  split; [exact Hnormal|]. split; [exact Hsame|].
  apply Hrefused; reflexivity.
Defined.

End SavedKeywords.

(** * The persisted collection *)

Section Persistence.
Import App.

Lemma storable_strings (xs : list jsstring) :
  forallb storable (JStr <$> xs) = true.
Proof. induction xs as [|x xs IH]; [done|]. exact IH. Qed.

Lemma storable_toJson (kw : KeywordData) : storable (toJson kw) = true.
Proof.
  unfold toJson. cbn [storable map fst forallb].
  rewrite !storable_strings. vm_compute. reflexivity.
Qed.

Lemma storable_toJsonArray (l : list KeywordData) :
  storable (toJsonArray l) = true.
Proof.
  unfold toJsonArray. cbn [storable].
  induction l as [|kw l IH]; [done|].
  cbn [fmap list_fmap forallb]. rewrite storable_toJson. exact IH.
Qed.

Lemma difficultyText_inj (a b : DifficultyLevel) :
  difficultyText a = difficultyText b -> a = b.
Proof. destruct a, b; (reflexivity || (vm_compute; discriminate)). Qed.

Lemma volumeText_inj (a b : SearchVolumeRange) :
  volumeText a = volumeText b -> a = b.
Proof. destruct a, b; (reflexivity || (vm_compute; discriminate)). Qed.

Lemma JStr_fmap_inj (xs ys : list jsstring) :
  JStr <$> xs = JStr <$> ys -> xs = ys.
Proof.
  revert ys. induction xs as [|x xs IH]; intros [|y ys]; try done.
  cbn [fmap list_fmap]. intros [= -> H]. f_equal. by apply IH.
Qed.

Lemma toJson_inj (a b : KeywordData) : toJson a = toJson b -> a = b.
Proof.
  destruct a, b. unfold toJson.
  cbn [keyword difficulty searchVolume competitionLevel estimatedCpc
       contentIdeas serpFeatures id].
  intros [= Hk Hd Hv Hc He Hi Hs Hid].
  apply difficultyText_inj in Hd, Hc. apply volumeText_inj in Hv.
  apply JStr_fmap_inj in Hi, Hs. by subst.
Qed.

Lemma toJsonArray_inj (l l' : list KeywordData) :
  toJsonArray l' = toJsonArray l -> l' = l.
Proof.
  unfold toJsonArray. intros [= H]. revert l H.
  induction l' as [|a l' IH]; intros [|b l]; try done.
  cbn [fmap list_fmap]. intros H. f_equal.
  - apply toJson_inj. congruence.
  - apply IH. congruence.
Qed.

(** Loading from a store that holds the text of a collection gives the
    collection's run-time value. *)
Lemma loadSavedKeywords_stringify (l : list KeywordData) (w : World) :
  localStorage w !! LOCAL_STORAGE_KEY = Some (stringify (toJsonArray l)) ->
  loadSavedKeywords w = (Normal (Some (toJsonArray l)), w).
Proof.
  intros Hget. apply (loadSavedKeywords_parsed w _ _ Hget).
  apply JSON_parse_stringify, storable_toJsonArray.
Qed.

(** C7: round trip through the store.  Once a saved collection has been
    written (the store accepted the write), the store holds its text under
    the key, and loading from that store, or from any store that returns
    that text for the key, sets the saved collection to the run-time value
    of the original collection: the same records with the same field
    values in the same order, since distinct collections have distinct
    run-time values. *)
Theorem C7_saved_round_trip (l : list KeywordData) (w : World) :
  storageAccepts w LOCAL_STORAGE_KEY (stringify (toJsonArray l)) = true ->
  let w' := stateAfter (saveKeywordsToLocalStorage l) w in
  completionOf (saveKeywordsToLocalStorage l) w = Normal tt
  /\ localStorage w' !! LOCAL_STORAGE_KEY = Some (stringify (toJsonArray l))
  /\ loadSavedKeywords w' = (Normal (Some (toJsonArray l)), w')
  /\ (forall w2,
        localStorage w2 !! LOCAL_STORAGE_KEY = Some (stringify (toJsonArray l)) ->
        loadSavedKeywords w2 = (Normal (Some (toJsonArray l)), w2))
  /\ (forall l', toJsonArray l' = toJsonArray l -> l' = l)
  /\ (forall v w2,
        storable v = true ->
        localStorage w2 !! LOCAL_STORAGE_KEY = Some (stringify v) ->
        loadSavedKeywords w2 = (Normal (Some v), w2)).
Proof.
  intros Hacc w'.
  assert (Hget : localStorage w' !! LOCAL_STORAGE_KEY
                 = Some (stringify (toJsonArray l))).
  { subst w'. rewrite saveKeywordsToLocalStorage_accepted by done.
    cbn [localStorage]. apply lookup_insert_eq. }
  split; [apply saveKeywordsToLocalStorage_normal|].
  split; [exact Hget|].
  split; [by apply loadSavedKeywords_stringify|].
  split; [intros w2; apply loadSavedKeywords_stringify|].
  split; [intros l'; apply toJsonArray_inj|].
  intros v w2 Hst Hget2. apply (loadSavedKeywords_parsed w2 _ _ Hget2).
  by apply JSON_parse_stringify.
Qed.

Lemma JSON_parse_empty : JSON_parse [] = None.
Proof. reflexivity. Qed.

(** C10: the startup load checks no shape.  When the store holds a text
    under the key and the text parses as JSON, the saved collection is set
    to the parsed value itself, whatever it is (an object or a number as
    well as an array); when it holds a text that does not parse, the
    failure is logged and the saved collection is set to the empty array;
    when the key is absent (or holds the empty text, for which no parse is
    attempted) no update is made, so the initial empty collection stays.
    The host is changed (by the console entry) only on the path where
    parsing throws. *)
Theorem C10_load_is_unvalidated (w : World) :
  (forall text v,
     localStorage w !! LOCAL_STORAGE_KEY = Some text ->
     JSON_parse text = Some v ->
     loadSavedKeywords w = (Normal (Some v), w))
  /\ (forall text,
        localStorage w !! LOCAL_STORAGE_KEY = Some text ->
        text <> [] ->
        JSON_parse text = None ->
        loadSavedKeywords w =
        (Normal (Some (JArr [])),
         mkWorld (localStorage w) (storageAccepts w)
           (console w ++
            [(js "Failed to load saved keywords from local storage:",
              ErrorObject (engineMessage w (InvalidJson text)))])
           (uuids w) (uuidsDrawn w) (service w) (serviceCalls w)
           (engineMessage w)))
  /\ (localStorage w !! LOCAL_STORAGE_KEY = None ->
      loadSavedKeywords w = (Normal None, w))
  /\ (localStorage w !! LOCAL_STORAGE_KEY = Some [] ->
      loadSavedKeywords w = (Normal None, w))
  /\ (forall c w',
        loadSavedKeywords w = (c, w') -> w' <> w ->
        c = Normal (Some (JArr []))
        /\ exists text,
             localStorage w !! LOCAL_STORAGE_KEY = Some text
             /\ JSON_parse text = None)
  /\ JSON_parse (js "{}") = Some (JObj [])
  /\ JSON_parse (js "42") = Some (JNum (js "42"))
  /\ savedKeywords initialApp = [].
Proof.
  split; [intros text v; apply loadSavedKeywords_parsed|].
  assert (Hthrow : forall text,
    localStorage w !! LOCAL_STORAGE_KEY = Some text ->
    text <> [] ->
    JSON_parse text = None ->
    loadSavedKeywords w =
    (Normal (Some (JArr [])),
     mkWorld (localStorage w) (storageAccepts w)
       (console w ++
        [(js "Failed to load saved keywords from local storage:",
          ErrorObject (engineMessage w (InvalidJson text)))])
       (uuids w) (uuidsDrawn w) (service w) (serviceCalls w)
       (engineMessage w))).
  { intros text Hget Hne Hparse.
    unfold loadSavedKeywords, tryCatch, bind, getItem, gets. rewrite Hget.
    destruct text as [|c text]; [done|].
    cbn [truthy]. unfold parseJson. by rewrite Hparse. }
  split; [exact Hthrow|].
  assert (Habsent : localStorage w !! LOCAL_STORAGE_KEY = None ->
                    loadSavedKeywords w = (Normal None, w)).
  { intros Hget.
    unfold loadSavedKeywords, tryCatch, bind, getItem, gets.
    by rewrite Hget. }
  split; [exact Habsent|].
  assert (Hempty : localStorage w !! LOCAL_STORAGE_KEY = Some [] ->
                   loadSavedKeywords w = (Normal None, w)).
  { intros Hget.
    unfold loadSavedKeywords, tryCatch, bind, getItem, gets.
    by rewrite Hget. }
  split; [exact Hempty|].
  split.
  { intros c w' Hload Hchanged.
    destruct (localStorage w !! LOCAL_STORAGE_KEY) as [text|] eqn:Hget.
    - destruct text as [|ch text].
      + rewrite Hempty in Hload by done. by injection Hload as <- <-.
      + destruct (JSON_parse (ch :: text)) as [v|] eqn:Hparse.
        * rewrite (loadSavedKeywords_parsed w _ v Hget Hparse) in Hload.
          by injection Hload as <- <-.
        * rewrite (Hthrow _ eq_refl) in Hload by done.
          injection Hload as <- <-. split; [done|]. by eexists.
    - rewrite Habsent in Hload by done. by injection Hload as <- <-. }
  split; [vm_compute; reflexivity|].
  split; [vm_compute; reflexivity|].
  reflexivity.
Qed.

(** An instance of C7: two sample records written and read back. *)
Lemma C7_saved_round_trip_witness :
  loadSavedKeywords
    (stateAfter
       (saveKeywordsToLocalStorage [Samples.recordA; Samples.recordB])
       (Samples.hostWith (Responds None)))
  = (Normal (Some (toJsonArray [Samples.recordA; Samples.recordB])),
     stateAfter
       (saveKeywordsToLocalStorage [Samples.recordA; Samples.recordB])
       (Samples.hostWith (Responds None))).
Proof.
  pose proof (C7_saved_round_trip [Samples.recordA; Samples.recordB]
                (Samples.hostWith (Responds None)) eq_refl)
    as (_ & _ & Hload & _).
  exact Hload.
Defined.

(** An instance of C10: the store holds the text of an empty object, and
    the saved collection is set to that object. *)
Lemma C10_load_is_unvalidated_witness :
  loadSavedKeywords (Samples.hostStoring (js "{}"))
  = (Normal (Some (JObj [])), Samples.hostStoring (js "{}")).
Proof.
  destruct (C10_load_is_unvalidated (Samples.hostStoring (js "{}")))
    as (Hparsed & _).
  apply (Hparsed (js "{}") (JObj [])).
  - apply lookup_singleton_eq.
  - vm_compute. reflexivity.
Defined.

End Persistence.

(** * The generation client *)

Section Client.
Import App.

Lemma lookupProp_defineProperty (k k' : jsstring) (v : Json)
    (ps : list (jsstring * Json)) :
  lookupProp k (defineProperty k' v ps) =
  if bool_decide (k = k') then Some v else lookupProp k ps.
Proof.
  induction ps as [|[k0 v0] ps IH]; cbn [defineProperty lookupProp].
  - reflexivity.
  - destruct (bool_decide_reflect (k' = k0)) as [->|Hne].
    + cbn [lookupProp]. by destruct (bool_decide (k = k0)).
    + destruct (enumeratesBefore k' k0); cbn [lookupProp].
      * reflexivity.
      * rewrite IH.
        destruct (bool_decide_reflect (k = k0)) as [->|?]; [|done].
        by rewrite bool_decide_eq_false_2.
Qed.

Lemma mapM_withId (items : list Json) (w : World) :
  mapM (fun kw => let* uuid := randomUUID in ret (withId kw uuid)) items w =
  (Normal (imap (fun i kw => withId kw (uuids w (uuidsDrawn w + i)%nat)) items),
   mkWorld (localStorage w) (storageAccepts w) (console w) (uuids w)
           (uuidsDrawn w + length items)%nat (service w) (serviceCalls w)
           (engineMessage w)).
Proof.
  revert w. induction items as [|kw items IH]; intros w.
  - cbn [mapM imap length]. unfold ret. rewrite Nat.add_0_r. by destruct w.
  - cbn [mapM imap length]. unfold bind at 1 2. unfold randomUUID at 1.
    unfold ret at 1. unfold bind at 1. rewrite IH.
    cbn [uuids uuidsDrawn localStorage storageAccepts console service
         serviceCalls engineMessage].
    unfold ret. rewrite Nat.add_0_r. f_equal.
    + f_equal. f_equal. apply imap_ext. intros i x _. cbn.
      do 2 f_equal. lia.
    + f_equal. lia.
Qed.

Lemma generate_reply_is_array (seed : jsstring) (n : Z) (w : World)
    (text : jsstring) (items : list Json) :
  service w (length (serviceCalls w)) seed n = Responds (Some text) ->
  JSON_parse (trim text) = Some (JArr items) ->
  generateKeywordsAndMetrics seed n w =
  (Normal (imap (fun i kw => withId kw (uuids w (uuidsDrawn w + i)%nat)) items),
   mkWorld (localStorage w) (storageAccepts w) (console w) (uuids w)
           (uuidsDrawn w + length items)%nat (service w)
           (serviceCalls w ++ [(seed, n)]) (engineMessage w)).
Proof.
  intros Hsvc Hparse.
  unfold generateKeywordsAndMetrics, tryCatch.
  unfold bind at 1. unfold generateContent. rewrite Hsvc.
  unfold bind at 1. unfold ret at 1.
  unfold bind at 1. unfold parseJson. rewrite Hparse. unfold ret at 1.
  by rewrite mapM_withId.
Qed.

(** Whatever goes wrong inside the client, what it throws is an [Error]
    with one of its own two messages: the one for a failure that matches
    the signature, the generic one otherwise. *)
Lemma generate_failure (seed : jsstring) (n : Z) (w w' : World) (e : Thrown) :
  generateKeywordsAndMetrics seed n w = (Abrupt e, w') ->
  e = ErrorObject (js "API Key issue or model not found. Please ensure a valid API key is selected.")
  \/ e = ErrorObject (js "Failed to fetch keyword data. Please try again.").
Proof.
  unfold generateKeywordsAndMetrics, tryCatch.
  destruct (bind (generateContent seed n) _ w) as [[result|thrown] w1] eqn:Hb.
  - discriminate.
  - unfold bind, consoleError, modify, throw.
    destruct thrown as [message|].
    + destruct (includes message _); intros [= <- _]; auto.
    + intros [= <- _]. auto.
Qed.

Lemma generate_rejected (seed : jsstring) (n : Z) (w : World) (e : Thrown) :
  service w (length (serviceCalls w)) seed n = Rejects e ->
  generateKeywordsAndMetrics seed n w =
  (Abrupt
     (ErrorObject
        (if matchesSignature e
         then js "API Key issue or model not found. Please ensure a valid API key is selected."
         else js "Failed to fetch keyword data. Please try again.")),
   mkWorld (localStorage w) (storageAccepts w)
           (console w ++ [(js "Error generating keywords:", e)])
           (uuids w) (uuidsDrawn w) (service w)
           (serviceCalls w ++ [(seed, n)]) (engineMessage w)).
Proof.
  intros Hsvc.
  unfold generateKeywordsAndMetrics, tryCatch.
  unfold bind at 1. unfold generateContent. rewrite Hsvc.
  unfold bind, consoleError, modify, throw, matchesSignature.
  destruct e as [message|]; [destruct (includes message _)|]; reflexivity.
Qed.

Lemma generate_success_only_if (seed : jsstring) (n : Z) (w w' : World)
    (result : list Json) :
  generateKeywordsAndMetrics seed n w = (Normal result, w') ->
  exists text items,
    service w (length (serviceCalls w)) seed n = Responds (Some text)
    /\ JSON_parse (trim text) = Some (JArr items).
Proof.
  destruct (service w (length (serviceCalls w)) seed n) as [e|[text|]] eqn:Hsvc.
  - rewrite (generate_rejected seed n w e Hsvc). discriminate.
  - destruct (JSON_parse (trim text)) as [[| | | |items|]|] eqn:Hparse;
      try (intros _; by exists text, items);
      unfold generateKeywordsAndMetrics, tryCatch;
      unfold bind at 1; unfold generateContent; rewrite Hsvc;
      unfold bind at 1; unfold ret at 1;
      unfold bind at 1; unfold parseJson; rewrite Hparse;
      unfold ret, engineThrow, bind, consoleError, modify, throw;
      cbn [engineMessage];
      match goal with
      | |- context [includes ?m ?s] => destruct (includes m s)
      end; discriminate.
  - unfold generateKeywordsAndMetrics, tryCatch.
    unfold bind at 1. unfold generateContent. rewrite Hsvc.
    unfold bind at 1. unfold engineThrow at 1.
    unfold bind, consoleError, modify, throw. cbn [engineMessage].
    match goal with
    | |- context [includes ?m ?s] => destruct (includes m s)
    end; discriminate.
Qed.

Lemma defineAll_canonical (acc ps : list (jsstring * Json)) :
  canonicalKeys (map fst acc) (map fst ps) = true ->
  defineAll acc ps = acc ++ ps.
Proof.
  revert acc. induction ps as [|[k v] ps IH]; intros acc Hcan.
  - cbn. by rewrite app_nil_r.
  - cbn [map fst canonicalKeys] in Hcan.
    apply andb_true_iff in Hcan as [Hk Hcan].
    unfold defineAll. cbn [foldl fst snd].
    rewrite defineProperty_appendable by done.
    fold (defineAll (acc ++ [(k, v)]) ps).
    rewrite IH; [by rewrite <- app_assoc|]. by rewrite map_app.
Qed.

Lemma batchIds_withId (items : list Json) (f : nat -> jsstring) :
  batchIds (imap (fun i kw => withId kw (f i)) items)
  = (fun i => Some (JStr (f i))) <$> seq 0 (length items).
Proof.
  unfold batchIds. rewrite fmap_imap.
  rewrite <- (imap_seq_0 items (fun i => Some (JStr (f i)))).
  apply imap_ext. intros i kw _. cbn [compose].
  unfold withId, getProp. rewrite lookupProp_defineProperty.
  by rewrite bool_decide_eq_true_2.
Qed.

(** Adding the id touches none of the seven declared fields. *)
Lemma hasDeclaredFields_withId (kw : Json) (uuid : jsstring) :
  hasDeclaredFields (withId kw uuid)
  = hasDeclaredFields (JObj (spreadProps kw)).
Proof.
  unfold hasDeclaredFields, withId, getProp.
  rewrite !lookupProp_defineProperty.
  rewrite !bool_decide_eq_false_2 by (vm_compute; discriminate).
  reflexivity.
Qed.

(** C2, as the code has it: a call succeeds exactly when the reply, once
    trimmed, parses as a JSON array, and the batch then has one record
    per element of that array, in order, however many were asked for.
    Each record is the spread copy of its element (no field is checked:
    a record has the seven declared fields with in-set values exactly
    when the copy of its element has them) with its id set to the next
    value of crypto.randomUUID; the ids of a batch are pairwise distinct
    when the UUID source never repeats. *)
Theorem C2_batch_mirrors_reply (seed : jsstring) (n : Z) (w : World)
    (text : jsstring) (items : list Json) :
  service w (length (serviceCalls w)) seed n = Responds (Some text) ->
  JSON_parse (trim text) = Some (JArr items) ->
  let batch :=
    imap (fun i kw => withId kw (uuids w (uuidsDrawn w + i)%nat)) items in
  completionOf (generateKeywordsAndMetrics seed n) w = Normal batch
  /\ length batch = length items
  /\ (forall i r,
        batch !! i = Some r ->
        getProp r (js "id") = Some (JStr (uuids w (uuidsDrawn w + i)%nat))
        /\ exists kw,
             items !! i = Some kw
             /\ (forall k, k <> js "id" ->
                   getProp r k = lookupProp k (spreadProps kw))
             /\ hasDeclaredFields r
                = hasDeclaredFields (JObj (spreadProps kw)))
  /\ (forall ps,
        canonicalKeys [] (map fst ps) = true -> spreadProps (JObj ps) = ps)
  /\ ((forall i j, uuids w i = uuids w j -> i = j) ->
      NoDup (batchIds batch))
  /\ (forall seed0 n0 w0 w1 result,
        generateKeywordsAndMetrics seed0 n0 w0 = (Normal result, w1) ->
        exists text0 items0,
          service w0 (length (serviceCalls w0)) seed0 n0
          = Responds (Some text0)
          /\ JSON_parse (trim text0) = Some (JArr items0)).
Proof.
  intros Hsvc Hparse batch.
  split.
  { unfold completionOf.
    by rewrite (generate_reply_is_array seed n w text items Hsvc Hparse). }
  split; [subst batch; by rewrite length_imap|].
  split.
  { intros i r Hr. subst batch. rewrite list_lookup_imap in Hr.
    destruct (items !! i) as [kw|] eqn:Hkw; [|discriminate].
    cbn in Hr. injection Hr as <-.
    unfold withId, getProp. split.
    - rewrite lookupProp_defineProperty. by rewrite bool_decide_eq_true_2.
    - exists kw. split; [done|]. split.
      + intros k Hk. rewrite lookupProp_defineProperty.
        by rewrite bool_decide_eq_false_2.
      + apply hasDeclaredFields_withId. }
  split.
  { intros ps Hcan. unfold spreadProps. cbn [ownProperties].
    by rewrite defineAll_canonical. }
  split.
  { intros Hinj. subst batch.
    rewrite (batchIds_withId items (fun i => uuids w (uuidsDrawn w + i)%nat)).
    apply NoDup_fmap_2; [|apply NoDup_seq].
    intros i j [= Hij]. apply Hinj in Hij. lia. }
  intros seed0 n0 w0 w1 result. apply generate_success_only_if.
Qed.

(** An instance of C2: a reply of two well-formed objects. *)
Lemma C2_batch_mirrors_reply_witness :
  completionOf (generateKeywordsAndMetrics (js "tea") 2)
    (Samples.hostWith
       (Responds (Some (stringify (JArr [JObj [(js "keyword", JStr (js "tea"))];
                                         JObj [(js "keyword", JStr (js "chai"))]])))))
  = Normal [JObj [(js "keyword", JStr (js "tea")); (js "id", JStr (js "0"))];
            JObj [(js "keyword", JStr (js "chai")); (js "id", JStr (js "1"))]].
Proof.
  apply (C2_batch_mirrors_reply (js "tea") 2
           (Samples.hostWith
              (Responds (Some (stringify
                 (JArr [JObj [(js "keyword", JStr (js "tea"))];
                        JObj [(js "keyword", JStr (js "chai"))]])))))
           (stringify (JArr [JObj [(js "keyword", JStr (js "tea"))];
                             JObj [(js "keyword", JStr (js "chai"))]]))
           [JObj [(js "keyword", JStr (js "tea"))];
            JObj [(js "keyword", JStr (js "chai"))]]
           eq_refl eq_refl).
Defined.

(** Against C2 as stated: asked for one keyword, the client returns the
    two records of the reply, neither of which has any of the seven
    declared fields. *)
Lemma C2_counterexample_count_and_fields_unchecked :
  exists batch,
    completionOf (generateKeywordsAndMetrics (js "tea") 1)
      (Samples.hostWith (Responds (Some (js "[{},{}]"))))
    = Normal batch
    /\ (1 < length batch)%nat
    /\ Forall (fun r => hasDeclaredFields r = false) batch.
Proof.
  eexists. split; [vm_compute; reflexivity|].
  split; [cbn; lia|]. repeat constructor.
Qed.

End Client.

(** * Requesting a generation *)

Section Generation.
Import App.

(** Without a key the handler stops at its guard: the client is not
    called and the host is untouched. *)
Lemma handleGenerateKeywords_guarded (seed : jsstring) (n : Z) (m : Machine) :
  hasApiKey (component m) = false ->
  handleGenerateKeywords seed n m =
  (Normal tt,
   mkMachine
     (mkAppState [] (savedKeywords (component m)) false
        (Some (js "API Key not selected. Please select your API key to proceed."))
        false (selectedDifficultyFilter (component m))
        (selectedVolumeFilter (component m))
        (selectedCompetitionFilter (component m)))
     (world m)).
Proof.
  intros Hkey. destruct m as [a w]. cbn [component] in *.
  unfold handleGenerateKeywords, bind, gets, tryFinally, tryCatch,
    setIsLoading, setError, setKeywords, setApp, modify.
  cbn [component world]. rewrite Hkey.
  cbn [negb keywords savedKeywords isLoading error hasApiKey
       selectedDifficultyFilter selectedVolumeFilter
       selectedCompetitionFilter component world].
  reflexivity.
Qed.

(** With a key, a request that the service rejects ends with the client's
    message in the error slot and the key flag as it was. *)
Lemma handleGenerateKeywords_rejected (seed : jsstring) (n : Z) (m : Machine)
    (e : Thrown) :
  hasApiKey (component m) = true ->
  service (world m) (length (serviceCalls (world m))) seed n = Rejects e ->
  let message :=
    if matchesSignature e
    then js "API Key issue or model not found. Please ensure a valid API key is selected."
    else js "Failed to fetch keyword data. Please try again." in
  handleGenerateKeywords seed n m =
  (Normal tt,
   mkMachine
     (mkAppState [] (savedKeywords (component m)) false (Some message) true
        (selectedDifficultyFilter (component m))
        (selectedVolumeFilter (component m))
        (selectedCompetitionFilter (component m)))
     (mkWorld (localStorage (world m)) (storageAccepts (world m))
        (console (world m)
         ++ [(js "Error generating keywords:", e)]
         ++ [(js "Failed to generate keywords:", ErrorObject message)])
        (uuids (world m)) (uuidsDrawn (world m)) (service (world m))
        (serviceCalls (world m) ++ [(seed, n)]) (engineMessage (world m)))).
Proof.
  intros Hkey Hsvc message. destruct m as [a w]. cbn [component world] in *.
  unfold handleGenerateKeywords, bind, gets, tryFinally, tryCatch,
    setIsLoading, setError, setKeywords, setHasApiKey, setApp, modify,
    inWorld, zoom.
  cbn [component world]. rewrite Hkey. cbn [negb component world].
  rewrite (generate_rejected seed n w e Hsvc). fold message.
  cbn [component world keywords savedKeywords isLoading error hasApiKey
       selectedDifficultyFilter selectedVolumeFilter
       selectedCompetitionFilter].
  unfold consoleError, modify.
  cbn [localStorage storageAccepts console uuids uuidsDrawn service
       serviceCalls engineMessage].
  assert (Hinc : includes message (js "Requested entity was not found.")
                 = false).
  { subst message. destruct (matchesSignature e); vm_compute; reflexivity. }
  assert (Htruthy : truthy message = true).
  { subst message. destruct (matchesSignature e); reflexivity. }
  rewrite Hinc, Htruthy. rewrite <- app_assoc. reflexivity.
Qed.

(** C6, as the code has it: with no key selected the handler sets the
    error message and returns without calling the client (the host is
    left exactly as it was: no request, no UUID drawn, nothing logged or
    stored).  On this path the generated batch is cleared and the loading
    flag ends false; the saved collection, the three filter selections
    and the key flag are unchanged. *)
Theorem C6_guard_blocks_generation (seed : jsstring) (n : Z) (m : Machine) :
  hasApiKey (component m) = false ->
  let m' := stateAfter (handleGenerateKeywords seed n) m in
  completionOf (handleGenerateKeywords seed n) m = Normal tt
  /\ world m' = world m
  /\ error (component m')
     = Some (js "API Key not selected. Please select your API key to proceed.")
  /\ keywords (component m') = []
  /\ isLoading (component m') = false
  /\ hasApiKey (component m') = false
  /\ savedKeywords (component m') = savedKeywords (component m)
  /\ selectedDifficultyFilter (component m')
     = selectedDifficultyFilter (component m)
  /\ selectedVolumeFilter (component m') = selectedVolumeFilter (component m)
  /\ selectedCompetitionFilter (component m')
     = selectedCompetitionFilter (component m).
Proof.
  intros Hkey m'. subst m'. unfold stateAfter, completionOf.
  rewrite (handleGenerateKeywords_guarded seed n m Hkey).
  cbn [fst snd component world]. repeat split; reflexivity.
Qed.

(** An instance of C6: a component without a key that holds a batch. *)
Lemma C6_guard_blocks_generation_witness :
  world (stateAfter (handleGenerateKeywords (js "tea") 5)
           (mkMachine Samples.appWithBatchNoKey
              (Samples.hostWith (Responds None))))
  = Samples.hostWith (Responds None)
  /\ keywords (component
       (stateAfter (handleGenerateKeywords (js "tea") 5)
          (mkMachine Samples.appWithBatchNoKey
             (Samples.hostWith (Responds None))))) = [].
Proof.
  pose proof (C6_guard_blocks_generation (js "tea") 5
                (mkMachine Samples.appWithBatchNoKey
                   (Samples.hostWith (Responds None))) eq_refl)
    as (_ & Hworld & _ & Hbatch & _).
  split; [exact Hworld | exact Hbatch].
Defined.

(** Against C6 as stated: on the guarded path the existing generated
    batch does not survive. *)
Lemma C6_counterexample_batch_is_cleared :
  hasApiKey (component
    (mkMachine Samples.appWithBatchNoKey (Samples.hostWith (Responds None))))
  = false
  /\ keywords (component
       (mkMachine Samples.appWithBatchNoKey (Samples.hostWith (Responds None))))
     = [toJson Samples.recordA]
  /\ keywords (component
       (stateAfter (handleGenerateKeywords (js "tea") 5)
          (mkMachine Samples.appWithBatchNoKey
             (Samples.hostWith (Responds None)))))
     = [].
Proof. repeat split; vm_compute; reflexivity. Qed.

(** With a key selected, no outcome of the client makes the handler clear
    the key flag: what the client throws never carries the sentence that
    the handler tests for. *)
Lemma handleGenerateKeywords_keeps_key (seed : jsstring) (n : Z) (m : Machine) :
  hasApiKey (component m) = true ->
  hasApiKey (component (stateAfter (handleGenerateKeywords seed n) m)) = true.
Proof.
  intros Hkey. destruct m as [a w]. cbn [component world] in *.
  unfold stateAfter, handleGenerateKeywords, bind, gets, tryFinally, tryCatch,
    setIsLoading, setError, setKeywords, setHasApiKey, setApp, modify,
    inWorld, zoom.
  cbn [component world]. rewrite Hkey. cbn [negb component world].
  destruct (generateKeywordsAndMetrics seed n w) as [[batch|e] w1] eqn:Hgen.
  - reflexivity.
  - cbn [component world].
    destruct (generate_failure seed n w w1 e Hgen) as [-> | ->].
    + replace (includes _ (js "Requested entity was not found.")) with false
        by (vm_compute; reflexivity).
      reflexivity.
    + replace (includes _ (js "Requested entity was not found.")) with false
        by (vm_compute; reflexivity).
      reflexivity.
Qed.

(** C1, what the code does: with a key selected, the key flag is still
    true after the handler, whatever the service did.  When the service
    rejects the request, the handler completes with the loading flag
    false, the batch empty and the error slot holding the client's
    message: the credential message when the failure matches the
    signature, the generic one otherwise.  The client has replaced the
    message that the handler's own signature test looks for, so the
    branch that clears the key flag is never taken. *)
Theorem C1_rejection_keeps_key_flag (seed : jsstring) (n : Z) (m : Machine)
    (e : Thrown) :
  hasApiKey (component m) = true ->
  let m' := stateAfter (handleGenerateKeywords seed n) m in
  hasApiKey (component m') = true
  /\ (service (world m) (length (serviceCalls (world m))) seed n = Rejects e ->
      completionOf (handleGenerateKeywords seed n) m = Normal tt
      /\ error (component m')
         = Some (if matchesSignature e
                 then js "API Key issue or model not found. Please ensure a valid API key is selected."
                 else js "Failed to fetch keyword data. Please try again.")
      /\ isLoading (component m') = false
      /\ keywords (component m') = []).
Proof.
  intros Hkey m'. split; [by apply handleGenerateKeywords_keeps_key|].
  intros Hsvc. subst m'. unfold stateAfter, completionOf.
  rewrite (handleGenerateKeywords_rejected seed n m e Hkey Hsvc).
  cbn [fst snd component]. repeat split; reflexivity.
Qed.

(** An instance of C1: the service fails with the signature sentence. *)
Lemma C1_rejection_keeps_key_flag_witness :
  matchesSignature (ErrorObject (js "Requested entity was not found.")) = true
  /\ hasApiKey (component
       (stateAfter (handleGenerateKeywords (js "tea") 5)
          (mkMachine Samples.appWithKey
             (Samples.hostWith
                (Rejects (ErrorObject (js "Requested entity was not found.")))))))
     = true
  /\ error (component
       (stateAfter (handleGenerateKeywords (js "tea") 5)
          (mkMachine Samples.appWithKey
             (Samples.hostWith
                (Rejects (ErrorObject (js "Requested entity was not found.")))))))
     = Some (js "API Key issue or model not found. Please ensure a valid API key is selected.").
Proof.
  pose proof (C1_rejection_keeps_key_flag (js "tea") 5
                (mkMachine Samples.appWithKey
                   (Samples.hostWith
                      (Rejects (ErrorObject
                                  (js "Requested entity was not found.")))))
                (ErrorObject (js "Requested entity was not found."))
                eq_refl)
    as (Hflag & Hrejected).
  destruct (Hrejected eq_refl) as (_ & Herror & _).
  split; [vm_compute; reflexivity|].
  split; [exact Hflag | exact Herror].
Defined.

End Generation.

(** * Further properties of the handlers *)

Section GenerationOutcomes.
Import App Session.

(** Any internal failure of a client call is logged and rethrown under
    the client's message, after exactly one request and no UUID. *)
Lemma generate_faulty (seed : jsstring) (n : Z) (w : World) (fault : Thrown) :
  replyFault w (service w (length (serviceCalls w)) seed n) = Some fault ->
  generateKeywordsAndMetrics seed n w =
  (Abrupt (ErrorObject (clientMessage fault)),
   mkWorld (localStorage w) (storageAccepts w)
           (console w ++ [(js "Error generating keywords:", fault)])
           (uuids w) (uuidsDrawn w) (service w)
           (serviceCalls w ++ [(seed, n)]) (engineMessage w)).
Proof.
  unfold replyFault, clientMessage.
  destruct (service w (length (serviceCalls w)) seed n) as [e|[text|]] eqn:Hsvc.
  - intros [= <-]. by apply generate_rejected.
  - destruct (JSON_parse (trim text)) as [v|] eqn:Hparse.
    + intros Hfault.
      assert (Hv : fault = ErrorObject (engineMessage w (MapIsNotAFunction v))
                   /\ forall items, v <> JArr items).
      { destruct v; try (injection Hfault as <-; split; [done|congruence]).
        discriminate. }
      destruct Hv as [-> Hnot].
      unfold generateKeywordsAndMetrics, tryCatch.
      unfold bind at 1. unfold generateContent. rewrite Hsvc.
      unfold bind at 1. unfold ret at 1.
      unfold bind at 1. unfold parseJson. rewrite Hparse. unfold ret at 1.
      destruct v as [| | | |items|]; try (by destruct (Hnot items));
        unfold engineThrow, bind, consoleError, modify, throw, matchesSignature;
        cbn [engineMessage];
        match goal with
        | |- context [includes ?m ?s] => destruct (includes m s)
        end; reflexivity.
    + intros [= <-].
      unfold generateKeywordsAndMetrics, tryCatch.
      unfold bind at 1. unfold generateContent. rewrite Hsvc.
      unfold bind at 1. unfold ret at 1.
      unfold bind at 1. unfold parseJson. rewrite Hparse.
      unfold engineThrow, bind, consoleError, modify, throw, matchesSignature.
      cbn [engineMessage].
      match goal with
      | |- context [includes ?m ?s] => destruct (includes m s)
      end; reflexivity.
  - intros [= <-].
    unfold generateKeywordsAndMetrics, tryCatch.
    unfold bind at 1. unfold generateContent. rewrite Hsvc.
    unfold bind at 1. unfold engineThrow at 1.
    unfold bind, consoleError, modify, throw, matchesSignature.
    cbn [engineMessage].
    match goal with
    | |- context [includes ?m ?s] => destruct (includes m s)
    end; reflexivity.
Qed.

Lemma replyFault_none (w : World) (outcome : ServiceOutcome) :
  replyFault w outcome = None ->
  exists text items,
    outcome = Responds (Some text) /\ JSON_parse (trim text) = Some (JArr items).
Proof.
  unfold replyFault. destruct outcome as [e|[text|]]; try discriminate.
  destruct (JSON_parse (trim text)) as [[| | | |items|]|] eqn:Hp;
    try discriminate.
  intros _. by exists text, items.
Qed.

Lemma clientMessage_plain (fault : Thrown) :
  includes (clientMessage fault) (js "Requested entity was not found.") = false
  /\ truthy (clientMessage fault) = true.
Proof.
  unfold clientMessage. destruct (matchesSignature fault);
    split; vm_compute; reflexivity.
Qed.

(** With a key, a faulty call ends with the client's message in the error
    slot. *)
Lemma handleGenerateKeywords_faulty (seed : jsstring) (n : Z) (m : Machine)
    (fault : Thrown) :
  hasApiKey (component m) = true ->
  replyFault (world m)
    (service (world m) (length (serviceCalls (world m))) seed n) = Some fault ->
  handleGenerateKeywords seed n m =
  (Normal tt,
   mkMachine
     (mkAppState [] (savedKeywords (component m)) false
        (Some (clientMessage fault)) true
        (selectedDifficultyFilter (component m))
        (selectedVolumeFilter (component m))
        (selectedCompetitionFilter (component m)))
     (mkWorld (localStorage (world m)) (storageAccepts (world m))
        (console (world m)
         ++ [(js "Error generating keywords:", fault);
             (js "Failed to generate keywords:",
              ErrorObject (clientMessage fault))])
        (uuids (world m)) (uuidsDrawn (world m)) (service (world m))
        (serviceCalls (world m) ++ [(seed, n)]) (engineMessage (world m)))).
Proof.
  intros Hkey Hfault. destruct m as [a w]. cbn [component world] in *.
  unfold handleGenerateKeywords, bind, gets, tryFinally, tryCatch,
    setIsLoading, setError, setKeywords, setHasApiKey, setApp, modify,
    inWorld, zoom.
  cbn [component world]. rewrite Hkey. cbn [negb component world].
  rewrite (generate_faulty seed n w fault Hfault).
  cbn [component world keywords savedKeywords isLoading error hasApiKey
       selectedDifficultyFilter selectedVolumeFilter
       selectedCompetitionFilter].
  unfold consoleError, modify.
  cbn [localStorage storageAccepts console uuids uuidsDrawn service
       serviceCalls engineMessage].
  destruct (clientMessage_plain fault) as [-> ->].
  rewrite <- app_assoc. reflexivity.
Qed.

(** With a key, a reply that parses as an array becomes the batch. *)
Lemma handleGenerateKeywords_success (seed : jsstring) (n : Z) (m : Machine)
    (text : jsstring) (items : list Json) :
  hasApiKey (component m) = true ->
  service (world m) (length (serviceCalls (world m))) seed n
  = Responds (Some text) ->
  JSON_parse (trim text) = Some (JArr items) ->
  handleGenerateKeywords seed n m =
  (Normal tt,
   mkMachine
     (mkAppState
        (imap (fun i kw =>
                 withId kw (uuids (world m) (uuidsDrawn (world m) + i)%nat))
              items)
        (savedKeywords (component m)) false None true
        (selectedDifficultyFilter (component m))
        (selectedVolumeFilter (component m))
        (selectedCompetitionFilter (component m)))
     (mkWorld (localStorage (world m)) (storageAccepts (world m))
        (console (world m)) (uuids (world m))
        (uuidsDrawn (world m) + length items)%nat (service (world m))
        (serviceCalls (world m) ++ [(seed, n)]) (engineMessage (world m)))).
Proof.
  intros Hkey Hsvc Hparse. destruct m as [a w]. cbn [component world] in *.
  unfold handleGenerateKeywords, bind, gets, tryFinally, tryCatch,
    setIsLoading, setError, setKeywords, setHasApiKey, setApp, modify,
    inWorld, zoom.
  cbn [component world]. rewrite Hkey. cbn [negb component world].
  rewrite (generate_reply_is_array seed n w text items Hsvc Hparse).
  reflexivity.
Qed.

(** The handler leaves the saved collection, the filters, the key flag
    and the store as they were. *)
Lemma handleGenerateKeywords_frame (seed : jsstring) (n : Z) (m : Machine) :
  let m' := stateAfter (handleGenerateKeywords seed n) m in
  savedKeywords (component m') = savedKeywords (component m)
  /\ selectedDifficultyFilter (component m')
     = selectedDifficultyFilter (component m)
  /\ selectedVolumeFilter (component m') = selectedVolumeFilter (component m)
  /\ selectedCompetitionFilter (component m')
     = selectedCompetitionFilter (component m)
  /\ hasApiKey (component m') = hasApiKey (component m)
  /\ localStorage (world m') = localStorage (world m)
  /\ storageAccepts (world m') = storageAccepts (world m)
  /\ uuids (world m') = uuids (world m)
  /\ (uuidsDrawn (world m) <= uuidsDrawn (world m'))%nat.
Proof.
  intros m'. subst m'. unfold stateAfter.
  destruct (hasApiKey (component m)) eqn:Hkey.
  - destruct (replyFault (world m)
                (service (world m) (length (serviceCalls (world m))) seed n))
      as [fault|] eqn:Hfault.
    + rewrite (handleGenerateKeywords_faulty seed n m fault Hkey Hfault).
      cbn. repeat split; (reflexivity || lia).
    + destruct (replyFault_none _ _ Hfault) as (text & items & Hsvc & Hparse).
      rewrite (handleGenerateKeywords_success seed n m text items Hkey Hsvc
                 Hparse).
      cbn. repeat split; (reflexivity || lia).
  - rewrite (handleGenerateKeywords_guarded seed n m Hkey).
    cbn. repeat split; (reflexivity || lia).
Qed.

(** X1: with a key selected, a reply that parses (once trimmed) as a JSON
    array replaces the generated batch by one record per element, each
    with its UUID; the error slot is empty and the loading flag false
    afterwards.  One request is recorded, one UUID is drawn per record,
    and the console and the store are untouched. *)
Theorem generate_success_replaces_batch (seed : jsstring) (n : Z)
    (m : Machine) (text : jsstring) (items : list Json) :
  hasApiKey (component m) = true ->
  service (world m) (length (serviceCalls (world m))) seed n
  = Responds (Some text) ->
  JSON_parse (trim text) = Some (JArr items) ->
  let m' := stateAfter (handleGenerateKeywords seed n) m in
  completionOf (handleGenerateKeywords seed n) m = Normal tt
  /\ keywords (component m')
     = imap (fun i kw =>
               withId kw (uuids (world m) (uuidsDrawn (world m) + i)%nat))
            items
  /\ length (keywords (component m')) = length items
  /\ error (component m') = None
  /\ isLoading (component m') = false
  /\ uuidsDrawn (world m') = (uuidsDrawn (world m) + length items)%nat
  /\ serviceCalls (world m') = serviceCalls (world m) ++ [(seed, n)]
  /\ console (world m') = console (world m)
  /\ localStorage (world m') = localStorage (world m).
Proof.
  intros Hkey Hsvc Hparse m'. subst m'. unfold stateAfter, completionOf.
  rewrite (handleGenerateKeywords_success seed n m text items Hkey Hsvc Hparse).
  cbn [fst snd component world keywords error isLoading uuidsDrawn
       serviceCalls console localStorage].
  rewrite length_imap. repeat split; reflexivity.
Qed.

(** An instance of X1: a reply of two objects, surrounded by blanks. *)
Lemma generate_success_replaces_batch_witness :
  keywords (component
    (stateAfter (handleGenerateKeywords (js "tea") 2)
       (mkMachine Samples.appWithKey
          (Samples.hostWith (Responds (Some (js " [{},{}] ")))))))
  = [JObj [(js "id", JStr (js "0"))]; JObj [(js "id", JStr (js "1"))]]
  /\ error (component
       (stateAfter (handleGenerateKeywords (js "tea") 2)
          (mkMachine Samples.appWithKey
             (Samples.hostWith (Responds (Some (js " [{},{}] ")))))))
     = None.
Proof.
  pose proof (generate_success_replaces_batch (js "tea") 2
                (mkMachine Samples.appWithKey
                   (Samples.hostWith (Responds (Some (js " [{},{}] ")))))
                (js " [{},{}] ") [JObj []; JObj []]
                eq_refl eq_refl eq_refl)
    as (_ & Hbatch & _ & Herror & _).
  split; [exact Hbatch | exact Herror].
Defined.

(** X2: with a key selected, a reply that is undefined, is not JSON, or
    is JSON but not an array leaves the batch empty and puts the client's
    message in the error slot: the generic message, unless the engine's
    own error text contains the signature sentence.  No UUID is drawn,
    the key flag stays true, and both the client and the handler log the
    failure. *)
Theorem generate_malformed_reply (seed : jsstring) (n : Z) (m : Machine)
    (reply : option jsstring) (fault : Thrown) :
  hasApiKey (component m) = true ->
  service (world m) (length (serviceCalls (world m))) seed n = Responds reply ->
  replyFault (world m) (Responds reply) = Some fault ->
  let m' := stateAfter (handleGenerateKeywords seed n) m in
  completionOf (handleGenerateKeywords seed n) m = Normal tt
  /\ keywords (component m') = []
  /\ error (component m') = Some (clientMessage fault)
  /\ (matchesSignature fault = false ->
      error (component m')
      = Some (js "Failed to fetch keyword data. Please try again."))
  /\ isLoading (component m') = false
  /\ hasApiKey (component m') = true
  /\ uuidsDrawn (world m') = uuidsDrawn (world m)
  /\ console (world m')
     = console (world m)
       ++ [(js "Error generating keywords:", fault);
           (js "Failed to generate keywords:",
            ErrorObject (clientMessage fault))]
  /\ (reply = None ->
      fault = ErrorObject (engineMessage (world m) TextIsUndefined))
  /\ (forall text, reply = Some text -> JSON_parse (trim text) = None ->
      fault = ErrorObject (engineMessage (world m) (InvalidJson (trim text)))).
Proof.
  intros Hkey Hsvc Hfault m'. subst m'. unfold stateAfter, completionOf.
  assert (Hfault' : replyFault (world m)
            (service (world m) (length (serviceCalls (world m))) seed n)
          = Some fault) by (by rewrite Hsvc).
  rewrite (handleGenerateKeywords_faulty seed n m fault Hkey Hfault').
  cbn [fst snd component world keywords error isLoading hasApiKey uuidsDrawn
       console].
  split; [reflexivity|]. split; [reflexivity|]. split; [reflexivity|].
  split; [intros Hs; unfold clientMessage; by rewrite Hs|].
  split; [reflexivity|]. split; [reflexivity|]. split; [reflexivity|].
  split; [reflexivity|].
  split.
  - intros ->. cbn [replyFault] in Hfault. congruence.
  - intros text -> Hparse. cbn [replyFault] in Hfault.
    rewrite Hparse in Hfault. congruence.
Qed.

(** An instance of X2: the reply is the text "not json". *)
Lemma generate_malformed_reply_witness :
  keywords (component
    (stateAfter (handleGenerateKeywords (js "tea") 5)
       (mkMachine Samples.appWithKey
          (Samples.hostWith (Responds (Some (js "not json")))))))
  = []
  /\ error (component
       (stateAfter (handleGenerateKeywords (js "tea") 5)
          (mkMachine Samples.appWithKey
             (Samples.hostWith (Responds (Some (js "not json")))))))
     = Some (js "Failed to fetch keyword data. Please try again.").
Proof.
  pose proof (generate_malformed_reply (js "tea") 5
                (mkMachine Samples.appWithKey
                   (Samples.hostWith (Responds (Some (js "not json")))))
                (Some (js "not json"))
                (ErrorObject (js "engine error"))
                eq_refl eq_refl eq_refl)
    as (_ & Hbatch & _ & Herror & _).
  split; [exact Hbatch | apply Herror; vm_compute; reflexivity].
Defined.

(** X3: whatever the state and whatever the service does, the handler
    completes normally with the loading flag false, and changes neither
    the saved collection, nor the filters, nor the key flag, nor the
    store.  It makes exactly one request when a key is selected and none
    otherwise (no retry).  Afterwards a batch and an error never coexist:
    the error slot is empty exactly when a key was selected and the call
    had no fault, and it is non-empty only beside an empty batch. *)
Theorem generate_completes_with_one_request (seed : jsstring) (n : Z)
    (m : Machine) :
  let m' := stateAfter (handleGenerateKeywords seed n) m in
  completionOf (handleGenerateKeywords seed n) m = Normal tt
  /\ isLoading (component m') = false
  /\ savedKeywords (component m') = savedKeywords (component m)
  /\ selectedDifficultyFilter (component m')
     = selectedDifficultyFilter (component m)
  /\ selectedVolumeFilter (component m') = selectedVolumeFilter (component m)
  /\ selectedCompetitionFilter (component m')
     = selectedCompetitionFilter (component m)
  /\ hasApiKey (component m') = hasApiKey (component m)
  /\ localStorage (world m') = localStorage (world m)
  /\ serviceCalls (world m')
     = serviceCalls (world m)
       ++ (if hasApiKey (component m) then [(seed, n)] else [])
  /\ (error (component m') = None
      <-> hasApiKey (component m) = true
          /\ replyFault (world m)
               (service (world m) (length (serviceCalls (world m))) seed n)
             = None)
  /\ (error (component m') <> None -> keywords (component m') = []).
Proof.
  intros m'. subst m'. unfold stateAfter, completionOf.
  destruct (hasApiKey (component m)) eqn:Hkey.
  - destruct (replyFault (world m)
                (service (world m) (length (serviceCalls (world m))) seed n))
      as [fault|] eqn:Hfault.
    + rewrite (handleGenerateKeywords_faulty seed n m fault Hkey Hfault).
      cbn [fst snd component world keywords error isLoading hasApiKey
           savedKeywords selectedDifficultyFilter selectedVolumeFilter
           selectedCompetitionFilter localStorage serviceCalls].
      repeat split; try reflexivity; try discriminate.
      intros [_ ?]. discriminate.
    + destruct (replyFault_none _ _ Hfault) as (text & items & Hsvc & Hparse).
      rewrite (handleGenerateKeywords_success seed n m text items Hkey Hsvc
                 Hparse).
      cbn [fst snd component world keywords error isLoading hasApiKey
           savedKeywords selectedDifficultyFilter selectedVolumeFilter
           selectedCompetitionFilter localStorage serviceCalls].
      repeat split; try reflexivity; try done.
  - rewrite (handleGenerateKeywords_guarded seed n m Hkey).
    cbn [fst snd component world keywords error isLoading hasApiKey
         savedKeywords selectedDifficultyFilter selectedVolumeFilter
         selectedCompetitionFilter localStorage serviceCalls].
    rewrite app_nil_r.
    repeat split; try reflexivity; try discriminate.
    intros [? _]. discriminate.
Qed.

End GenerationOutcomes.

(** * The saved collection over a session *)

Section SavedSession.
Import App Session.

Lemma runEvents_snoc (events : list AppEvent) (ev : AppEvent) (m : Machine) :
  runEvents (events ++ [ev]) m
  = stateAfter (handleEvent ev) (runEvents events m).
Proof. unfold runEvents. by rewrite foldl_snoc. Qed.

Lemma runEvents_cons (events : list AppEvent) (ev : AppEvent) (m : Machine) :
  runEvents (ev :: events) m = runEvents events (stateAfter (handleEvent ev) m).
Proof. reflexivity. Qed.

(** What one event does to the saved collection. *)
Lemma handleEvent_saved (ev : AppEvent) (m : Machine) :
  savedKeywords (component (stateAfter (handleEvent ev) m)) =
  match ev with
  | SaveClicked r =>
      if isKeywordSaved (component m) r then savedKeywords (component m)
      else savedKeywords (component m) ++ [r]
  | ClearAllClicked => []
  | _ => savedKeywords (component m)
  end.
Proof.
  destruct ev as [seed n|r| | | |]; cbn [handleEvent].
  - by destruct (handleGenerateKeywords_frame seed n m) as (H & _).
  - unfold isKeywordSaved, stateAfter.
    destruct (existsb _ (savedKeywords (component m))) eqn:Hdup.
    + by rewrite handleSaveKeyword_known.
    + by rewrite handleSaveKeyword_new.
  - unfold stateAfter. by rewrite handleClearAllSavedKeywords_run.
  - reflexivity.
  - reflexivity.
  - reflexivity.
Qed.

(** What one event does to the store. *)
Lemma handleEvent_world (ev : AppEvent) (m : Machine) :
  storageAccepts (world (stateAfter (handleEvent ev) m))
  = storageAccepts (world m)
  /\ localStorage (world (stateAfter (handleEvent ev) m)) =
     match ev with
     | SaveClicked r =>
         if isKeywordSaved (component m) r then localStorage (world m)
         else localStorage
                (stateAfter
                   (saveKeywordsToLocalStorage
                      (savedKeywords (component m) ++ [r]))
                   (world m))
     | ClearAllClicked =>
         localStorage (stateAfter (saveKeywordsToLocalStorage []) (world m))
     | _ => localStorage (world m)
     end.
Proof.
  assert (Hsave : forall l w,
    storageAccepts (stateAfter (saveKeywordsToLocalStorage l) w)
    = storageAccepts w).
  { intros l w.
    destruct (storageAccepts w LOCAL_STORAGE_KEY (stringify (toJsonArray l)))
      eqn:Hacc.
    - by rewrite saveKeywordsToLocalStorage_accepted.
    - by rewrite saveKeywordsToLocalStorage_refused. }
  destruct ev as [seed n|r| | | |]; cbn [handleEvent].
  - destruct (handleGenerateKeywords_frame seed n m)
      as (_ & _ & _ & _ & _ & Hstore & Hacc & _).
    split; [exact Hacc | exact Hstore].
  - unfold isKeywordSaved, stateAfter at 1 2.
    destruct (existsb _ (savedKeywords (component m))) eqn:Hdup.
    + by rewrite handleSaveKeyword_known.
    + rewrite handleSaveKeyword_new by done. cbn [snd world].
      split; [apply Hsave | reflexivity].
  - unfold stateAfter at 1 2. rewrite handleClearAllSavedKeywords_run.
    cbn [snd world]. split; [apply Hsave | reflexivity].
  - split; reflexivity.
  - split; reflexivity.
  - split; reflexivity.
Qed.

Lemma isKeywordSaved_elem (st : AppState) (r : KeywordData) :
  isKeywordSaved st r = true <-> id r ∈ id <$> savedKeywords st.
Proof.
  unfold isKeywordSaved. rewrite existsb_id_elem, list_elem_of_fmap.
  split; intros (kw & H1 & H2); exists kw; done.
Qed.

(** X4: the ids of the saved collection stay pairwise distinct.  No
    sequence of submits, saves, clears and filter changes can bring a
    second record with an id that is already saved. *)
Theorem saved_ids_stay_distinct (events : list AppEvent) (m : Machine) :
  NoDup (id <$> savedKeywords (component m)) ->
  NoDup (id <$> savedKeywords (component (runEvents events m))).
Proof.
  induction events as [|ev events IH] using rev_ind; [done|].
  intros Hm. rewrite runEvents_snoc, handleEvent_saved.
  specialize (IH Hm). set (m1 := runEvents events m) in *.
  destruct ev as [seed n|r| | | |]; try exact IH.
  - destruct (isKeywordSaved (component m1) r) eqn:Hsaved; [exact IH|].
    rewrite fmap_app. apply NoDup_app. split; [exact IH|].
    split; [|apply NoDup_singleton].
    intros x Hx Hr. apply list_elem_of_singleton in Hr. subst x.
    apply isKeywordSaved_elem in Hx. congruence.
  - constructor.
Qed.

(** An instance of X4: a session from the initial state in which the
    same record is saved twice. *)
Lemma saved_ids_stay_distinct_witness :
  NoDup (id <$> savedKeywords (component
    (runEvents [SaveClicked Samples.recordA; DifficultySelected (Only High);
                SaveClicked Samples.recordA; SaveClicked Samples.recordB]
       (mkMachine initialApp (Samples.hostWith (Responds None)))))).
Proof.
  apply (saved_ids_stay_distinct
           [SaveClicked Samples.recordA; DifficultySelected (Only High);
            SaveClicked Samples.recordA; SaveClicked Samples.recordB]
           (mkMachine initialApp (Samples.hostWith (Responds None)))).
  constructor.
Defined.

(** X5: records leave the saved collection only through Clear All.  Over
    any sequence of events without a Clear All, the saved collection only
    grows at its end (the old collection is a prefix of the new one), so
    a record that isKeywordSaved reports as saved stays saved; and right
    after a save of a record, isKeywordSaved holds for it. *)
Theorem saved_only_grows_until_cleared (events : list AppEvent) (m : Machine) :
  ClearAllClicked ∉ events ->
  savedKeywords (component m)
    `prefix_of` savedKeywords (component (runEvents events m))
  /\ (forall r, isKeywordSaved (component m) r = true ->
        isKeywordSaved (component (runEvents events m)) r = true)
  /\ (forall r,
        isKeywordSaved
          (component (runEvents (events ++ [SaveClicked r]) m)) r = true).
Proof.
  intros Hclear.
  assert (Hprefix : savedKeywords (component m)
            `prefix_of` savedKeywords (component (runEvents events m))).
  { induction events as [|ev events IH] using rev_ind; [done|].
    rewrite runEvents_snoc, handleEvent_saved.
    assert (Hev : ev <> ClearAllClicked).
    { intros ->. apply Hclear. apply elem_of_app. right. by left. }
    assert (IH' : savedKeywords (component m)
              `prefix_of` savedKeywords (component (runEvents events m))).
    { apply IH. intros Hin. apply Hclear. apply elem_of_app. by left. }
    destruct ev as [seed n|r| | | |]; try exact IH'; [|done].
    destruct (isKeywordSaved _ r); [exact IH'|].
    etrans; [exact IH'|]. by apply prefix_app_r. }
  split; [exact Hprefix|]. split.
  - intros r Hr. apply isKeywordSaved_elem. apply isKeywordSaved_elem in Hr.
    destruct Hprefix as [k ->]. rewrite fmap_app. apply elem_of_app.
    by left.
  - intros r. rewrite runEvents_snoc. apply isKeywordSaved_elem.
    rewrite handleEvent_saved.
    destruct (isKeywordSaved _ r) eqn:Hr.
    + by apply isKeywordSaved_elem.
    + rewrite fmap_app. apply elem_of_app. right. by left.
Qed.

(** An instance of X5: saves and filter changes after a first save. *)
Lemma saved_only_grows_until_cleared_witness :
  isKeywordSaved
    (component
       (runEvents [DifficultySelected (Only Low); SaveClicked Samples.recordB;
                   GenerateSubmitted (js "tea") 3]
          (mkMachine Samples.appWithSaved (Samples.hostWith (Responds None)))))
    Samples.recordA = true.
Proof.
  destruct (saved_only_grows_until_cleared
              [DifficultySelected (Only Low); SaveClicked Samples.recordB;
               GenerateSubmitted (js "tea") 3]
              (mkMachine Samples.appWithSaved
                 (Samples.hostWith (Responds None))))
    as (_ & Hkept & _).
  - intros Hin. repeat (apply elem_of_cons in Hin as [Hin|Hin];
                        [discriminate|]).
    by apply elem_of_nil in Hin.
  - apply Hkept. reflexivity.
Defined.

Lemma handleEvent_mirror (ev : AppEvent) (m : Machine) :
  (forall value, storageAccepts (world m) LOCAL_STORAGE_KEY value = true) ->
  storeMirrorsSaved m -> storeMirrorsSaved (stateAfter (handleEvent ev) m).
Proof.
  intros Hacc Hm. unfold storeMirrorsSaved in *.
  rewrite handleEvent_saved.
  destruct (handleEvent_world ev m) as [_ ->].
  destruct ev as [seed n|r| | | |]; try exact Hm.
  - destruct (isKeywordSaved (component m) r); [exact Hm|].
    rewrite saveKeywordsToLocalStorage_accepted by apply Hacc.
    cbn [localStorage]. by rewrite lookup_insert_eq.
  - rewrite saveKeywordsToLocalStorage_accepted by apply Hacc.
    cbn [localStorage]. by rewrite lookup_insert_eq.
Qed.

Lemma runEvents_accepts (events : list AppEvent) (m : Machine) :
  storageAccepts (world (runEvents events m)) = storageAccepts (world m).
Proof.
  induction events as [|ev events IH] using rev_ind; [done|].
  rewrite runEvents_snoc.
  destruct (handleEvent_world ev (runEvents events m)) as [-> _]. exact IH.
Qed.

(** X6: over a store that accepts writes under the key, the store keeps
    mirroring the saved collection through any sequence of events: it
    holds the text of the current collection (or nothing, while nothing
    was ever written and the collection is empty).  A load from the store
    at that point therefore finds the current collection, or finds no
    entry while the collection is empty. *)
Theorem store_mirrors_saved (events : list AppEvent) (m : Machine) :
  (forall value, storageAccepts (world m) LOCAL_STORAGE_KEY value = true) ->
  storeMirrorsSaved m ->
  let m' := runEvents events m in
  storeMirrorsSaved m'
  /\ (completionOf loadSavedKeywords (world m')
      = Normal (Some (toJsonArray (savedKeywords (component m'))))
      \/ completionOf loadSavedKeywords (world m') = Normal None
         /\ savedKeywords (component m') = []).
Proof.
  intros Hacc Hm m'.
  assert (Hm' : storeMirrorsSaved m').
  { subst m'. induction events as [|ev events IH] using rev_ind; [done|].
    rewrite runEvents_snoc. apply handleEvent_mirror; [|exact IH].
    intros value. by rewrite runEvents_accepts. }
  split; [exact Hm'|]. clearbody m'. unfold storeMirrorsSaved in Hm'.
  unfold completionOf.
  destruct (localStorage (world m') !! LOCAL_STORAGE_KEY) as [text|] eqn:Hget.
  - left. subst text. by rewrite (loadSavedKeywords_stringify _ _ Hget).
  - right. split; [|exact Hm'].
    unfold loadSavedKeywords, tryCatch, bind, getItem, gets. by rewrite Hget.
Qed.

(** An instance of X6: a session from the initial state over an empty
    store. *)
Lemma store_mirrors_saved_witness :
  completionOf loadSavedKeywords
    (world (runEvents [SaveClicked Samples.recordA; SaveClicked Samples.recordB;
                       SaveClicked Samples.recordA]
              (mkMachine initialApp (Samples.hostWith (Responds None)))))
  = Normal (Some (toJsonArray [Samples.recordA; Samples.recordB])).
Proof.
  destruct (store_mirrors_saved
              [SaveClicked Samples.recordA; SaveClicked Samples.recordB;
               SaveClicked Samples.recordA]
              (mkMachine initialApp (Samples.hostWith (Responds None)))
              (fun _ => eq_refl) eq_refl)
    as (_ & [Hload | [_ Hempty]]).
  - exact Hload.
  - vm_compute in Hempty. discriminate.
Defined.

(** X7: the handlers write to the store under one key only.  Whatever
    the events, every other key of the store keeps its entry. *)
Theorem only_one_key_is_written (events : list AppEvent) (m : Machine)
    (key : jsstring) :
  key <> LOCAL_STORAGE_KEY ->
  localStorage (world (runEvents events m)) !! key
  = localStorage (world m) !! key.
Proof.
  intros Hkey.
  assert (Hsave : forall l w,
    localStorage (stateAfter (saveKeywordsToLocalStorage l) w) !! key
    = localStorage w !! key).
  { intros l w.
    destruct (storageAccepts w LOCAL_STORAGE_KEY (stringify (toJsonArray l)))
      eqn:Hacc.
    - rewrite saveKeywordsToLocalStorage_accepted by done.
      cbn [localStorage]. by rewrite lookup_insert_ne.
    - by rewrite saveKeywordsToLocalStorage_refused. }
  induction events as [|ev events IH] using rev_ind; [done|].
  rewrite runEvents_snoc.
  destruct (handleEvent_world ev (runEvents events m)) as [_ ->].
  destruct ev as [seed n|r| | | |]; try exact IH.
  - destruct (isKeywordSaved _ r); [exact IH|]. by rewrite Hsave.
  - by rewrite Hsave.
Qed.

(** An instance of X7: an entry under another key survives a save and a
    clear. *)
Lemma only_one_key_is_written_witness :
  localStorage (world
    (runEvents [SaveClicked Samples.recordA; ClearAllClicked]
       (mkMachine initialApp
          (mkWorld {[js "theme" := js "dark"]} (fun _ _ => true) []
             (fun _ => []) 0 (fun _ _ _ => Responds None) [] (fun _ => [])))))
  !! js "theme" = Some (js "dark").
Proof.
  rewrite (only_one_key_is_written
             [SaveClicked Samples.recordA; ClearAllClicked]
             (mkMachine initialApp
                (mkWorld {[js "theme" := js "dark"]} (fun _ _ => true) []
                   (fun _ => []) 0 (fun _ _ _ => Responds None) []
                   (fun _ => [])))
             (js "theme")).
  - apply lookup_singleton_eq.
  - vm_compute. discriminate.
Defined.

Lemma filter_snoc {A : Type} (p : A -> bool) (l : list A) (x : A) :
  List.filter p (l ++ [x]) = List.filter p l ++ (if p x then [x] else []).
Proof. rewrite List.filter_app. cbn [List.filter]. by destruct (p x). Qed.

(** X8: a newly saved record shows in the filtered view exactly when the
    selected filters admit it, and then it comes last; the records shown
    before keep their places.  A save of an already saved record changes
    nothing in the view. *)
Theorem save_extends_view (r : KeywordData) (m : Machine) :
  let st := component m in
  let st' := component (stateAfter (handleSaveKeyword r) m) in
  filteredSavedKeywords st' =
  filteredSavedKeywords st
  ++ (if negb (isKeywordSaved st r)
         && matchesFilter (selectedDifficultyFilter st) (difficulty r)
         && matchesFilter (selectedVolumeFilter st) (searchVolume r)
         && matchesFilter (selectedCompetitionFilter st) (competitionLevel r)
      then [r] else []).
Proof.
  intros st st'. subst st st'. unfold isKeywordSaved, stateAfter.
  destruct (existsb _ (savedKeywords (component m))) eqn:Hdup.
  - rewrite handleSaveKeyword_known by done. cbn [snd negb andb].
    by rewrite app_nil_r.
  - rewrite handleSaveKeyword_new by done. cbn [snd component negb andb].
    unfold filteredSavedKeywords.
    cbn [savedKeywords selectedDifficultyFilter selectedVolumeFilter
         selectedCompetitionFilter].
    rewrite filter_snoc. cbv zeta. reflexivity.
Qed.

(** X9: Clear All followed by a save shows the saved record, whatever
    filters were selected before the clear: the collection and the view
    are both exactly that record. *)
Theorem clear_then_save_is_visible (r : KeywordData) (m : Machine) :
  let m' := runEvents [ClearAllClicked; SaveClicked r] m in
  savedKeywords (component m') = [r]
  /\ filteredSavedKeywords (component m') = [r].
Proof.
  intros m'. subst m'. unfold runEvents. cbn [foldl handleEvent].
  unfold stateAfter at 2 4. rewrite handleClearAllSavedKeywords_run.
  cbn [snd]. unfold stateAfter. rewrite handleSaveKeyword_new by done.
  cbn [snd component savedKeywords]. split; [reflexivity|].
  unfold filteredSavedKeywords. reflexivity.
Qed.

Lemma filter_sublist_mono {A : Type} (p q : A -> bool) (l : list A) :
  (forall x, p x = true -> q x = true) ->
  sublist (List.filter p l) (List.filter q l).
Proof.
  intros Hpq. induction l as [|x l IH]; cbn [List.filter]; [constructor|].
  destruct (p x) eqn:Hp.
  - rewrite (Hpq x Hp). by constructor.
  - destruct (q x); [by constructor | exact IH].
Qed.

(** X10: narrowing the selection never brings a record into view.  When
    two states hold the same saved collection and each filter of the
    first is either 'All' or the same as in the second, the view of the
    second is a subsequence of the view of the first. *)
Theorem narrowing_filters_shrinks_view (st st' : AppState) :
  savedKeywords st = savedKeywords st' ->
  (selectedDifficultyFilter st = All
   \/ selectedDifficultyFilter st = selectedDifficultyFilter st') ->
  (selectedVolumeFilter st = All
   \/ selectedVolumeFilter st = selectedVolumeFilter st') ->
  (selectedCompetitionFilter st = All
   \/ selectedCompetitionFilter st = selectedCompetitionFilter st') ->
  sublist (filteredSavedKeywords st') (filteredSavedKeywords st).
Proof.
  intros Hs Hd Hv Hc. unfold filteredSavedKeywords. rewrite Hs.
  apply filter_sublist_mono. intros kw. cbv zeta.
  rewrite !andb_true_iff. intros [[H1 H2] H3].
  repeat split.
  - destruct Hd as [-> | ->]; done.
  - destruct Hv as [-> | ->]; done.
  - destruct Hc as [-> | ->]; done.
Qed.

(** An instance of X10: selecting a difficulty on top of no filter. *)
Lemma narrowing_filters_shrinks_view_witness :
  sublist
    (filteredSavedKeywords
       (mkAppState [] [Samples.recordA; Samples.recordB] false None true
          (Only Low) All All))
    (filteredSavedKeywords Samples.appWithSaved).
Proof.
  apply (narrowing_filters_shrinks_view Samples.appWithSaved
           (mkAppState [] [Samples.recordA; Samples.recordB] false None true
              (Only Low) All All));
    [reflexivity | by left | by left | by left].
Defined.

End SavedSession.

(** * The input form *)

Section FormInput.
Import KeywordInput.

Lemma trimStart_nil (s : jsstring) :
  trimStart s = [] <-> forallb isWhiteSpace s = true.
Proof.
  induction s as [|c s IH]; cbn [trimStart forallb]; [done|].
  destruct (isWhiteSpace c); cbn [andb]; [exact IH | done].
Qed.

Lemma trimStart_blank (s : jsstring) :
  forallb isWhiteSpace (trimStart s) = forallb isWhiteSpace s.
Proof.
  induction s as [|c s IH]; cbn [trimStart]; [done|].
  destruct (isWhiteSpace c) eqn:Hc; [|done].
  cbn [forallb]. by rewrite Hc, IH.
Qed.

Lemma forallb_rev {A : Type} (p : A -> bool) (l : list A) :
  forallb p (rev l) = forallb p l.
Proof.
  induction l as [|x l IH]; [done|].
  cbn [rev forallb]. rewrite forallb_app, IH. cbn [forallb].
  rewrite andb_true_r. apply andb_comm.
Qed.

(** The trimmed text is empty exactly when the text is white space
    throughout. *)
Lemma trim_blank (s : jsstring) :
  truthy (trim s) = negb (forallb isWhiteSpace s).
Proof.
  rewrite <- (trimStart_blank s), <- (forallb_rev _ (trimStart s)).
  unfold trim, trimEnd.
  destruct (trimStart (rev (trimStart s))) as [|c t] eqn:Ht.
  - apply trimStart_nil in Ht. by rewrite Ht.
  - assert (Hb : forallb isWhiteSpace (rev (trimStart s)) <> true).
    { intros Hb. apply trimStart_nil in Hb. congruence. }
    apply not_true_is_false in Hb. rewrite Hb.
    destruct (rev (c :: t)) eqn:Hr; [|done].
    apply (f_equal (@length N)) in Hr. rewrite length_rev in Hr. done.
Qed.

(** X11: a submit calls onSubmit exactly when the seed has a character
    that is not white space and the count is within 1..20, and then with
    the seed as typed (not trimmed) and the count of the state.  A blank
    seed is reported first, whatever the count; the reported message is
    one of the two of the form; seed and count are never changed by a
    submit, and a successful submit leaves no message. *)
Theorem submit_requires_nonblank_seed (st : InputState) :
  let blank := forallb isWhiteSpace (seedKeyword st) in
  let inRange := (1 <=? numKeywords st)%Z && (numKeywords st <=? 20)%Z in
  (handleSubmit st).2
  = (if negb blank && inRange then Some (seedKeyword st, numKeywords st)
     else None)
  /\ error (handleSubmit st).1
     = (if blank then Some (js "Please enter a seed keyword.")
        else if inRange then None
        else Some (js "Number of keywords must be between 1 and 20."))
  /\ seedKeyword (handleSubmit st).1 = seedKeyword st
  /\ numKeywords (handleSubmit st).1 = numKeywords st.
Proof.
  intros blank inRange. subst blank inRange. unfold handleSubmit.
  cbn [seedKeyword numKeywords]. rewrite trim_blank, negb_involutive.
  destruct (forallb isWhiteSpace (seedKeyword st)); cbn [negb andb fst snd];
    [done|].
  destruct (Z.ltb_spec (numKeywords st) 1), (Z.ltb_spec 20 (numKeywords st)),
    (Z.leb_spec 1 (numKeywords st)), (Z.leb_spec (numKeywords st) 20);
    try lia; destruct st; done.
Qed.

(** X12: a submit does not depend on the message left by an earlier one:
    submitting again without a change of input gives the same state and
    the same call. *)
Theorem submit_twice_is_submit_once (st : InputState) :
  handleSubmit (handleSubmit st).1 = handleSubmit st.
Proof.
  unfold handleSubmit. cbn [seedKeyword numKeywords].
  destruct (negb (truthy (trim (seedKeyword st)))) eqn:Hseed;
    cbn [fst seedKeyword numKeywords]; rewrite ?Hseed; [done|].
  destruct ((numKeywords st <? 1)%Z || (20 <? numKeywords st)%Z) eqn:Hnum;
    cbn [fst seedKeyword numKeywords]; rewrite ?Hseed, ?Hnum; done.
Qed.


End FormInput.

(** * The badge colours of a card *)

Section BadgeColours.
Import KeywordCard.

Lemma not_in_cons_ne {A : Type} (x y : A) (l : list A) :
  x ∉ y :: l -> x <> y /\ x ∉ l.
Proof. rewrite not_elem_of_cons. done. Qed.

(** X14: the difficulty and the competition badge give each of the four
    declared levels a colour of its own, none of them the gray of the
    default branch; a string outside the declared levels gets the gray. *)
Theorem level_colours_are_distinct :
  (forall d d' : DifficultyLevel,
     getDifficultyColor (difficultyText d)
     = getDifficultyColor (difficultyText d') -> d = d')
  /\ (forall c c' : CompetitionLevel,
        getCompetitionColor (difficultyText c)
        = getCompetitionColor (difficultyText c') -> c = c')
  /\ (forall d : DifficultyLevel,
        getDifficultyColor (difficultyText d) <> js "bg-gray-100 text-gray-800"
        /\ getCompetitionColor (difficultyText d)
           <> js "bg-gray-100 text-gray-800")
  /\ (forall text, text ∉ difficultyTexts ->
        getDifficultyColor text = js "bg-gray-100 text-gray-800"
        /\ getCompetitionColor text = js "bg-gray-100 text-gray-800").
Proof.
  split; [intros [] [] H; (reflexivity || (vm_compute in H; discriminate))|].
  split; [intros [] [] H; (reflexivity || (vm_compute in H; discriminate))|].
  split; [intros []; split; vm_compute; discriminate|].
  intros text Hout. unfold difficultyTexts in Hout.
  apply not_in_cons_ne in Hout as [H1 Hout].
  apply not_in_cons_ne in Hout as [H2 Hout].
  apply not_in_cons_ne in Hout as [H3 Hout].
  apply not_in_cons_ne in Hout as [H4 _].
  unfold getDifficultyColor, getCompetitionColor.
  rewrite !bool_decide_eq_false_2 by done. done.
Qed.

Ltac listed := apply (bool_decide_unpack _); vm_compute; exact I.

(** X15: the volume badge does not tell every range apart.  The two
    largest ranges share one colour, the two smallest fall through to the
    gray of an unknown value, and the two ranges between have a colour
    each. *)
Theorem volume_colours_merge_ranges (v v' : SearchVolumeRange) :
  getVolumeColor (volumeText v) = getVolumeColor (volumeText v')
  <-> v = v'
      \/ (v ∈ [Vol_10K_100K; Vol_100K_up] /\ v' ∈ [Vol_10K_100K; Vol_100K_up])
      \/ (v ∈ [Vol_0_10; Vol_10_100] /\ v' ∈ [Vol_0_10; Vol_10_100]
          /\ getVolumeColor (volumeText v) = js "bg-gray-100 text-gray-800").
Proof.
  split.
  - destruct v, v'; intros H;
      try (left; reflexivity);
      try (vm_compute in H; discriminate);
      try (right; left; split; listed);
      (right; right; split; [listed|split; [listed|reflexivity]]).
  - intros H; destruct v, v'; try reflexivity; exfalso; revert H;
      rewrite ?elem_of_cons, ?elem_of_nil; intuition discriminate.
Qed.

End BadgeColours.

(** * What the page shows *)

Section Rendering.
Import App Session.

Lemma filteredSavedKeywords_unfiltered (st : AppState) :
  selectedDifficultyFilter st = All ->
  selectedVolumeFilter st = All ->
  selectedCompetitionFilter st = All ->
  filteredSavedKeywords st = savedKeywords st.
Proof.
  intros Hd Hv Hc. unfold filteredSavedKeywords. rewrite Hd, Hv, Hc.
  cbn [matchesFilter andb].
  induction (savedKeywords st) as [|kw l IH]; [done|].
  cbn [List.filter]. by rewrite IH.
Qed.

Lemma length_zero_nil {A : Type} (l : list A) :
  bool_decide (length l = 0%nat) = match l with [] => true | _ => false end.
Proof. by destruct l. Qed.

(** X16: the conditional blocks of the page fit together.  The page is
    never blank; the two hints exclude each other and show only on an
    idle page without an error and without a saved section; the start
    hint shows only without a generated batch and the other hint only
    beside one; a saved section shows either its cards or its no-match
    message, never both and never neither; and the no-match message
    needs a filter that is not 'All'. *)
Theorem panels_fit_together (st : AppState) :
  let p := renderPanels st in
  loadingSpinner p || errorBanner p || generatedSection p || startHint p
    || savedSection p = true
  /\ startHint p && nothingSavedHint p = false
  /\ (startHint p || nothingSavedHint p)
       && (loadingSpinner p || errorBanner p || savedSection p) = false
  /\ startHint p && generatedSection p = false
  /\ nothingSavedHint p && negb (generatedSection p) = false
  /\ xorb (savedCards p) (noMatchMessage p) = savedSection p
  /\ (noMatchMessage p = true ->
      selectedDifficultyFilter st <> All
      \/ selectedVolumeFilter st <> All
      \/ selectedCompetitionFilter st <> All).
Proof.
  intros p. subst p. unfold renderPanels.
  cbn [loadingSpinner errorBanner generatedSection startHint savedSection
       savedCards noMatchMessage nothingSavedHint].
  rewrite !length_zero_nil.
  repeat split.
  - destruct (isLoading st), (errorShown st), (keywords st),
      (savedKeywords st); done.
  - destruct (isLoading st), (errorShown st), (keywords st),
      (savedKeywords st); done.
  - destruct (isLoading st), (errorShown st), (keywords st),
      (savedKeywords st); done.
  - destruct (isLoading st), (errorShown st), (keywords st),
      (savedKeywords st); done.
  - destruct (isLoading st), (errorShown st), (keywords st),
      (savedKeywords st); done.
  - destruct (savedKeywords st), (filteredSavedKeywords st); done.
  - intros Hshown.
    destruct (selectedDifficultyFilter st) eqn:Hd; [|by left].
    destruct (selectedVolumeFilter st) eqn:Hv; [|by right; left].
    destruct (selectedCompetitionFilter st) eqn:Hc; [|by right; right].
    rewrite (filteredSavedKeywords_unfiltered st Hd Hv Hc) in Hshown.
    destruct (savedKeywords st); done.
Qed.

Lemma handleEvent_filters (ev : AppEvent) (m : Machine) :
  match ev with
  | DifficultySelected _ | VolumeSelected _ | CompetitionSelected _ => False
  | _ => True
  end ->
  selectedDifficultyFilter (component m) = All ->
  selectedVolumeFilter (component m) = All ->
  selectedCompetitionFilter (component m) = All ->
  let m' := stateAfter (handleEvent ev) m in
  selectedDifficultyFilter (component m') = All
  /\ selectedVolumeFilter (component m') = All
  /\ selectedCompetitionFilter (component m') = All.
Proof.
  intros Hev Hd Hv Hc m'. subst m'.
  destruct ev as [seed n|r| | | |]; try done; cbn [handleEvent].
  - destruct (handleGenerateKeywords_frame seed n m)
      as (_ & -> & -> & -> & _). done.
  - unfold stateAfter.
    destruct (existsb (fun kw => bool_decide (id kw = id r))
                (savedKeywords (component m))) eqn:Hdup.
    + by rewrite handleSaveKeyword_known.
    + by rewrite handleSaveKeyword_new.
  - unfold stateAfter. by rewrite handleClearAllSavedKeywords_run.
Qed.

(** X17: the no-match message is only ever the effect of a filter
    selection.  From a state with no filter selected, no sequence of
    generations, saves and clears brings the page to show it. *)
Theorem no_match_needs_a_selection (events : list AppEvent) (m : Machine) :
  selectedDifficultyFilter (component m) = All ->
  selectedVolumeFilter (component m) = All ->
  selectedCompetitionFilter (component m) = All ->
  Forall (fun ev => match ev with
                    | DifficultySelected _ | VolumeSelected _
                    | CompetitionSelected _ => False
                    | _ => True
                    end) events ->
  noMatchMessage (renderPanels (component (runEvents events m))) = false.
Proof.
  intros Hd Hv Hc Hevents.
  assert (Hall : selectedDifficultyFilter (component (runEvents events m)) = All
                 /\ selectedVolumeFilter (component (runEvents events m)) = All
                 /\ selectedCompetitionFilter (component (runEvents events m))
                    = All).
  { induction events as [|ev events IH] using rev_ind; [done|].
    apply Forall_app in Hevents as [Hevents Hev].
    apply List.Forall_inv in Hev.
    rewrite runEvents_snoc. destruct (IH Hevents) as (Hd' & Hv' & Hc').
    exact (handleEvent_filters ev _ Hev Hd' Hv' Hc'). }
  destruct Hall as (Hd' & Hv' & Hc').
  unfold renderPanels. cbn [noMatchMessage].
  rewrite (filteredSavedKeywords_unfiltered _ Hd' Hv' Hc').
  rewrite !length_zero_nil.
  destruct (savedKeywords (component (runEvents events m))); done.
Qed.

(** An instance of X17: a session from the initial state. *)
Lemma no_match_needs_a_selection_witness :
  noMatchMessage
    (renderPanels
       (component
          (runEvents [SaveClicked Samples.recordA; ClearAllClicked;
                      GenerateSubmitted (js "tea") 3;
                      SaveClicked Samples.recordB]
             (mkMachine initialApp (Samples.hostWith (Responds None))))))
  = false.
Proof.
  apply (no_match_needs_a_selection
           [SaveClicked Samples.recordA; ClearAllClicked;
            GenerateSubmitted (js "tea") 3; SaveClicked Samples.recordB]
           (mkMachine initialApp (Samples.hostWith (Responds None)))
           eq_refl eq_refl eq_refl).
  repeat constructor.
Defined.

End Rendering.

(** * Checking for a key and selecting one *)

Section KeySelection.
Import App Session.

(** What the check reads: the answer of the studio's probe when there is
    one, the environment's key otherwise. *)
Lemma checkApiKey_run (host : KeyHost) (m : Machine) :
  let probe : Completion bool :=
    match aistudio host with
    | Some (mkAiStudio (Some answer) _) => answer
    | _ => match envApiKey host with
           | Normal (Some k) => Normal (truthy k)
           | Normal None => Normal false
           | Abrupt e => Abrupt e
           end
    end in
  checkApiKey host m =
  (Normal tt,
   match probe with
   | Normal b =>
       mkMachine
         (mkAppState (keywords (component m)) (savedKeywords (component m))
            (isLoading (component m)) (error (component m)) b
            (selectedDifficultyFilter (component m))
            (selectedVolumeFilter (component m))
            (selectedCompetitionFilter (component m)))
         (world m)
   | Abrupt e =>
       mkMachine
         (mkAppState (keywords (component m)) (savedKeywords (component m))
            (isLoading (component m)) (error (component m)) false
            (selectedDifficultyFilter (component m))
            (selectedVolumeFilter (component m))
            (selectedCompetitionFilter (component m)))
         (mkWorld (localStorage (world m)) (storageAccepts (world m))
            (console (world m)
             ++ [(js "Error checking API key availability:", e)])
            (uuids (world m)) (uuidsDrawn (world m)) (service (world m))
            (serviceCalls (world m)) (engineMessage (world m)))
   end).
Proof.
  intros probe. subst probe. unfold checkApiKey.
  destruct (aistudio host) as [[[[b|e]|] open]|]; cbn [hasSelectedApiKey];
    try reflexivity;
    destruct (envApiKey host) as [[k|]|e]; reflexivity.
Qed.

(** X18: the check contains every failure and consults the environment
    only when the studio has no probe.  It completes normally on every
    host; it changes the key flag and nothing else of the component (the
    batch, the saved collection, the loading flag, the error slot and the
    three filters keep their values); it leaves the store, the requests
    and the UUID source alone.  With a probe, the flag is the probe's
    answer whatever the environment holds; a probe that rejects with [e]
    gives a false flag and exactly one new console line, which carries
    [e], and is not followed by a look at the environment; a probe that
    answers prints nothing.  Without a probe, the flag is the truthiness
    of the environment's key and nothing is printed, unless reading the
    environment throws [e]: then the flag is false and the one new
    console line carries [e]. *)
Theorem checkApiKey_contains_failures (host : KeyHost) (m : Machine) :
  let m' := stateAfter (checkApiKey host) m in
  completionOf (checkApiKey host) m = Normal tt
  /\ keywords (component m') = keywords (component m)
  /\ savedKeywords (component m') = savedKeywords (component m)
  /\ isLoading (component m') = isLoading (component m)
  /\ error (component m') = error (component m)
  /\ selectedDifficultyFilter (component m')
     = selectedDifficultyFilter (component m)
  /\ selectedVolumeFilter (component m') = selectedVolumeFilter (component m)
  /\ selectedCompetitionFilter (component m')
     = selectedCompetitionFilter (component m)
  /\ filteredSavedKeywords (component m') = filteredSavedKeywords (component m)
  /\ localStorage (world m') = localStorage (world m)
  /\ serviceCalls (world m') = serviceCalls (world m)
  /\ uuidsDrawn (world m') = uuidsDrawn (world m)
  /\ (console (world m') = console (world m)
      \/ hasApiKey (component m') = false
         /\ exists e,
              console (world m')
              = console (world m)
                ++ [(js "Error checking API key availability:", e)])
  /\ (forall studio answer,
        aistudio host = Some studio ->
        hasSelectedApiKey studio = Some answer ->
        hasApiKey (component m')
        = match answer with Normal b => b | Abrupt _ => false end
        /\ console (world m')
           = console (world m)
             ++ match answer with
                | Normal _ => []
                | Abrupt e =>
                    [(js "Error checking API key availability:", e)]
                end)
  /\ ((forall studio, aistudio host = Some studio ->
                      hasSelectedApiKey studio = None) ->
      hasApiKey (component m')
      = match envApiKey host with
        | Normal (Some k) => truthy k
        | _ => false
        end
      /\ console (world m')
         = console (world m)
           ++ match envApiKey host with
              | Normal _ => []
              | Abrupt e => [(js "Error checking API key availability:", e)]
              end).
Proof.
  intros m'. subst m'. unfold stateAfter, completionOf.
  rewrite (checkApiKey_run host m). cbn [fst snd].
  split; [reflexivity|].
  destruct (aistudio host) as [[[[b|e]|] open]|] eqn:Hstudio;
    cbn [hasSelectedApiKey].
  - repeat (split; [reflexivity|]). split; [by left|]. split.
    + intros studio answer [= <-] [= <-]. cbn. by rewrite app_nil_r.
    + intros Hnone. by specialize (Hnone _ eq_refl).
  - repeat (split; [reflexivity|]).
    split; [right; split; [done|by exists e]|]. split.
    + intros studio answer [= <-] [= <-]. done.
    + intros Hnone. by specialize (Hnone _ eq_refl).
  - destruct (envApiKey host) as [[k|]|e];
      repeat (split; [reflexivity|]);
      (split; [first [by left | right; split; [done|by eexists]]|]);
      (split; [intros studio answer [= <-] [=]|]);
      intros _; cbn; by rewrite ?app_nil_r.
  - destruct (envApiKey host) as [[k|]|e];
      repeat (split; [reflexivity|]);
      (split; [first [by left | right; split; [done|by eexists]]|]);
      (split; [intros studio answer [=]|]);
      intros _; cbn; by rewrite ?app_nil_r.
Qed.

(** Instances of X18: a probe that rejects beside an environment that
    holds a key, and an environment whose key is the empty string. *)
Lemma checkApiKey_contains_failures_witness :
  (hasApiKey
     (component
        (stateAfter
           (checkApiKey
              (mkKeyHost (Some (mkAiStudio (Some (Abrupt NonError)) None))
                 (Normal (Some (js "key")))))
           (mkMachine Samples.appWithKey (Samples.hostWith (Responds None)))))
   = false
   /\ console
        (world
           (stateAfter
              (checkApiKey
                 (mkKeyHost (Some (mkAiStudio (Some (Abrupt NonError)) None))
                    (Normal (Some (js "key")))))
              (mkMachine Samples.appWithKey
                 (Samples.hostWith (Responds None)))))
      = [(js "Error checking API key availability:", NonError)])
  /\ hasApiKey
       (component
          (stateAfter (checkApiKey (mkKeyHost None (Normal (Some []))))
             (mkMachine Samples.appWithKey
                (Samples.hostWith (Responds None)))))
     = false.
Proof.
  split.
  - destruct (checkApiKey_contains_failures
                (mkKeyHost (Some (mkAiStudio (Some (Abrupt NonError)) None))
                   (Normal (Some (js "key"))))
                (mkMachine Samples.appWithKey
                   (Samples.hostWith (Responds None))))
      as (_ & _ & _ & _ & _ & _ & _ & _ & _ & _ & _ & _ & _ & Hprobe & _).
    exact (Hprobe (mkAiStudio (Some (Abrupt NonError)) None) (Abrupt NonError)
             eq_refl eq_refl).
  - destruct (checkApiKey_contains_failures
                (mkKeyHost None (Normal (Some [])))
                (mkMachine Samples.appWithKey
                   (Samples.hostWith (Responds None))))
      as (_ & _ & _ & _ & _ & _ & _ & _ & _ & _ & _ & _ & _ & _ & Henv).
    apply Henv. intros studio Hstudio. discriminate.
Defined.

(** What a selection does, by how the studio's dialog ends. *)
Lemma selectApiKey_run (host : KeyHost) (p : Page) :
  let a := component (machine p) in
  let w := world (machine p) in
  selectApiKey host p =
  (Normal tt,
   match aistudio host with
   | Some (mkAiStudio _ (Some (Normal _))) =>
       mkPage
         (mkMachine
            (mkAppState (keywords a) (savedKeywords a) (isLoading a) (error a)
               true (selectedDifficultyFilter a) (selectedVolumeFilter a)
               (selectedCompetitionFilter a)) w)
         (warnings p)
   | Some (mkAiStudio _ (Some (Abrupt e))) =>
       mkPage
         (mkMachine
            (mkAppState (keywords a) (savedKeywords a) (isLoading a)
               (Some (js "Failed to open API key selection. Please try again."))
               (hasApiKey a) (selectedDifficultyFilter a)
               (selectedVolumeFilter a) (selectedCompetitionFilter a))
            (mkWorld (localStorage w) (storageAccepts w)
               (console w ++ [(js "Error opening API key selection:", e)])
               (uuids w) (uuidsDrawn w) (service w) (serviceCalls w)
               (engineMessage w)))
         (warnings p)
   | _ =>
       mkPage
         (mkMachine
            (mkAppState (keywords a) (savedKeywords a) (isLoading a)
               (Some (js "API Key selection is not available in this environment. Please ensure process.env.API_KEY is set."))
               (hasApiKey a) (selectedDifficultyFilter a)
               (selectedVolumeFilter a) (selectedCompetitionFilter a)) w)
         (warnings p
          ++ [js "window.aistudio.openSelectKey is not available."])
   end).
Proof.
  intros a w. subst a w. unfold selectApiKey.
  destruct (aistudio host) as [[probe [[[]|e]|]]|]; reflexivity.
Qed.

(** X19: a selection never revokes a key and never verifies one.  It
    completes normally on every host; a flag that was true stays true;
    the batch, the saved collection, the loading flag, the three
    filters, the store and the requests are never touched.  When the
    dialog closes without throwing, the flag is true afterwards,
    whatever was chosen in it, and the error slot, the console and the
    warnings keep what they held.  When the dialog throws [e], the flag
    is unchanged, the error slot holds the handler's failure message and
    the one new console line carries [e].  When the studio or its dialog
    is missing, the flag is unchanged, the error slot holds the
    handler's not-available message and the one new warning is
    printed. *)
Theorem selectApiKey_never_revokes (host : KeyHost) (p : Page) :
  let a := component (machine p) in
  let w := world (machine p) in
  let a' := component (machine (stateAfter (selectApiKey host) p)) in
  let w' := world (machine (stateAfter (selectApiKey host) p)) in
  let warned := warnings (stateAfter (selectApiKey host) p) in
  completionOf (selectApiKey host) p = Normal tt
  /\ implb (hasApiKey a) (hasApiKey a') = true
  /\ keywords a' = keywords a
  /\ savedKeywords a' = savedKeywords a
  /\ selectedDifficultyFilter a' = selectedDifficultyFilter a
  /\ selectedVolumeFilter a' = selectedVolumeFilter a
  /\ selectedCompetitionFilter a' = selectedCompetitionFilter a
  /\ filteredSavedKeywords a' = filteredSavedKeywords a
  /\ isLoading a' = isLoading a
  /\ localStorage w' = localStorage w
  /\ serviceCalls w' = serviceCalls w
  /\ (hasApiKey a' = true /\ error a' = error a
      /\ (exists studio, aistudio host = Some studio
                         /\ openSelectKey studio = Some (Normal tt))
      \/ hasApiKey a' = hasApiKey a
         /\ (error a'
             = Some (js "Failed to open API key selection. Please try again.")
             \/ error a'
                = Some (js "API Key selection is not available in this environment. Please ensure process.env.API_KEY is set.")))
  /\ (forall studio,
        aistudio host = Some studio ->
        openSelectKey studio = Some (Normal tt) ->
        hasApiKey a' = true
        /\ error a' = error a
        /\ console w' = console w
        /\ warned = warnings p)
  /\ (forall studio e,
        aistudio host = Some studio ->
        openSelectKey studio = Some (Abrupt e) ->
        hasApiKey a' = hasApiKey a
        /\ error a'
           = Some (js "Failed to open API key selection. Please try again.")
        /\ console w'
           = console w ++ [(js "Error opening API key selection:", e)]
        /\ warned = warnings p)
  /\ ((forall studio, aistudio host = Some studio ->
                      openSelectKey studio = None) ->
      hasApiKey a' = hasApiKey a
      /\ error a'
         = Some (js "API Key selection is not available in this environment. Please ensure process.env.API_KEY is set.")
      /\ console w' = console w
      /\ warned
         = warnings p
           ++ [js "window.aistudio.openSelectKey is not available."]).
Proof.
  intros a w a' w' warned. subst a w a' w' warned.
  unfold stateAfter, completionOf.
  rewrite (selectApiKey_run host p). cbn [fst snd].
  split; [reflexivity|].
  destruct (aistudio host) as [[probe [[[]|e]|]]|] eqn:Hstudio;
    cbn [machine component world warnings hasApiKey keywords savedKeywords
         isLoading error localStorage serviceCalls console
         selectedDifficultyFilter selectedVolumeFilter
         selectedCompetitionFilter];
    (split; [by destruct (hasApiKey (component (machine p)))|]);
    repeat (split; [reflexivity|]).
  - split; [left; repeat split; by eexists|].
    split; [intros studio _ _; done|].
    split; [intros studio e' [= <-] [=]|].
    intros Hnone. by specialize (Hnone _ eq_refl).
  - split; [right; split; [reflexivity | by left]|].
    split; [intros studio [= <-] [=]|].
    split; [intros studio e' [= <-] [= <-]; done|].
    intros Hnone. by specialize (Hnone _ eq_refl).
  - split; [right; split; [reflexivity | by right]|].
    split; [intros studio [= <-] [=]|].
    split; [intros studio e' [= <-] [=]|].
    intros _. done.
  - split; [right; split; [reflexivity | by right]|].
    split; [intros studio [=]|].
    split; [intros studio e' [=]|].
    intros _. done.
Qed.

(** Instances of X19: a dialog that closes on a page without a key, and
    a dialog that throws on a page with one. *)
Lemma selectApiKey_never_revokes_witness :
  hasApiKey
    (component
       (machine
          (stateAfter
             (selectApiKey
                (mkKeyHost (Some (mkAiStudio None (Some (Normal tt))))
                   (Normal None)))
             (mkPage
                (mkMachine initialApp (Samples.hostWith (Responds None)))
                []))))
  = true
  /\ hasApiKey
       (component
          (machine
             (stateAfter
                (selectApiKey
                   (mkKeyHost (Some (mkAiStudio None (Some (Abrupt NonError))))
                      (Normal None)))
                (mkPage
                   (mkMachine Samples.appWithKey
                      (Samples.hostWith (Responds None)))
                   []))))
     = true.
Proof.
  split.
  - destruct (selectApiKey_never_revokes
                (mkKeyHost (Some (mkAiStudio None (Some (Normal tt))))
                   (Normal None))
                (mkPage
                   (mkMachine initialApp (Samples.hostWith (Responds None)))
                   []))
      as (_ & _ & _ & _ & _ & _ & _ & _ & _ & _ & _ & _ & Hopen & _).
    apply (Hopen (mkAiStudio None (Some (Normal tt))) eq_refl eq_refl).
  - destruct (selectApiKey_never_revokes
                (mkKeyHost (Some (mkAiStudio None (Some (Abrupt NonError))))
                   (Normal None))
                (mkPage
                   (mkMachine Samples.appWithKey
                      (Samples.hostWith (Responds None)))
                   []))
      as (_ & _ & _ & _ & _ & _ & _ & _ & _ & _ & _ & _ & _ & Hthrow & _).
    destruct (Hthrow (mkAiStudio None (Some (Abrupt NonError))) NonError
                eq_refl eq_refl) as [Hflag _].
    exact Hflag.
Defined.

Lemma handleGenerateKeywords_calls (seed : jsstring) (n : Z) (m : Machine) :
  hasApiKey (component m) = true ->
  let m' := stateAfter (handleGenerateKeywords seed n) m in
  serviceCalls (world m') = serviceCalls (world m) ++ [(seed, n)]
  /\ (error (component m') = None
      \/ exists fault, error (component m') = Some (clientMessage fault)).
Proof.
  intros Hkey m'. subst m'. unfold stateAfter.
  destruct (replyFault (world m)
              (service (world m) (length (serviceCalls (world m))) seed n))
    as [fault|] eqn:Hfault.
  - rewrite (handleGenerateKeywords_faulty seed n m fault Hkey Hfault).
    split; [reflexivity | right; by exists fault].
  - destruct (replyFault_none _ _ Hfault) as (text & items & Hsvc & Hparse).
    rewrite (handleGenerateKeywords_success seed n m text items Hkey Hsvc
               Hparse).
    split; [reflexivity | by left].
Qed.

(** X20: once the dialog has closed without throwing, a generation is
    sent to the service, also from a page that had no key before and
    whatever the dialog's outcome was: the request is recorded and the
    missing-key message is not the result. *)
Theorem selection_unlocks_generation (host : KeyHost) (p : Page)
    (studio : AiStudio) (seed : jsstring) (n : Z) :
  aistudio host = Some studio ->
  openSelectKey studio = Some (Normal tt) ->
  let m1 := machine (stateAfter (selectApiKey host) p) in
  let m2 := stateAfter (handleGenerateKeywords seed n) m1 in
  serviceCalls (world m2) = serviceCalls (world (machine p)) ++ [(seed, n)]
  /\ error (component m2)
     <> Some (js "API Key not selected. Please select your API key to proceed.")
  /\ hasApiKey (component m2) = true.
Proof.
  intros Hstudio Hopen m1 m2.
  assert (Hm1 : hasApiKey (component m1) = true
                /\ world m1 = world (machine p)).
  { subst m1. unfold stateAfter. rewrite (selectApiKey_run host p).
    rewrite Hstudio. destruct studio as [probe open].
    cbn [openSelectKey] in Hopen. subst open. done. }
  destruct Hm1 as [Hkey Hworld].
  destruct (handleGenerateKeywords_calls seed n m1 Hkey) as [Hcalls Herror].
  destruct (handleGenerateKeywords_frame seed n m1) as (_ & _ & _ & _ & Hflag & _).
  fold m2 in Hcalls, Herror, Hflag.
  rewrite Hworld in Hcalls.
  split; [exact Hcalls|]. split; [|by rewrite Hflag].
  destruct Herror as [-> | [fault ->]]; [done|].
  unfold clientMessage. destruct (matchesSignature fault);
    intros H; vm_compute in H; discriminate.
Qed.

(** An instance of X20: a page without a key, a dialog that closes. *)
Lemma selection_unlocks_generation_witness :
  serviceCalls
    (world
       (stateAfter (handleGenerateKeywords (js "tea") 3)
          (machine
             (stateAfter
                (selectApiKey
                   (mkKeyHost (Some (mkAiStudio None (Some (Normal tt))))
                      (Normal None)))
                (mkPage
                   (mkMachine initialApp
                      (Samples.hostWith (Responds (Some (js "[]")))))
                   [])))))
  = [(js "tea", 3%Z)].
Proof.
  apply (selection_unlocks_generation
           (mkKeyHost (Some (mkAiStudio None (Some (Normal tt))))
              (Normal None))
           (mkPage
              (mkMachine initialApp
                 (Samples.hostWith (Responds (Some (js "[]")))))
              [])
           (mkAiStudio None (Some (Normal tt))) (js "tea") 3
           eq_refl eq_refl).
Defined.

End KeySelection.

(** * Identifiers across generations *)

Section Identifiers.
Import App Session.

(** X21: two generations in a row never give two records the same id,
    neither within a batch nor across the two, when the UUID source never
    repeats: the second batch draws its ids after those of the first.  A
    record saved from the first batch therefore never blocks the save of
    a record of the second. *)
Theorem batches_never_share_ids (seed1 seed2 : jsstring) (n1 n2 : Z)
    (m : Machine) (text1 text2 : jsstring) (items1 items2 : list Json) :
  hasApiKey (component m) = true ->
  (forall i j, uuids (world m) i = uuids (world m) j -> i = j) ->
  service (world m) (length (serviceCalls (world m))) seed1 n1
  = Responds (Some text1) ->
  JSON_parse (trim text1) = Some (JArr items1) ->
  service (world m) (S (length (serviceCalls (world m)))) seed2 n2
  = Responds (Some text2) ->
  JSON_parse (trim text2) = Some (JArr items2) ->
  let m1 := stateAfter (handleGenerateKeywords seed1 n1) m in
  let m2 := stateAfter (handleGenerateKeywords seed2 n2) m1 in
  length (keywords (component m1)) = length items1
  /\ length (keywords (component m2)) = length items2
  /\ NoDup (batchIds (keywords (component m1))
            ++ batchIds (keywords (component m2))).
Proof.
  intros Hkey Hinj Hsvc1 Hparse1 Hsvc2 Hparse2 m1 m2.
  assert (Hm1 : m1 = _) by
    (subst m1; unfold stateAfter;
     rewrite (handleGenerateKeywords_success seed1 n1 m text1 items1 Hkey
                Hsvc1 Hparse1); reflexivity).
  cbn [snd] in Hm1.
  assert (Hkey1 : hasApiKey (component m1) = true) by (by rewrite Hm1).
  assert (Hsvc1' : service (world m1) (length (serviceCalls (world m1)))
                     seed2 n2 = Responds (Some text2)).
  { rewrite Hm1. cbn [world service serviceCalls].
    rewrite length_app. cbn [length]. by rewrite Nat.add_1_r. }
  assert (Hm2 : m2 = _) by
    (subst m2; unfold stateAfter;
     rewrite (handleGenerateKeywords_success seed2 n2 m1 text2 items2 Hkey1
                Hsvc1' Hparse2); reflexivity).
  cbn [snd] in Hm2.
  clear Hkey1 Hsvc1'. clearbody m2. clearbody m1. subst m2 m1.
  cbn [component keywords world uuids uuidsDrawn].
  rewrite !length_imap. split; [reflexivity|]. split; [reflexivity|].
  rewrite (batchIds_withId items1
             (fun i => uuids (world m) (uuidsDrawn (world m) + i)%nat)).
  rewrite (batchIds_withId items2
             (fun i => uuids (world m)
                         (uuidsDrawn (world m) + length items1 + i)%nat)).
  assert (Hshift :
    (fun i => Some (JStr (uuids (world m)
                            (uuidsDrawn (world m) + length items1 + i)%nat)))
      <$> seq 0 (length items2)
    = (fun i => Some (JStr (uuids (world m) (uuidsDrawn (world m) + i)%nat)))
        <$> seq (length items1) (length items2)).
  { replace (seq (length items1) (length items2))
      with (Nat.add (length items1) <$> seq 0 (length items2))
      by (by rewrite fmap_add_seq, Nat.add_0_r).
    rewrite <- list_fmap_compose.
    apply list_fmap_ext. intros _ i _. cbn [compose].
    by rewrite Nat.add_assoc. }
  rewrite Hshift, <- fmap_app, <- seq_app.
  apply NoDup_fmap_2; [|apply NoDup_seq].
  intros i j [= Heq]. apply Hinj in Heq. lia.
Qed.

(** An instance of X21: two replies of two records each, over a UUID
    source whose n-th value has n characters. *)
Lemma batches_never_share_ids_witness :
  NoDup
    (batchIds
       (keywords
          (component
             (stateAfter (handleGenerateKeywords (js "tea") 2)
                (mkMachine Samples.appWithKey
                   (mkWorld ∅ (fun _ _ => true) [] (fun i => replicate i 97%N)
                      0 (fun _ _ _ => Responds (Some (js "[{},{}]"))) []
                      (fun _ => []))))))
     ++ batchIds
          (keywords
             (component
                (stateAfter (handleGenerateKeywords (js "chai") 2)
                   (stateAfter (handleGenerateKeywords (js "tea") 2)
                      (mkMachine Samples.appWithKey
                         (mkWorld ∅ (fun _ _ => true) []
                            (fun i => replicate i 97%N) 0
                            (fun _ _ _ => Responds (Some (js "[{},{}]"))) []
                            (fun _ => [])))))))).
Proof.
  apply (batches_never_share_ids (js "tea") (js "chai") 2 2
           (mkMachine Samples.appWithKey
              (mkWorld ∅ (fun _ _ => true) [] (fun i => replicate i 97%N) 0
                 (fun _ _ _ => Responds (Some (js "[{},{}]"))) []
                 (fun _ => [])))
           (js "[{},{}]") (js "[{},{}]") [JObj []; JObj []]
           [JObj []; JObj []] eq_refl).
  - intros i j Heq. cbn [world uuids] in Heq.
    apply (f_equal (@length N)) in Heq.
    by rewrite !length_replicate in Heq.
  - reflexivity.
  - reflexivity.
  - reflexivity.
  - reflexivity.
Defined.

End Identifiers.

(** * The shape of a reply that is accepted *)

Section ReplyShape.
Import App Session.

Lemma isJsonWs_isWhiteSpace (c : N) :
  isJsonWs c = true -> isWhiteSpace c = true.
Proof.
  unfold isJsonWs. rewrite !orb_true_iff, !N.eqb_eq.
  intros [[[-> | ->] | ->] | ->]; reflexivity.
Qed.

Lemma trimStart_head (s : jsstring) (c : N) (rest : jsstring) :
  trimStart s = c :: rest -> isWhiteSpace c = false.
Proof.
  induction s as [|d s IH]; cbn [trimStart]; [done|].
  destruct (isWhiteSpace d) eqn:Hd; [exact IH|]. by intros [= <- _].
Qed.

Lemma trimStart_snoc (l : jsstring) (c : N) :
  isWhiteSpace c = false -> exists l', trimStart (l ++ [c]) = l' ++ [c].
Proof.
  intros Hc. induction l as [|d l IH]; cbn [trimStart app].
  - rewrite Hc. by exists [].
  - destruct (isWhiteSpace d); [exact IH | by exists (d :: l)].
Qed.

Lemma trimEnd_head (c : N) (rest : jsstring) :
  isWhiteSpace c = false -> exists r, trimEnd (c :: rest) = c :: r.
Proof.
  intros Hc. unfold trimEnd. cbn [rev].
  destruct (trimStart_snoc (rev rest) c Hc) as [l' ->].
  exists (rev l'). by rewrite rev_app_distr.
Qed.

Lemma parseMembers_object (f : nat) (acc : list (jsstring * Json))
    (s : jsstring) (v : Json) (r : jsstring) :
  parseMembers f acc s = Some (v, r) -> exists props, v = JObj props.
Proof.
  revert acc s. induction f as [|f IH]; intros acc s; [done|].
  rewrite parseMembers_S.
  destruct (skipWs s) as [|q t]; [done|].
  destruct (q =? 34); [|done].
  destruct (parseStringBody t) as [[k r0]|]; [|done].
  destruct (skipWs r0) as [|c r1]; [done|].
  destruct (c =? 58); [|done].
  destruct (parseValue f r1) as [[v' r2]|]; [|done].
  destruct (skipWs r2) as [|d r3]; [done|].
  destruct (d =? 44); [apply IH|].
  destruct (d =? 125); [|done].
  intros [= <- _]. by eexists.
Qed.

(** A text that parses as an array has '[' as its first character after
    white space. *)
Lemma JSON_parse_array_head (s : jsstring) (items : list Json) :
  JSON_parse s = Some (JArr items) -> exists r, skipWs s = 91 :: r.
Proof.
  unfold JSON_parse.
  replace (2 * length s + 2)%nat with (S (2 * length s + 1)) by lia.
  rewrite parseValue_S.
  destruct (skipWs s) as [|c t]; [done|].
  destruct (c =? 123) eqn:Hobj.
  { destruct (skipWs t) as [|d r]; [done|].
    destruct (d =? 125).
    - destruct (bool_decide _); done.
    - destruct (parseMembers _ [] t) as [[v r']|] eqn:Hm; [|done].
      destruct (parseMembers_object _ _ _ _ _ Hm) as [props ->].
      destruct (bool_decide _); done. }
  destruct (N.eqb_spec c 91) as [->|_]; [intros _; by eexists|].
  destruct (c =? 34).
  { destruct (parseStringBody t) as [[x r]|]; [|done].
    destruct (bool_decide _); done. }
  destruct (startsWith (c :: t) (js "true"));
    [destruct (bool_decide _); done|].
  destruct (startsWith (c :: t) (js "false"));
    [destruct (bool_decide _); done|].
  destruct (startsWith (c :: t) (js "null"));
    [destruct (bool_decide _); done|].
  destruct (parseNumber (c :: t)) as [[literal r]|]; [|done].
  destruct (bool_decide _); done.
Qed.

Lemma trim_array_head (text : jsstring) (items : list Json) :
  JSON_parse (trim text) = Some (JArr items) ->
  exists rest, trimStart text = 91 :: rest.
Proof.
  intros Hparse. apply JSON_parse_array_head in Hparse as [r Hr].
  unfold trim in Hr.
  destruct (trimStart text) as [|c rest] eqn:Hstart; [done|].
  pose proof (trimStart_head _ _ _ Hstart) as Hc.
  destruct (trimEnd_head c rest Hc) as [r' Hr']. rewrite Hr' in Hr.
  cbn [skipWs] in Hr.
  destruct (isJsonWs c) eqn:Hws.
  - apply isJsonWs_isWhiteSpace in Hws. congruence.
  - injection Hr as -> _. by exists rest.
Qed.

(** X22: the client accepts a reply only when its first character after
    white space is '['.  Whenever a call returns a batch, the service
    answered with a text of that shape; a reply that opens with anything
    else (a code fence, a sentence, an object) makes the call throw. *)
Theorem accepted_reply_opens_with_bracket (seed : jsstring) (n : Z)
    (w w' : World) (batch : list Json) :
  generateKeywordsAndMetrics seed n w = (Normal batch, w') ->
  exists text rest,
    service w (length (serviceCalls w)) seed n = Responds (Some text)
    /\ trimStart text = 91%N :: rest.
Proof.
  intros Hrun.
  destruct (generate_success_only_if seed n w w' batch Hrun)
    as (text & items & Hsvc & Hparse).
  destruct (trim_array_head text items Hparse) as [rest Hrest].
  by exists text, rest.
Qed.

(** An instance of X22: a reply with blanks around an array. *)
Lemma accepted_reply_opens_with_bracket_witness :
  exists text rest,
    service (Samples.hostWith (Responds (Some (js " [{}] "))))
      0 (js "tea") 1
    = Responds (Some text)
    /\ trimStart text = 91%N :: rest.
Proof.
  apply (accepted_reply_opens_with_bracket (js "tea") 1
           (Samples.hostWith (Responds (Some (js " [{}] "))))
           (stateAfter (generateKeywordsAndMetrics (js "tea") 1)
              (Samples.hostWith (Responds (Some (js " [{}] ")))))
           [JObj [(js "id", JStr (js "0"))]]).
  vm_compute. reflexivity.
Defined.

(** X23: with a key selected, a reply that opens with anything but '['
    (after white space) ends in the error slot, with an empty batch and
    without drawing a UUID. *)
Theorem fenced_reply_is_an_error (seed : jsstring) (n : Z) (m : Machine)
    (text : jsstring) :
  hasApiKey (component m) = true ->
  service (world m) (length (serviceCalls (world m))) seed n
  = Responds (Some text) ->
  head (trimStart text) <> Some 91%N ->
  let m' := stateAfter (handleGenerateKeywords seed n) m in
  keywords (component m') = []
  /\ (exists fault, error (component m') = Some (clientMessage fault))
  /\ uuidsDrawn (world m') = uuidsDrawn (world m).
Proof.
  intros Hkey Hsvc Hhead m'. subst m'. unfold stateAfter.
  destruct (replyFault (world m)
              (service (world m) (length (serviceCalls (world m))) seed n))
    as [fault|] eqn:Hfault.
  - rewrite (handleGenerateKeywords_faulty seed n m fault Hkey Hfault).
    cbn [snd component world keywords error uuidsDrawn].
    split; [reflexivity|]. split; [by exists fault | reflexivity].
  - destruct (replyFault_none _ _ Hfault) as (text' & items & Hsvc' & Hparse).
    rewrite Hsvc in Hsvc'. injection Hsvc' as <-.
    destruct (trim_array_head text items Hparse) as [rest Hrest].
    rewrite Hrest in Hhead. done.
Qed.

(** An instance of X23: a reply inside a Markdown code fence. *)
Lemma fenced_reply_is_an_error_witness :
  keywords
    (component
       (stateAfter (handleGenerateKeywords (js "tea") 1)
          (mkMachine Samples.appWithKey
             (Samples.hostWith (Responds (Some (js "```json [{}] ```")))))))
  = []
  /\ exists fault,
       error
         (component
            (stateAfter (handleGenerateKeywords (js "tea") 1)
               (mkMachine Samples.appWithKey
                  (Samples.hostWith
                     (Responds (Some (js "```json [{}] ```")))))))
       = Some (clientMessage fault).
Proof.
  destruct (fenced_reply_is_an_error (js "tea") 1
              (mkMachine Samples.appWithKey
                 (Samples.hostWith (Responds (Some (js "```json [{}] ```")))))
              (js "```json [{}] ```") eq_refl eq_refl)
    as (Hbatch & Herror & _).
  - vm_compute. discriminate.
  - split; [exact Hbatch | exact Herror].
Defined.

End ReplyShape.

(** * Sessions through the controls the page offers *)

Section OfferedControls.
Import App Session.

Lemma existsb_same_id (l : list KeywordData) (r r' : KeywordData) :
  id r' = id r ->
  existsb (fun kw => bool_decide (id kw = id r')) l
  = existsb (fun kw => bool_decide (id kw = id r)) l.
Proof. intros ->. reflexivity. Qed.

(** X24: the saved mark of a card follows the ids alone.  After a save
    of [r], the records marked as saved are those marked before and those
    with the id of [r], whatever their other fields; after Clear All no
    record is marked. *)
Theorem saved_mark_follows_ids (r r' : KeywordData) (m : Machine) :
  isKeywordSaved (component (stateAfter (handleSaveKeyword r) m)) r'
  = isKeywordSaved (component m) r' || bool_decide (id r' = id r)
  /\ isKeywordSaved (component (stateAfter handleClearAllSavedKeywords m)) r'
     = false.
Proof.
  split.
  - unfold isKeywordSaved, stateAfter.
    destruct (existsb (fun kw => bool_decide (id kw = id r))
                (savedKeywords (component m))) eqn:Hdup.
    + rewrite handleSaveKeyword_known by done. cbn [snd].
      destruct (bool_decide (id r' = id r)) eqn:Hid;
        [|by rewrite orb_false_r].
      apply bool_decide_eq_true in Hid.
      by rewrite (existsb_same_id _ r r' Hid), Hdup.
    + rewrite handleSaveKeyword_new by done.
      cbn [snd component savedKeywords].
      rewrite existsb_app. cbn [existsb]. rewrite orb_false_r.
      f_equal. apply bool_decide_ext. split; congruence.
  - unfold isKeywordSaved, stateAfter.
    by rewrite handleClearAllSavedKeywords_run.
Qed.

Lemma handleEvent_idle_filters (ev : AppEvent) (m : Machine) :
  offered (component m) ev = true ->
  (savedKeywords (component m) = [] ->
   selectedDifficultyFilter (component m) = All
   /\ selectedVolumeFilter (component m) = All
   /\ selectedCompetitionFilter (component m) = All) ->
  let m' := stateAfter (handleEvent ev) m in
  savedKeywords (component m') = [] ->
  selectedDifficultyFilter (component m') = All
  /\ selectedVolumeFilter (component m') = All
  /\ selectedCompetitionFilter (component m') = All.
Proof.
  intros Hoff Hinv m'. subst m'.
  destruct ev as [seed n|r| |value|value|value]; cbn [handleEvent offered] in *.
  - destruct (handleGenerateKeywords_frame seed n m)
      as (-> & -> & -> & -> & _). exact Hinv.
  - unfold stateAfter. apply negb_true_iff in Hoff.
    rewrite handleSaveKeyword_new by exact Hoff.
    cbn [snd component savedKeywords]. intros Hnil.
    by apply app_nil in Hnil as [_ ?].
  - unfold stateAfter. by rewrite handleClearAllSavedKeywords_run.
  - intros Hnil. cbn in Hnil. rewrite Hnil in Hoff. done.
  - intros Hnil. cbn in Hnil. rewrite Hnil in Hoff. done.
  - intros Hnil. cbn in Hnil. rewrite Hnil in Hoff. done.
Qed.

(** X25: through the controls that the page offers, a filter is never
    left selected over an empty saved collection.  The selects exist
    only inside the saved section, the collection empties only by Clear
    All, and Clear All resets the three filters; so whenever the
    collection is empty all three filters are 'All', and the next record
    saved is shown. *)
Theorem no_filter_over_empty_collection (events : list AppEvent)
    (m : Machine) :
  (savedKeywords (component m) = [] ->
   selectedDifficultyFilter (component m) = All
   /\ selectedVolumeFilter (component m) = All
   /\ selectedCompetitionFilter (component m) = All) ->
  allOffered events m = true ->
  let m' := runEvents events m in
  savedKeywords (component m') = [] ->
  (selectedDifficultyFilter (component m') = All
   /\ selectedVolumeFilter (component m') = All
   /\ selectedCompetitionFilter (component m') = All)
  /\ forall r,
       filteredSavedKeywords
         (component (stateAfter (handleSaveKeyword r) m')) = [r].
Proof.
  intros Hinv Hoff m'. subst m'.
  assert (Hall : savedKeywords (component (runEvents events m)) = [] ->
                 selectedDifficultyFilter (component (runEvents events m)) = All
                 /\ selectedVolumeFilter (component (runEvents events m)) = All
                 /\ selectedCompetitionFilter (component (runEvents events m))
                    = All).
  { revert m Hinv Hoff. induction events as [|ev events IH]; intros m Hinv Hoff.
    - exact Hinv.
    - cbn [allOffered] in Hoff. apply andb_true_iff in Hoff as [Hev Hoff].
      rewrite runEvents_cons. apply IH; [|exact Hoff].
      exact (handleEvent_idle_filters ev m Hev Hinv). }
  intros Hnil. destruct (Hall Hnil) as (Hd & Hv & Hc).
  split; [done|]. intros r. unfold stateAfter.
  rewrite handleSaveKeyword_new by (by rewrite Hnil).
  cbn [snd component]. unfold filteredSavedKeywords.
  cbn [savedKeywords selectedDifficultyFilter selectedVolumeFilter
       selectedCompetitionFilter].
  rewrite Hnil, Hd, Hv, Hc. reflexivity.
Qed.

(** An instance of X25: a filter is selected, then the collection is
    cleared. *)
Lemma no_filter_over_empty_collection_witness :
  filteredSavedKeywords
    (component
       (stateAfter (handleSaveKeyword Samples.recordB)
          (runEvents [SaveClicked Samples.recordA; DifficultySelected (Only Low);
                      ClearAllClicked]
             (mkMachine initialApp (Samples.hostWith (Responds None))))))
  = [Samples.recordB].
Proof.
  apply (no_filter_over_empty_collection
           [SaveClicked Samples.recordA; DifficultySelected (Only Low);
            ClearAllClicked]
           (mkMachine initialApp (Samples.hostWith (Responds None)))).
  - intros _. repeat split; reflexivity.
  - vm_compute. reflexivity.
  - vm_compute. reflexivity.
Defined.

(** X26: the guards of the handlers are not reached through the
    controls that the page offers.  An offered save always appends its
    record (the duplicate branch is not taken), and an offered submit
    always sends its request (the missing-key branch is not taken). *)
Theorem offered_controls_pass_the_guards (m : Machine) :
  (forall r,
     offered (component m) (SaveClicked r) = true ->
     savedKeywords (component (stateAfter (handleEvent (SaveClicked r)) m))
     = savedKeywords (component m) ++ [r])
  /\ (forall seed n,
        offered (component m) (GenerateSubmitted seed n) = true ->
        let m' := stateAfter (handleEvent (GenerateSubmitted seed n)) m in
        serviceCalls (world m') = serviceCalls (world m) ++ [(seed, n)]
        /\ error (component m')
           <> Some (js "API Key not selected. Please select your API key to proceed.")).
Proof.
  split.
  - intros r Hoff. cbn [handleEvent offered] in *.
    unfold stateAfter. apply negb_true_iff in Hoff.
    by rewrite handleSaveKeyword_new.
  - intros seed n Hoff m'. subst m'. cbn [handleEvent offered] in *.
    apply andb_true_iff in Hoff as [Hkey _].
    destruct (handleGenerateKeywords_calls seed n m Hkey) as [Hcalls Herror].
    split; [exact Hcalls|].
    destruct Herror as [-> | [fault ->]]; [done|].
    unfold clientMessage. destruct (matchesSignature fault);
      intros H; vm_compute in H; discriminate.
Qed.

(** An instance of X26: a save offered beside one saved record, a submit
    offered with a key. *)
Lemma offered_controls_pass_the_guards_witness :
  savedKeywords
    (component
       (stateAfter (handleEvent (SaveClicked Samples.recordB))
          (mkMachine
             (mkAppState [] [Samples.recordA] false None true All All All)
             (Samples.hostWith (Responds None)))))
  = [Samples.recordA; Samples.recordB]
  /\ serviceCalls
       (world
          (stateAfter (handleEvent (GenerateSubmitted (js "tea") 3))
             (mkMachine
                (mkAppState [] [Samples.recordA] false None true All All All)
                (Samples.hostWith (Responds None)))))
     = [(js "tea", 3%Z)].
Proof.
  destruct (offered_controls_pass_the_guards
              (mkMachine
                 (mkAppState [] [Samples.recordA] false None true All All All)
                 (Samples.hostWith (Responds None))))
    as [Hsave Hsubmit].
  split.
  - apply (Hsave Samples.recordB). reflexivity.
  - apply (Hsubmit (js "tea") 3%Z). reflexivity.
Defined.

End OfferedControls.

(** * From the form to the service *)

Section FormToService.
Import App Session.

Lemma handleSubmit_call (input : KeywordInput.InputState) (seed : jsstring)
    (count : Z) :
  (KeywordInput.handleSubmit input).2 = Some (seed, count) ->
  seed = KeywordInput.seedKeyword input
  /\ count = KeywordInput.numKeywords input
  /\ forallb isWhiteSpace seed = false
  /\ (1 <= count <= 20)%Z
  /\ KeywordInput.error (KeywordInput.handleSubmit input).1 = None.
Proof.
  unfold KeywordInput.handleSubmit.
  cbn [KeywordInput.seedKeyword KeywordInput.numKeywords].
  rewrite trim_blank, negb_involutive.
  destruct (forallb isWhiteSpace (KeywordInput.seedKeyword input)) eqn:Hblank;
    [done|].
  destruct (Z.ltb_spec (KeywordInput.numKeywords input) 1); [done|].
  destruct (Z.ltb_spec 20 (KeywordInput.numKeywords input)); [done|].
  cbn [orb fst snd KeywordInput.error]. intros [= <- <-].
  repeat split; (done || lia).
Qed.

(** X27: what the form lets through to the service.  A submit sends at
    most one request; a request that is sent carries the seed exactly as
    typed, which has a character that is not white space, and a count
    within 1..20; and when the form reports a message, nothing reaches
    the component: no request is made and the page's batch and error are
    left as they were. *)
Theorem form_sends_only_valid_requests (input : KeywordInput.InputState)
    (m : Machine) :
  let input' := (submitForm input m).1 in
  let m' := (submitForm input m).2 in
  (serviceCalls (world m') = serviceCalls (world m)
   \/ serviceCalls (world m')
      = serviceCalls (world m)
        ++ [(KeywordInput.seedKeyword input, KeywordInput.numKeywords input)]
      /\ forallb isWhiteSpace (KeywordInput.seedKeyword input) = false
      /\ (1 <= KeywordInput.numKeywords input <= 20)%Z
      /\ hasApiKey (component m) = true)
  /\ (KeywordInput.error input' <> None -> m' = m).
Proof.
  intros input' m'. subst input' m'. unfold submitForm.
  destruct (KeywordInput.handleSubmit input) as [input' [[seed count]|]]
    eqn:Hsubmit; cbn [fst snd].
  - destruct (handleSubmit_call input seed count) as (-> & -> & Hseed & Hcount & Herr);
      [by rewrite Hsubmit|].
    rewrite Hsubmit in Herr. cbn [fst] in Herr.
    split; [|by rewrite Herr].
    destruct (hasApiKey (component m)) eqn:Hkey.
    + right. split; [|done].
      by destruct (handleGenerateKeywords_calls
                     (KeywordInput.seedKeyword input)
                     (KeywordInput.numKeywords input) m Hkey).
    + left. unfold stateAfter.
      by rewrite (handleGenerateKeywords_guarded _ _ m Hkey).
  - split; [by left | done].
Qed.

End FormToService.
